(** * i2 Connect sample connectors: the graph-building services

    A shallow embedding of the two sample connectors
    ([example-connector] and [nypd-connector]) and of the parts of the
    JavaScript run time and of the i2 Connect result builder they call.

    Conventions of the embedding:
    - a JavaScript string is a [string]: a sequence of code units compared
      unit by unit (the model has 8-bit units where JavaScript has 16-bit
      ones);
    - a value that may be [undefined] is an [option];
    - a JavaScript number that the services produce is an integer or NaN
      ([JSNumber]); integers are exact (JavaScript rounds beyond 2^53 and
      distinguishes -0);
    - the [Result] object mutated by a service is threaded explicitly
      through a state-and-exception monad [M]; a record handle returned by
      the builder is the reference of the record inside the store, so two
      handles of the same record alias. *)

From Stdlib Require Import String Ascii List ZArith Bool Lia DecimalString.
Import ListNotations.
Open Scope string_scope.
Open Scope Z_scope.

(** ** The JavaScript run time used by the services *)

Module JS.

(** [ToString] as a template literal applies it to a string or [undefined]. *)
Definition toStr (v : option string) : string :=
  match v with
  | Some s => s
  | None => "undefined"
  end.

(** [v || ''] for a string or [undefined]: the empty string is falsy too. *)
Definition orEmpty (v : option string) : string :=
  match v with
  | Some s => s
  | None => EmptyString
  end.

(** [!!v] for a string or [undefined]. *)
Definition truthy (v : option string) : bool :=
  match v with
  | Some EmptyString => false
  | Some _ => true
  | None => false
  end.

(** *** [Array.prototype.sort] without comparator, and [join]

    The default comparator orders strings by code units; the sort is
    stable.  Insertion from the right keeps an element in front of the
    later elements it does not exceed. *)
Fixpoint insert (x : string) (l : list string) : list string :=
  match l with
  | [] => [x]
  | y :: l' => if (y <? x)%string then y :: insert x l' else x :: y :: l'
  end.

Fixpoint sort (l : list string) : list string :=
  match l with
  | [] => []
  | x :: l' => insert x (sort l')
  end.

Definition join (sep : string) (l : list string) : string :=
  String.concat sep l.

(** *** Numbers *)

Inductive JSNumber : Type :=
| Num (z : Z)
| NaN.

Definition sub (a b : JSNumber) : JSNumber :=
  match a, b with
  | Num x, Num y => Num (x - y)
  | _, _ => NaN
  end.

(** [`${n}`] for an integer or NaN. *)
Definition numToStr (n : JSNumber) : string :=
  match n with
  | Num z => NilZero.string_of_int (Z.to_int z)
  | NaN => "NaN"
  end.

(** *** [parseInt(s, 10)] *)

(** White space and line terminators among the code units below 256. *)
Definition isWhiteSpace (c : ascii) : bool :=
  let n := nat_of_ascii c in
  ((9 <=? n) && (n <=? 13))%nat || (n =? 32)%nat || (n =? 160)%nat.

Fixpoint trimStart (s : string) : string :=
  match s with
  | String c s' => if isWhiteSpace c then trimStart s' else s
  | EmptyString => EmptyString
  end.

Definition digitValue (c : ascii) : option Z :=
  let n := nat_of_ascii c in
  if ((48 <=? n) && (n <=? 57))%nat then Some (Z.of_nat (n - 48)) else None.

(** The longest prefix of decimal digits, read left to right; [None]
    when the prefix is empty. *)
Fixpoint digits (acc : option Z) (s : string) : option Z :=
  match s with
  | String c s' =>
      match digitValue c with
      | Some d =>
          digits (Some (10 * match acc with Some a => a | None => 0 end + d)) s'
      | None => acc
      end
  | EmptyString => acc
  end.

Definition parseInt10 (s : string) : JSNumber :=
  let t := trimStart s in
  let '(sign, body) :=
    match t with
    | String "-" t' => (-1, t')
    | String "+" t' => (1, t')
    | _ => (1, t)
    end in
  match digits None body with
  | Some m => Num (sign * m)
  | None => NaN
  end.

(** [parseInt(v, 10)] of a field that may be absent: [undefined] is
    first converted to the string "undefined", which has no digits. *)
Definition parseInt (v : option string) : JSNumber :=
  parseInt10 (toStr v).

(** *** [toLowerCase], [includes], [substring(0, n)] *)

Definition lowerUnit (c : ascii) : ascii :=
  let n := nat_of_ascii c in
  if (((65 <=? n) && (n <=? 90))
      || ((192 <=? n) && (n <=? 222) && negb (n =? 215)))%nat
  then ascii_of_nat (n + 32)
  else c.

Fixpoint toLowerCase (s : string) : string :=
  match s with
  | String c s' => String (lowerUnit c) (toLowerCase s')
  | EmptyString => EmptyString
  end.

Fixpoint includes (s t : string) : bool :=
  String.prefix t s
  || match s with
     | String _ s' => includes s' t
     | EmptyString => false
     end.

Definition substring0 (n : nat) (s : string) : string :=
  String.substring 0 n s.

(** *** [Set]: only [has] is used, so a set is the list it was made from. *)

Definition Set_has (s : list string) (x : string) : bool :=
  existsb (String.eqb x) s.

(** *** Exceptions *)

Inductive Exception : Type :=
| Error (message : string)
| TypeError (message : string)
| BuilderError (message : string).

Inductive outcome (A : Type) : Type :=
| Returned (a : A)
| Thrown (e : Exception).

Arguments Returned {A} a.
Arguments Thrown {A} e.

End JS.

Import JS.

(** The identifier of a Friendswith link: [[a, b].sort().join('-')]. *)
Definition friendLinkKey (a b : string) : string :=
  join "-" (sort [a; b]).

(** ** Schema item types, identifiers and property values *)

Record ItemType : Type := mkItemType {
  typeId : string;
  isLink : bool
}.

(** A source identifier [{ type, key }]. *)
Record ISourceIdentifier : Type := mkSourceIdentifier {
  si_type : string;
  si_key : list string
}.

(** [records.ResultRecordIdType]: a plain string or a source identifier;
    [typeof id === 'string'] is the match on the constructor. *)
Inductive ResultRecordIdType : Type :=
| StringId (id : string)
| SourceId (id : ISourceIdentifier).

Inductive PropertyValue : Type :=
| PString (s : string)
| PNumber (n : JSNumber)
| PPoint (latitude longitude : JSNumber)
| PDateTime (localDateAndTime timeZoneId : string) (isDST : bool).

Record ISourceReference : Type := mkSourceReference {
  sr_name : string;
  sr_type : string;
  sr_description : string
}.

Record IConnectorKey : Type := mkConnectorKey {
  ck_type : ItemType;
  ck_id : string
}.

(** A seed entity as the gateway hands it to a service. *)
Record ISeedEntityRecord : Type := mkSeed {
  seedId : string;
  seedType : ItemType;
  seedProperties : list (string * PropertyValue);
  connectorKeys : list IConnectorKey;
  sourceIdentifiers : list ISourceIdentifier
}.

Record ISeeds : Type := mkSeeds {
  seedEntities : list ISeedEntityRecord
}.

Definition ItemType_eq_dec (a b : ItemType) : {a = b} + {a <> b}.
Proof. decide equality; [apply bool_dec | apply string_dec]. Defined.

Definition ISourceIdentifier_eq_dec (a b : ISourceIdentifier) : {a = b} + {a <> b}.
Proof. decide equality; [apply (list_eq_dec string_dec) | apply string_dec]. Defined.

Definition ResultRecordIdType_eq_dec (a b : ResultRecordIdType) : {a = b} + {a <> b}.
Proof. decide equality; [apply string_dec | apply ISourceIdentifier_eq_dec]. Defined.

(** ** The result builder

    The class [Result] and its records come from the SDK package
    [@i2analyze/i2connect], which is not part of the sample sources. *)

(** The reference of a record inside one [Result]: a record the service
    created is known by its item type and identifier, a record made from
    a seed by the seed's identifier. *)
Inductive RecordRef : Type :=
| OwnRef (type : ItemType) (id : ResultRecordIdType)
| SeedRef (seed : string).

Definition RecordRef_eq_dec (a b : RecordRef) : {a = b} + {a <> b}.
Proof.
  decide equality;
    [apply ResultRecordIdType_eq_dec | apply ItemType_eq_dec | apply string_dec].
Defined.

Definition sameRef (a b : RecordRef) : bool :=
  if RecordRef_eq_dec a b then true else false.

Record EntityRecord : Type := mkEntity {
  e_ref : RecordRef;
  e_properties : list (string * PropertyValue);
  e_source : option ISourceReference
}.

Record LinkRecord : Type := mkLink {
  l_ref : RecordRef;
  l_from : RecordRef;
  l_to : RecordRef;
  l_properties : list (string * PropertyValue);
  l_source : option ISourceReference
}.

(** Modelled from the spec: the SDK's [Result], "the set of all
    ResultEntities and ResultLinks produced by one service invocation",
    mutated "by addition only".  Records are kept in insertion order. *)
Record Result : Type := mkResult {
  entities : list EntityRecord;
  links : list LinkRecord
}.

(** [new Result()] *)
Definition Result_new : Result := mkResult [] [].

(** The services run in a monad that threads the [Result] under
    construction and stops at the first exception. *)
Definition M (A : Type) : Type := Result -> outcome (A * Result).

Definition ret {A : Type} (a : A) : M A :=
  fun r => Returned (a, r).

Definition bind {A B : Type} (m : M A) (k : A -> M B) : M B :=
  fun r =>
    match m r with
    | Returned (a, r') => k a r'
    | Thrown e => Thrown e
    end.

Definition throw {A : Type} (e : Exception) : M A :=
  fun _ => Thrown e.

Notation "x <- m ;; k" := (bind m (fun x => k))
  (at level 61, m at next level, right associativity).
Notation "m ;;; k" := (bind m (fun _ => k))
  (at level 61, right associativity).

(** [for (const x of xs) { body }] *)
Fixpoint forEach {A : Type} (xs : list A) (body : A -> M unit) : M unit :=
  match xs with
  | [] => ret tt
  | x :: xs' => body x ;;; forEach xs' body
  end.

(** What a service hands back: the [Result] it built, or the exception. *)
Definition run (m : M unit) : outcome Result :=
  match m Result_new with
  | Returned (_, r) => Returned r
  | Thrown e => Thrown e
  end.

Definition hasEntity (k : RecordRef) (r : Result) : bool :=
  existsb (fun e => sameRef k (e_ref e)) (entities r).

Definition hasLink (k : RecordRef) (r : Result) : bool :=
  existsb (fun l => sameRef k (l_ref l)) (links r).

(** Modelled from the spec: the SDK's [Result.addEntity],
    [Result.addEntityWithSourceIdentifier] and [Result.addEntityFromSeed].
    The result is a set of records with stable identifiers: asking for a
    record that is already there hands back that record, otherwise a
    record with no property and no source reference is appended.  The
    property list of a record holds the values that the service assigns:
    the values that a seed came with are not represented, and what is
    stated of an entity made from a seed is its membership and the values
    assigned to it. *)
Definition addEntityRef (k : RecordRef) : M RecordRef :=
  fun r =>
    Returned (k, if hasEntity k r then r
                 else mkResult (entities r ++ [mkEntity k [] None]) (links r)).

Definition Result_addEntity (t : ItemType) (id : string) : M RecordRef :=
  addEntityRef (OwnRef t (StringId id)).

Definition Result_addEntityWithSourceIdentifier
    (t : ItemType) (id : ISourceIdentifier) : M RecordRef :=
  addEntityRef (OwnRef t (SourceId id)).

Definition Result_addEntityFromSeed (seed : ISeedEntityRecord) : M RecordRef :=
  addEntityRef (SeedRef (seedId seed)).

(** Modelled from the spec: the SDK's [Result.addLink] and
    [Result.addLinkWithSourceIdentifier]: "validates both endpoints are
    already graph members ... registers the link"; a link whose type and
    identifier are already registered is not registered again. *)
Definition addLinkRef (k from to : RecordRef) : M RecordRef :=
  fun r =>
    if hasEntity from r && hasEntity to r then
      Returned (k, if hasLink k r then r
                   else mkResult (entities r) (links r ++ [mkLink k from to [] None]))
    else Thrown (BuilderError "link end is not a record of this result").

Definition Result_addLink
    (t : ItemType) (id : string) (from to : RecordRef) : M RecordRef :=
  addLinkRef (OwnRef t (StringId id)) from to.

Definition Result_addLinkWithSourceIdentifier
    (t : ItemType) (id : ISourceIdentifier) (from to : RecordRef) : M RecordRef :=
  addLinkRef (OwnRef t (SourceId id)) from to.

(** A property map: setting a property replaces its value or adds it. *)
Fixpoint setValue (name : string) (v : PropertyValue)
    (ps : list (string * PropertyValue)) : list (string * PropertyValue) :=
  match ps with
  | [] => [(name, v)]
  | (n, w) :: ps' =>
      if String.eqb n name then (n, v) :: ps' else (n, w) :: setValue name v ps'
  end.

Fixpoint getValue (name : string) (ps : list (string * PropertyValue))
    : option PropertyValue :=
  match ps with
  | [] => None
  | (n, w) :: ps' => if String.eqb n name then Some w else getValue name ps'
  end.

Definition updateEntity (k : RecordRef) (f : EntityRecord -> EntityRecord) : M unit :=
  fun r =>
    Returned (tt, mkResult
                    (map (fun e => if sameRef k (e_ref e) then f e else e) (entities r))
                    (links r)).

Definition updateLink (k : RecordRef) (f : LinkRecord -> LinkRecord) : M unit :=
  fun r =>
    Returned (tt, mkResult
                    (entities r)
                    (map (fun l => if sameRef k (l_ref l) then f l else l) (links r))).

(** The assignment of a value that may be [undefined].  What an
    [undefined] value does to a property that the entity already holds
    is fixed by neither the connectors nor their specification; the model
    leaves the property, and a property is read back only where a value
    is assigned, where the entity is new, or where no assignment names
    it. *)
Definition assign (name : string) (v : option PropertyValue)
    (ps : list (string * PropertyValue)) : list (string * PropertyValue) :=
  match v with
  | Some w => setValue name w ps
  | None => ps
  end.

(** Modelled from the spec: the SDK's [setProperty] on an entity record.
    A value that is [undefined] "omits a property": nothing is assigned. *)
Definition Entity_setProperty
    (k : RecordRef) (name : string) (v : option PropertyValue) : M unit :=
  updateEntity k
    (fun e => mkEntity (e_ref e) (assign name v (e_properties e)) (e_source e)).

(** Modelled from the spec: the SDK's [setProperties], one [setProperty]
    per entry of the object literal, in its order. *)
Fixpoint Entity_setProperties
    (k : RecordRef) (ps : list (string * option PropertyValue)) : M unit :=
  match ps with
  | [] => ret tt
  | (name, v) :: ps' => Entity_setProperty k name v ;;; Entity_setProperties k ps'
  end.

(** Modelled from the spec: the SDK's [setSourceReference]: a record
    holds at most one "provenance reference", the last one set. *)
Definition Entity_setSourceReference (k : RecordRef) (s : ISourceReference) : M unit :=
  updateEntity k (fun e => mkEntity (e_ref e) (e_properties e) (Some s)).

Definition Link_setSourceReference (k : RecordRef) (s : ISourceReference) : M unit :=
  updateLink k
    (fun l => mkLink (l_ref l) (l_from l) (l_to l) (l_properties l) (Some s)).

(** Modelled from the spec: the SDK's seed accessors.  [isType] compares
    the seed's item type; [getProperty(type, name)] is [undefined] for a
    seed of another type or without the property; [connectorKeysByType]
    keeps the connector keys of the given type. *)
Definition Seed_isType (seed : ISeedEntityRecord) (t : ItemType) : bool :=
  if ItemType_eq_dec (seedType seed) t then true else false.

Definition Seed_getProperty
    (seed : ISeedEntityRecord) (t : ItemType) (name : string) : option PropertyValue :=
  if Seed_isType seed t then getValue name (seedProperties seed) else None.

Definition Seed_connectorKeysByType
    (seed : ISeedEntityRecord) (t : ItemType) : list IConnectorKey :=
  filter (fun k => if ItemType_eq_dec (ck_type k) t then true else false)
         (connectorKeys seed).

(** The typed reads of a seed that the services make.  The schemas give
    'Complaint Number', 'Borough Name', 'First Name', 'Last Name' and
    'Year of Birth' string values and 'Precinct Code' integer values, and
    the gateway checks a seed against the schema; a value of another shape
    reads as [undefined]. *)
Definition seedString (seed : ISeedEntityRecord) (t : ItemType) (name : string)
    : option string :=
  match Seed_getProperty seed t name with
  | Some (PString s) => Some s
  | _ => None
  end.

Definition seedNumber (seed : ISeedEntityRecord) (t : ItemType) (name : string)
    : option JSNumber :=
  match Seed_getProperty seed t name with
  | Some (PNumber n) => Some n
  | _ => None
  end.

(** ** The NYPD connector *)

Module NYPD.

(** [schema/nypd-complaint-data-schema.ts] *)
Definition Complaint : ItemType := mkItemType "ET1" false.
Definition Location : ItemType := mkItemType "ET2" false.
Definition Person : ItemType := mkItemType "ET3" false.
Definition Locatedat : ItemType := mkItemType "LT1" true.
Definition Suspectof : ItemType := mkItemType "LT2" true.
Definition Victimof : ItemType := mkItemType "LT3" true.

(** [IComplaintDto]: a row of the complaint data set as the endpoint
    sends it.  The response body is cast to the interface unchecked, and
    a row carries only the columns that have a value: every column but
    the row key [cmplnt_num] may be [undefined]. *)
Record IComplaintDto : Type := mkComplaintDto {
  cmplnt_num : string;
  crm_atpt_cptd_cd : option string;
  jurisdiction_code : option string;
  ky_cd : option string;
  law_cat_cd : option string;
  ofns_desc : option string;
  addr_pct_cd : option string;
  boro_nm : option string;
  latitude : option string;
  longitude : option string;
  vic_age_group : option string;
  vic_race : option string;
  vic_sex : option string;
  susp_age_group : option string;
  susp_race : option string;
  susp_sex : option string
}.

(** What [fetch] resolves to; [json] is the parsed body, or the exception
    of the parser. *)
Record Response : Type := mkResponse {
  status : Z;
  statusText : string;
  json : outcome (list IComplaintDto)
}.

Definition baseUrl : string :=
  "https://data.cityofnewyork.us/resource/7x9x-zpz6.json".

Definition token : string := EmptyString.

Definition dquote : string := String (ascii_of_nat 34) EmptyString.

Definition exampleSourceRef : ISourceReference :=
  mkSourceReference
    "NYPD Complaint Dataset"
    "Open source data"
    "A source reference to the corresponding record from the NYPD Complaint Dataset.".

Definition pstring (v : option string) : option PropertyValue :=
  option_map PString v.

Definition addLocation (datum : IComplaintDto) : M RecordRef :=
  let locationId :=
    "Borough: " ++ toStr (boro_nm datum) ++ " Precinct: " ++ toStr (addr_pct_cd datum) in
  entity <- Result_addEntity Location locationId ;;
  Entity_setProperties entity
    [ ("Precinct Code", Some (PNumber (parseInt (addr_pct_cd datum))));
      ("Borough Name", pstring (boro_nm datum));
      ("Coordinates",
        Some (PPoint (parseInt (latitude datum)) (parseInt (longitude datum)))) ] ;;;
  Entity_setSourceReference entity exampleSourceRef ;;;
  ret entity.

Definition addComplaint (datum : IComplaintDto) : M RecordRef :=
  let complaintId := "Complaint: " ++ cmplnt_num datum in
  entity <- Result_addEntity Complaint complaintId ;;
  Entity_setProperties entity
    [ ("Complaint Number", Some (PString (cmplnt_num datum)));
      ("Crime Status", pstring (crm_atpt_cptd_cd datum));
      ("Jurisdiction Code", Some (PNumber (parseInt (jurisdiction_code datum))));
      ("Offence Classification Code", Some (PNumber (parseInt (ky_cd datum))));
      ("Level Of Offence", pstring (law_cat_cd datum));
      ("Offence Description", pstring (ofns_desc datum)) ] ;;;
  Entity_setSourceReference entity exampleSourceRef ;;;
  ret entity.

Definition addSuspect (datum : IComplaintDto) : M RecordRef :=
  let suspectId := "Suspect: " ++ cmplnt_num datum in
  entity <- Result_addEntity Person suspectId ;;
  Entity_setProperties entity
    [ ("Age Group", pstring (susp_age_group datum));
      ("Race", pstring (susp_race datum));
      ("Sex", pstring (susp_sex datum)) ] ;;;
  Entity_setSourceReference entity exampleSourceRef ;;;
  ret entity.

Definition addVictim (datum : IComplaintDto) : M RecordRef :=
  let victimId := "Victim: " ++ cmplnt_num datum in
  entity <- Result_addEntity Person victimId ;;
  Entity_setProperties entity
    [ ("Age Group", pstring (vic_age_group datum));
      ("Race", pstring (vic_race datum));
      ("Sex", pstring (vic_sex datum)) ] ;;;
  Entity_setSourceReference entity exampleSourceRef ;;;
  ret entity.

Definition addLink (linkType : ItemType) (id : string)
    (fromEnd toEnd : RecordRef) : M unit :=
  link <- Result_addLink linkType id fromEnd toEnd ;;
  Link_setSourceReference link exampleSourceRef.

(** [`${n || ''}`] for a number or [undefined]: 0 and NaN are falsy. *)
Definition numOrEmpty (v : option JSNumber) : string :=
  match v with
  | Some (Num 0) => EmptyString
  | Some NaN => EmptyString
  | Some n => numToStr n
  | None => EmptyString
  end.

Section Services.

(** [new URL(base)] with the search parameters appended in order, read
    back through [href]: the serialisation is Node's. *)
Variable href : string -> list (string * string) -> string.

(** The world as [fetch] sees it: the response to a GET of a URL, or the
    exception of a failed request. *)
Variable fetch : string -> outcome Response.

Definition getUrl (params : list (string * string)) : string :=
  href baseUrl
    ((if String.eqb token EmptyString then [] else [("$$app_token", token)])
       ++ params).

Definition requestData (url : string) : outcome (list IComplaintDto) :=
  match fetch url with
  | Returned response =>
      if status response =? 200 then json response
      else Thrown (Error (statusText response))
  | Thrown e => Thrown e
  end.

(** The body of the loop of [getAll]. *)
Definition getAll_row (datum : IComplaintDto) : M unit :=
  locationEntity <- addLocation datum ;;
  complaintEntity <- addComplaint datum ;;
  suspectEntity <- addSuspect datum ;;
  victimEntity <- addVictim datum ;;
  addLink Locatedat (cmplnt_num datum) complaintEntity locationEntity ;;;
  addLink Victimof (cmplnt_num datum) victimEntity complaintEntity ;;;
  addLink Suspectof (cmplnt_num datum) suspectEntity complaintEntity.

(** The graph construction of [getAll] from the fetched rows. *)
Definition getAll_build (data : list IComplaintDto) : M unit :=
  forEach data getAll_row.

Definition getAll : outcome Result :=
  let url := getUrl [("$limit", "100")] in
  match requestData url with
  | Returned data => run (getAll_build data)
  | Thrown e => Thrown e
  end.

Definition expand_query (seed : ISeedEntityRecord) : list (string * string) :=
  let complaintNumber := orEmpty (seedString seed Complaint "Complaint Number") in
  let boroughName := orEmpty (seedString seed Location "Borough Name") in
  let precinctCode := numOrEmpty (seedNumber seed Location "Precinct Code") in
  if Seed_isType seed Complaint
  then [("$where", "cmplnt_num=" ++ complaintNumber)]
  else [("$where", "boro_nm=" ++ dquote ++ boroughName ++ dquote
                     ++ " AND addr_pct_cd=" ++ precinctCode)].

(** The body of the loop of [expand]. *)
Definition expand_row (seed : ISeedEntityRecord) (seedEntity : RecordRef)
    (datum : IComplaintDto) : M unit :=
  complaintEntity <-
    (if Seed_isType seed Complaint then ret seedEntity else addComplaint datum) ;;
  locationEntity <-
    (if Seed_isType seed Location then ret seedEntity else addLocation datum) ;;
  suspectEntity <- addSuspect datum ;;
  victimEntity <- addVictim datum ;;
  addLink Locatedat (cmplnt_num datum) complaintEntity locationEntity ;;;
  addLink Victimof (cmplnt_num datum) victimEntity complaintEntity ;;;
  addLink Suspectof (cmplnt_num datum) suspectEntity complaintEntity.

(** [seeds.entities[0]] and what follows; reading a property of the
    [undefined] first element of an empty list is a [TypeError]. *)
Definition expand (seeds : ISeeds) : outcome Result :=
  match seedEntities seeds with
  | seed :: _ =>
      let url := getUrl (("$limit", "50") :: expand_query seed) in
      match requestData url with
      | Returned data =>
          run (seedEntity <-
                 (if Seed_isType seed Complaint
                  then Result_addEntityFromSeed seed
                  else Result_addEntityFromSeed seed) ;;
               forEach data (expand_row seed seedEntity))
      | Thrown e => Thrown e
      end
  | [] => Thrown (TypeError "Cannot read properties of undefined")
  end.

(** The service the design note asks for, in the spec's words: "always
    wrap seed as entity"; everything else as in [expand]. *)
Definition expand_always_wrap (seeds : ISeeds) : outcome Result :=
  match seedEntities seeds with
  | seed :: _ =>
      let url := getUrl (("$limit", "50") :: expand_query seed) in
      match requestData url with
      | Returned data =>
          run (seedEntity <- Result_addEntityFromSeed seed ;;
               forEach data (expand_row seed seedEntity))
      | Thrown e => Thrown e
      end
  | [] => Thrown (TypeError "Cannot read properties of undefined")
  end.

Definition findComplaint (borough lawCategory : string) : outcome Result :=
  let url :=
    getUrl [ ("$limit", "50");
             ("$where", "boro_nm=" ++ dquote ++ borough ++ dquote
                          ++ " AND law_cat_cd=" ++ dquote ++ lawCategory ++ dquote) ] in
  match requestData url with
  | Returned data => run (forEach data (fun datum => addComplaint datum ;;; ret tt))
  | Thrown e => Thrown e
  end.

Definition findSimilarComplaint (seeds : ISeeds) : outcome Result :=
  match seedEntities seeds with
  | seed :: _ =>
      let levelOfOffence := orEmpty (seedString seed Complaint "Level Of Offence") in
      let url :=
        getUrl [ ("$limit", "50");
                 ("$where", "law_cat_cd=" ++ dquote ++ levelOfOffence ++ dquote) ] in
      match requestData url with
      | Returned data => run (forEach data (fun datum => addComplaint datum ;;; ret tt))
      | Thrown e => Thrown e
      end
  | [] => Thrown (TypeError "Cannot read properties of undefined")
  end.

(** The body of the loop of [expandWithConditions]. *)
Definition expandWithConditions_row (isPerson : bool) (seedEntity : RecordRef)
    (datum : IComplaintDto) : M unit :=
  (if isPerson then
     suspectEntity <- addSuspect datum ;;
     victimEntity <- addVictim datum ;;
     addLink Suspectof (cmplnt_num datum) suspectEntity seedEntity ;;;
     addLink Victimof (cmplnt_num datum) victimEntity seedEntity
   else ret tt) ;;;
  locationEntity <- addLocation datum ;;
  addLink Locatedat (cmplnt_num datum) seedEntity locationEntity.

Definition expandWithConditions (isPerson : bool) (seeds : ISeeds) : outcome Result :=
  match seedEntities seeds with
  | seed :: _ =>
      let complaintNumber := orEmpty (seedString seed Complaint "Complaint Number") in
      let url :=
        getUrl [ ("$limit", "50"); ("$where", "cmplnt_num=" ++ complaintNumber) ] in
      match requestData url with
      | Returned data =>
          run (seedEntity <- Result_addEntityFromSeed seed ;;
               forEach data (expandWithConditions_row isPerson seedEntity))
      | Thrown e => Thrown e
      end
  | [] => Thrown (TypeError "Cannot read properties of undefined")
  end.

End Services.

End NYPD.

(** ** The example connector *)

Module Example.

(** Modelled from the spec: [IPerson] of [./data-access], a record of the
    "in-memory mock dataset", with the fields the connector reads. *)
Record IPerson : Type := mkPerson {
  id : string;
  forename : string;
  surname : string;
  dob : string;
  ssn : string;
  issuedDateAndTime : string;
  friends : list string
}.

Definition customSourceIdentifierType : string :=
  "This value should be unique to your data source - do not reuse".

Definition createCustomSourceIdentifier (id : string) : ResultRecordIdType :=
  SourceId (mkSourceIdentifier customSourceIdentifierType [id]).

Definition exampleSourceRef : ISourceReference :=
  mkSourceReference
    "Example source name"
    "Example source type"
    "An example source reference from a connected data source".

Definition extractIdsFromConnectorKeys (connectorKeys : list IConnectorKey)
    : list string :=
  map ck_id connectorKeys.

Definition wildcardSearchTerm : string := "*".

Definition caseInsensitiveContains (source searchValue : string) : bool :=
  includes (toLowerCase source) (toLowerCase searchValue).

(** The default value of the [idFactory] parameter: [(id) => id]. *)
Definition withDefault (idFactory : option (string -> ResultRecordIdType))
    : string -> ResultRecordIdType :=
  match idFactory with
  | Some f => f
  | None => StringId
  end.

Section Connector.

(** [./schema/schema]: the item types of the example schema. *)
Variables Person Friendswith : ItemType.

(** The in-memory data set of [./data-access]. *)
Variable people : list IPerson.

(** [String.prototype.localeCompare] in the host's locale. *)
Variable localeCompare : string -> string -> Z.

(** [new Date(s).getFullYear()]: the parse of a date string and its year
    in the host's time zone; NaN for an invalid date. *)
Variable getFullYear : string -> JSNumber.

(** Modelled from the spec: [lookupPeople] of [./data-access], an
    "in-memory predicate-filtered lookup" that "returns a sequence of raw
    records", the data set being "read-only for lookups". *)
Definition lookupPeople (predicate : IPerson -> bool) : list IPerson :=
  filter predicate people.

(** [thisYear] is [new Date().getFullYear()], the calendar year on the
    host's clock; one call of a service is taken to read the same year
    each time it adds a person. *)
Definition addPersonToResult (thisYear : Z) (person : IPerson)
    (idFactory : option (string -> ResultRecordIdType)) : M RecordRef :=
  let id := withDefault idFactory (id person) in
  resultEntity <-
    match id with
    | StringId s => Result_addEntity Person s
    | SourceId i => Result_addEntityWithSourceIdentifier Person i
    end ;;
  Entity_setProperty resultEntity "First Name" (Some (PString (forename person))) ;;;
  Entity_setProperty resultEntity "Last Name" (Some (PString (surname person))) ;;;
  Entity_setProperty resultEntity "Year of Birth" (Some (PString (dob person))) ;;;
  Entity_setProperty resultEntity "Age"
    (Some (PNumber (sub (Num thisYear) (getFullYear (dob person))))) ;;;
  Entity_setProperty resultEntity "SSN" (Some (PString (ssn person))) ;;;
  Entity_setProperty resultEntity "SSN Issued Date and Time"
    (Some (PDateTime (issuedDateAndTime person) "Europe/London" false)) ;;;
  Entity_setSourceReference resultEntity exampleSourceRef ;;;
  ret resultEntity.

Definition findPeople_predicate (term : string) (person : IPerson) : bool :=
  String.eqb term wildcardSearchTerm
  || caseInsensitiveContains (forename person) term
  || caseInsensitiveContains (surname person) term.

Definition findPeople (thisYear : Z) (term : string)
    (idFactory : option (string -> ResultRecordIdType)) : outcome Result :=
  run (forEach (lookupPeople (findPeople_predicate term))
         (fun person => addPersonToResult thisYear person idFactory ;;; ret tt)).

(** The body of the innermost loop of [getFriendsLinkedToSeeds]. *)
Definition linkFriend (thisYear : Z)
    (idFactory : option (string -> ResultRecordIdType))
    (person friend : IPerson) : M unit :=
  personEntity <- addPersonToResult thisYear person idFactory ;;
  friendEntity <- addPersonToResult thisYear friend idFactory ;;
  let linkId := withDefault idFactory (friendLinkKey (id person) (id friend)) in
  match linkId with
  | StringId s => Result_addLink Friendswith s personEntity friendEntity
  | SourceId i =>
      Result_addLinkWithSourceIdentifier Friendswith i personEntity friendEntity
  end ;;;
  ret tt.

Definition getFriendsLinkedToSeeds (thisYear : Z) (seeds : ISeeds)
    (extractIdsFromSeed : ISeedEntityRecord -> list string)
    (idFactory : option (string -> ResultRecordIdType)) : outcome Result :=
  run (forEach (seedEntities seeds) (fun seed =>
         let people :=
           lookupPeople (fun person => Set_has (extractIdsFromSeed seed) (id person)) in
         forEach people (fun person =>
           let friendIds := friends person in
           let friends := lookupPeople (fun friend => Set_has friendIds (id friend)) in
           forEach friends (linkFriend thisYear idFactory person)))).

Definition exampleSearch (thisYear : Z) (term : string) : outcome Result :=
  findPeople thisYear term None.

Definition seededSearch1_predicate (seed : ISeedEntityRecord)
    (useYearOfBirth : option bool) (person : IPerson) : bool :=
  let forename' := orEmpty (seedString seed Person "First Name") in
  let surname' := orEmpty (seedString seed Person "Last Name") in
  let dob' := seedString seed Person "Year of Birth" in
  let connectorKeyIds :=
    extractIdsFromConnectorKeys (Seed_connectorKeysByType seed Person) in
  if Set_has connectorKeyIds (id person) then false
  else
    (localeCompare (forename person) forename' =? 0)
    || (localeCompare (surname person) surname' =? 0)
    || (match useYearOfBirth with Some b => b | None => false end
        && truthy dob'
        && String.eqb (substring0 4 (dob person)) (substring0 4 (orEmpty dob'))).

Definition exampleSeededSearch1 (thisYear : Z) (seeds : ISeeds)
    (useYearOfBirth : option bool) : outcome Result :=
  match seedEntities seeds with
  | seed :: _ =>
      run (forEach (lookupPeople (seededSearch1_predicate seed useYearOfBirth))
             (fun person => addPersonToResult thisYear person None ;;; ret tt))
  | [] => Thrown (TypeError "Cannot read properties of undefined")
  end.

Definition exampleSeededSearch2 (thisYear : Z) (seeds : ISeeds) : outcome Result :=
  getFriendsLinkedToSeeds thisYear seeds
    (fun seed => extractIdsFromConnectorKeys (Seed_connectorKeysByType seed Person))
    None.

Definition exampleSearchWithCustomSourceIdentifiers (thisYear : Z) (term : string)
    : outcome Result :=
  findPeople thisYear term (Some createCustomSourceIdentifier).

(** A source identifier with an empty key has [key[0]] undefined, which
    no person id equals: it contributes no id. *)
Definition exampleSeededSearch2WithCustomSourceIdentifiers
    (thisYear : Z) (seeds : ISeeds) : outcome Result :=
  getFriendsLinkedToSeeds thisYear seeds
    (fun seed =>
       flat_map (fun sourceIdentifier =>
                   match si_key sourceIdentifier with
                   | k :: _ => [k]
                   | [] => []
                   end)
         (filter (fun i => String.eqb (si_type i) customSourceIdentifierType)
                 (sourceIdentifiers seed)))
    (Some createCustomSourceIdentifier).

(** The extraction of ids that
    [exampleSeededSearch2WithCustomSourceIdentifiers] hands to the friend
    expansion: the first key of every source identifier of the custom
    type. *)
Definition customIdsOfSeed (seed : ISeedEntityRecord) : list string :=
  flat_map (fun sourceIdentifier =>
              match si_key sourceIdentifier with
              | k :: _ => [k]
              | [] => []
              end)
    (filter (fun i => String.eqb (si_type i) customSourceIdentifierType)
            (sourceIdentifiers seed)).



(** [./schema/schema]: the Tweet entity type of the example schema. *)
Variable Tweet : ItemType.

(** [getSearchResultsFromDataSource]: the simulated search of a data
    source, which finds two tweets. *)
Definition tweetText (dataSourceId searchTerm : string) (index : Z) : string :=
  "tweet " ++ numToStr (Num index) ++ " containing search term '" ++ searchTerm
    ++ "'from data source '" ++ dataSourceId ++ "'".

Definition getSearchResultsFromDataSource (dataSourceId searchTerm : string)
    : list string :=
  [tweetText dataSourceId searchTerm 1; tweetText dataSourceId searchTerm 2].

(** [dataSource || 'dataSource1']: the condition may be hidden from the
    user, and the empty string is falsy too. *)
Definition dataSourceOrDefault (dataSource : option string) : string :=
  if truthy dataSource then orEmpty dataSource else "dataSource1".

Definition searchSelectedDataSource (dataSource : option string)
    (searchTerm : string) : outcome Result :=
  let searchResults :=
    getSearchResultsFromDataSource (dataSourceOrDefault dataSource) searchTerm in
  run (forEach searchResults (fun searchResult =>
         resultEntity <- Result_addEntity Tweet "tweet-1" ;;
         Entity_setProperty resultEntity "Contents" (Some (PString searchResult)) ;;;
         Entity_setProperty resultEntity "User name" (Some (PString "user1")) ;;;
         Entity_setProperty resultEntity "Length"
           (Some (PNumber (Num (Z.of_nat (String.length searchResult))))))).

End Connector.

End Example.

(** ** Observations of a result and the specification language *)

Definition refs (r : Result) : list RecordRef := map e_ref (entities r).

Definition linkRefs (r : Result) : list RecordRef := map l_ref (links r).

Definition findEntity (k : RecordRef) (r : Result) : option EntityRecord :=
  find (fun e => sameRef k (e_ref e)) (entities r).

Definition findLink (k : RecordRef) (r : Result) : option LinkRecord :=
  find (fun l => sameRef k (l_ref l)) (links r).

(** The value of a property of an entity of the result, if it has one. *)
Definition propertyOf (r : Result) (k : RecordRef) (name : string)
    : option PropertyValue :=
  match findEntity k r with
  | Some e => getValue name (e_properties e)
  | None => None
  end.

(** The number of links registered under a reference. *)
Definition countLinks (k : RecordRef) (r : Result) : nat :=
  length (filter (fun l => sameRef k (l_ref l)) (links r)).

(** Total correctness: from [r] the computation returns, in a state and
    with a value that satisfy [Q]. *)
Definition runs {A : Type} (m : M A) (r : Result) (Q : A -> Result -> Prop) : Prop :=
  exists a r', m r = Returned (a, r') /\ Q a r'.

(** [r'] is [r] with the entity [k] edited in place. *)
Definition edits (k : RecordRef) (r r' : Result) : Prop :=
  links r' = links r
  /\ refs r' = refs r
  /\ (forall e, In e (entities r') -> e_ref e <> k -> In e (entities r)).

(** [r'] is [r] after the entity [k] has been added, if it was not there,
    edited, and given the source reference [s]. *)
Definition built (k : RecordRef) (s : ISourceReference) (r r' : Result) : Prop :=
  links r' = links r
  /\ refs r' = (refs r ++ (if hasEntity k r then [] else [k]))%list
  /\ (forall e, In e (entities r') -> e_ref e <> k -> In e (entities r))
  /\ (forall e, In e (entities r') -> e_ref e = k -> e_source e = Some s).

(** [r'] is [r] after the link [k] has been registered, if it was not. *)
Definition linked (k : RecordRef) (r r' : Result) : Prop :=
  entities r' = entities r
  /\ linkRefs r' = (linkRefs r ++ (if hasLink k r then [] else [k]))%list
  /\ (forall l, In l (links r') -> l_ref l <> k -> In l (links r)).

Definition entitiesSourced (r : Result) : Prop :=
  forall e, In e (entities r) -> exists s, e_source e = Some s.

Definition linksSourced (r : Result) : Prop :=
  forall l, In l (links r) -> exists s, l_source l = Some s.

(** [r'] is [r] after the entity [k] has been added, if it was not there,
    and edited. *)
Definition building (k : RecordRef) (r r' : Result) : Prop :=
  links r' = links r
  /\ refs r' = (refs r ++ (if hasEntity k r then [] else [k]))%list
  /\ (forall e, In e (entities r') -> e_ref e <> k -> In e (entities r)).

(** [r'] is [r] after the link [k] has been registered, if it was not,
    and given the source reference [s]. *)
Definition linkBuilt (k : RecordRef) (s : ISourceReference) (r r' : Result) : Prop :=
  linked k r r'
  /\ (forall l, In l (links r') -> l_ref l = k -> l_source l = Some s).

Definition locationRef (d : NYPD.IComplaintDto) : RecordRef :=
  OwnRef NYPD.Location
    (StringId ("Borough: " ++ toStr (NYPD.boro_nm d)
                 ++ " Precinct: " ++ toStr (NYPD.addr_pct_cd d))).

Definition complaintRef (d : NYPD.IComplaintDto) : RecordRef :=
  OwnRef NYPD.Complaint (StringId ("Complaint: " ++ NYPD.cmplnt_num d)).

Definition suspectRef (d : NYPD.IComplaintDto) : RecordRef :=
  OwnRef NYPD.Person (StringId ("Suspect: " ++ NYPD.cmplnt_num d)).

Definition victimRef (d : NYPD.IComplaintDto) : RecordRef :=
  OwnRef NYPD.Person (StringId ("Victim: " ++ NYPD.cmplnt_num d)).

Definition personRef (Person : ItemType) (idFactory : option (string -> ResultRecordIdType))
    (p : Example.IPerson) : RecordRef :=
  OwnRef Person (Example.withDefault idFactory (Example.id p)).

Definition friendLinkRef (Friendswith : ItemType) (idFactory : option (string -> ResultRecordIdType))
    (p q : Example.IPerson) : RecordRef :=
  OwnRef Friendswith
    (Example.withDefault idFactory (friendLinkKey (Example.id p) (Example.id q))).

(** What the loop of [getAll] keeps: references are not repeated and
    every record has a source reference. *)
Definition graphOK (r : Result) : Prop :=
  NoDup (refs r) /\ NoDup (linkRefs r) /\ entitiesSourced r /\ linksSourced r.

(** What the loops of the example connector keep. *)
Definition peopleOK (r : Result) : Prop :=
  NoDup (refs r) /\ NoDup (linkRefs r) /\ entitiesSourced r
  /\ (forall l, In l (links r) -> l_source l = None).

Definition assignAll (ps : list (string * option PropertyValue))
    (init : list (string * PropertyValue)) : list (string * PropertyValue) :=
  fold_left (fun acc p => assign (fst p) (snd p) acc) ps init.

Definition noAge (ps : list (string * PropertyValue)) : list (string * PropertyValue) :=
  filter (fun p => negb (String.eqb (fst p) "Age")) ps.

Definition eraseE (e : EntityRecord) : EntityRecord :=
  mkEntity (e_ref e) (noAge (e_properties e)) (e_source e).

(** The result without the 'Age' of its entities. *)
Definition eraseAge (r : Result) : Result :=
  mkResult (map eraseE (entities r)) (links r).

Definition agree {A : Type} (o1 o2 : outcome (A * Result)) : Prop :=
  match o1, o2 with
  | Returned (a1, r1), Returned (a2, r2) => a1 = a2 /\ eraseAge r1 = eraseAge r2
  | Thrown e1, Thrown e2 => e1 = e2
  | _, _ => False
  end.

(** Two computations that, from results equal up to 'Age', end alike. *)
Definition sim {A : Type} (m1 m2 : M A) : Prop :=
  forall r1 r2, eraseAge r1 = eraseAge r2 -> agree (m1 r1) (m2 r2).

(** Two results are alike but for 'Age': the same entities in the same
    order, the same links, and the same value for every other property. *)
Definition alikeButAge (r1 r2 : Result) : Prop :=
  refs r1 = refs r2
  /\ links r1 = links r2
  /\ forall k name, name <> "Age" -> propertyOf r1 k name = propertyOf r2 k name.

(** *** Vocabulary of the further properties *)

Definition nothing : RecordRef -> Prop := fun _ => False.

(** From [r] to [r'] the result has gained exactly the entities [E] and
    the links [L], as far as membership goes. *)
Definition grows (E L : RecordRef -> Prop) (r r' : Result) : Prop :=
  (forall k, hasEntity k r' = true <-> hasEntity k r = true \/ E k)
  /\ (forall k, hasLink k r' = true <-> hasLink k r = true \/ L k).

(** The links of a result as triples: reference, from end, to end. *)
Definition linkEnds (r : Result) : list (RecordRef * RecordRef * RecordRef) :=
  map (fun l => (l_ref l, l_from l, l_to l)) (links r).

Definition propsBefore (k : RecordRef) (r : Result) : list (string * PropertyValue) :=
  match findEntity k r with
  | Some e => e_properties e
  | None => []
  end.

Definition sourceBefore (k : RecordRef) (r : Result) : option ISourceReference :=
  match findEntity k r with
  | Some e => e_source e
  | None => None
  end.

(** In [r] the entity [k] has the properties [props] and the source
    [src]; every other entity is found as in [r0], and the links are
    those of [r0]. *)
Definition focused (k : RecordRef) (props : list (string * PropertyValue))
    (src : option ISourceReference) (r0 r : Result) : Prop :=
  findEntity k r = Some (mkEntity k props src)
  /\ (forall k', k' <> k -> findEntity k' r = findEntity k' r0)
  /\ links r = links r0.

(** From [r] to [r'] the result has gained the entities [E] and the links
    [L]; every new link is one of the triples [T]; at most [ne] entities
    and [nl] links have been added. *)
Definition effect (E L : RecordRef -> Prop)
    (T : RecordRef * RecordRef * RecordRef -> Prop) (ne nl : nat)
    (r r' : Result) : Prop :=
  grows E L r r'
  /\ (forall t, In t (linkEnds r') -> In t (linkEnds r) \/ T t)
  /\ (length (entities r') <= length (entities r) + ne)%nat
  /\ (length (links r') <= length (links r) + nl)%nat.

Definition noEnds : RecordRef * RecordRef * RecordRef -> Prop := fun _ => False.

(** The records that the rows of the complaint data set stand for. *)
Definition linkRefOf (t : ItemType) (d : NYPD.IComplaintDto) : RecordRef :=
  OwnRef t (StringId (NYPD.cmplnt_num d)).

Definition rowEntities (d : NYPD.IComplaintDto) (k : RecordRef) : Prop :=
  k = locationRef d \/ k = complaintRef d \/ k = suspectRef d \/ k = victimRef d.

Definition rowLinks (d : NYPD.IComplaintDto) (k : RecordRef) : Prop :=
  k = linkRefOf NYPD.Locatedat d \/ k = linkRefOf NYPD.Victimof d
  \/ k = linkRefOf NYPD.Suspectof d.

(** The links of a row between the given complaint and location. *)
Definition endsAround (complaint location : RecordRef) (d : NYPD.IComplaintDto)
    (t : RecordRef * RecordRef * RecordRef) : Prop :=
  t = (linkRefOf NYPD.Locatedat d, complaint, location)
  \/ t = (linkRefOf NYPD.Victimof d, victimRef d, complaint)
  \/ t = (linkRefOf NYPD.Suspectof d, suspectRef d, complaint).

Definition rowEnds (d : NYPD.IComplaintDto) : RecordRef * RecordRef * RecordRef -> Prop :=
  endsAround (complaintRef d) (locationRef d) d.

(** The query of [findComplaint]. *)
Definition findComplaint_params (borough lawCategory : string) : list (string * string) :=
  [ ("$limit", "50");
    ("$where", "boro_nm=" ++ NYPD.dquote ++ borough ++ NYPD.dquote
                 ++ " AND law_cat_cd=" ++ NYPD.dquote ++ lawCategory ++ NYPD.dquote) ].

(** The query of [findSimilarComplaint]. *)
Definition findSimilarComplaint_params (seed : ISeedEntityRecord) : list (string * string) :=
  [ ("$limit", "50");
    ("$where", "law_cat_cd=" ++ NYPD.dquote
                 ++ orEmpty (seedString seed NYPD.Complaint "Level Of Offence")
                 ++ NYPD.dquote) ].

(** The query of [expandWithConditions]. *)
Definition expandWithConditions_params (seed : ISeedEntityRecord) : list (string * string) :=
  [ ("$limit", "50");
    ("$where", "cmplnt_num="
                 ++ orEmpty (seedString seed NYPD.Complaint "Complaint Number")) ].

(** What a row adds around a complaint seed, around a location seed, and
    in [expandWithConditions]. *)
Definition personsAndLocation (d : NYPD.IComplaintDto) (k : RecordRef) : Prop :=
  k = locationRef d \/ k = suspectRef d \/ k = victimRef d.

Definition personsAndComplaint (d : NYPD.IComplaintDto) (k : RecordRef) : Prop :=
  k = complaintRef d \/ k = suspectRef d \/ k = victimRef d.




Definition complaintSeed : ISeedEntityRecord :=
  mkSeed "seed-c" NYPD.Complaint [("Complaint Number", PString "100")] [] [].

Definition locationSeed : ISeedEntityRecord :=
  mkSeed "seed-l" NYPD.Location
    [("Borough Name", PString "BROOKLYN"); ("Precinct Code", PNumber (Num 1))] [] [].

(** [q] is a friend, in the data set, of a person [p] of the data set
    that a seed resolves to. *)
Definition befriended (people : list Example.IPerson)
    (extract : ISeedEntityRecord -> list string) (seeds : ISeeds)
    (p q : Example.IPerson) : Prop :=
  exists seed,
    In seed (seedEntities seeds)
    /\ In p people /\ In (Example.id p) (extract seed)
    /\ In q people /\ In (Example.id q) (Example.friends p).


(** The object literals that the NYPD helpers hand to [setProperties]. *)
Definition locationProps (d : NYPD.IComplaintDto) : list (string * option PropertyValue) :=
  [ ("Precinct Code", Some (PNumber (parseInt (NYPD.addr_pct_cd d))));
    ("Borough Name", NYPD.pstring (NYPD.boro_nm d));
    ("Coordinates",
      Some (PPoint (parseInt (NYPD.latitude d)) (parseInt (NYPD.longitude d)))) ].

Definition complaintProps (d : NYPD.IComplaintDto) : list (string * option PropertyValue) :=
  [ ("Complaint Number", Some (PString (NYPD.cmplnt_num d)));
    ("Crime Status", NYPD.pstring (NYPD.crm_atpt_cptd_cd d));
    ("Jurisdiction Code", Some (PNumber (parseInt (NYPD.jurisdiction_code d))));
    ("Offence Classification Code", Some (PNumber (parseInt (NYPD.ky_cd d))));
    ("Level Of Offence", NYPD.pstring (NYPD.law_cat_cd d));
    ("Offence Description", NYPD.pstring (NYPD.ofns_desc d)) ].

Definition suspectProps (d : NYPD.IComplaintDto) : list (string * option PropertyValue) :=
  [ ("Age Group", NYPD.pstring (NYPD.susp_age_group d));
    ("Race", NYPD.pstring (NYPD.susp_race d));
    ("Sex", NYPD.pstring (NYPD.susp_sex d)) ].

Definition victimProps (d : NYPD.IComplaintDto) : list (string * option PropertyValue) :=
  [ ("Age Group", NYPD.pstring (NYPD.vic_age_group d));
    ("Race", NYPD.pstring (NYPD.vic_race d));
    ("Sex", NYPD.pstring (NYPD.vic_sex d)) ].

Definition personPropertyNames : list string :=
  [ "First Name"; "Last Name"; "Year of Birth"; "Age"; "SSN";
    "SSN Issued Date and Time" ].

(** The assignments that [addPersonToResult] makes, in their order. *)
Definition personProps (getFullYear : string -> JSNumber) (thisYear : Z)
    (p : Example.IPerson) : list (string * option PropertyValue) :=
  [ ("First Name", Some (PString (Example.forename p)));
    ("Last Name", Some (PString (Example.surname p)));
    ("Year of Birth", Some (PString (Example.dob p)));
    ("Age", Some (PNumber (sub (Num thisYear) (getFullYear (Example.dob p)))));
    ("SSN", Some (PString (Example.ssn p)));
    ("SSN Issued Date and Time",
      Some (PDateTime (Example.issuedDateAndTime p) "Europe/London" false)) ].

(** The properties [props] hold every value that [ps] assigns. *)
Definition settledProps (ps : list (string * option PropertyValue))
    (props : list (string * PropertyValue)) : Prop :=
  forall n v, In (n, Some v) ps -> getValue n props = Some v.

(** The entity [k] is in the result with the values of [ps] and the
    source reference [s]. *)
Definition settledEntity (k : RecordRef) (ps : list (string * option PropertyValue))
    (s : ISourceReference) (r : Result) : Prop :=
  hasEntity k r = true
  /\ forall e, In e (entities r) -> e_ref e = k ->
       settledProps ps (e_properties e) /\ e_source e = Some s.

Definition settledLink (k : RecordRef) (s : ISourceReference) (r : Result) : Prop :=
  hasLink k r = true
  /\ forall l, In l (links r) -> l_ref l = k -> l_source l = Some s.

(** The result holds everything that the row [d] gives it. *)
Definition rowSettled (d : NYPD.IComplaintDto) (r : Result) : Prop :=
  settledEntity (locationRef d) (locationProps d) NYPD.exampleSourceRef r
  /\ settledEntity (complaintRef d) (complaintProps d) NYPD.exampleSourceRef r
  /\ settledEntity (suspectRef d) (suspectProps d) NYPD.exampleSourceRef r
  /\ settledEntity (victimRef d) (victimProps d) NYPD.exampleSourceRef r
  /\ settledLink (linkRefOf NYPD.Locatedat d) NYPD.exampleSourceRef r
  /\ settledLink (linkRefOf NYPD.Victimof d) NYPD.exampleSourceRef r
  /\ settledLink (linkRefOf NYPD.Suspectof d) NYPD.exampleSourceRef r.

(** Every entity of [r] other than [k], and every link of [r], has a
    source reference. *)
Definition sourcedBut (k : RecordRef) (r : Result) : Prop :=
  (forall e, In e (entities r) -> e_ref e <> k -> exists s, e_source e = Some s)
  /\ linksSourced r.

(** The entities [ks] are in the result. *)
Definition allPresent (ks : list RecordRef) (r : Result) : Prop :=
  Forall (fun k => hasEntity k r = true) ks.

(** A link joins [a] and [b], in either direction. *)
Definition joins (a b : RecordRef) (l : LinkRecord) : bool :=
  (sameRef a (l_from l) && sameRef b (l_to l))
  || (sameRef b (l_from l) && sameRef a (l_to l)).

(** The links of the result between two records. *)
Definition linksBetween (a b : RecordRef) (r : Result) : list LinkRecord :=
  filter (joins a b) (links r).

(** ** Sample data for the services *)

(** A serialisation of a URL that leaves the parameters readable. *)
Definition hrefPlain (base : string) (params : list (string * string)) : string :=
  base ++ "?" ++ String.concat "&" (map (fun p => fst p ++ "=" ++ snd p) params).

Definition notFound : NYPD.Response :=
  NYPD.mkResponse 404 "Not Found" (Thrown (Error "Unexpected token")).

Definition row100 : NYPD.IComplaintDto :=
  NYPD.mkComplaintDto "100" (Some "COMPLETED") (Some "0") (Some "341")
    (Some "MISDEMEANOR") (Some "PETIT LARCENY") (Some "1") (Some "BROOKLYN")
    None None (Some "25-44") None (Some "F") None None None.

Definition oneRow : NYPD.Response :=
  NYPD.mkResponse 200 "OK" (Returned [row100]).

Definition rowBadPrecinct : NYPD.IComplaintDto :=
  NYPD.mkComplaintDto "7" None (Some "n/a") None None None (Some "abc")
    (Some "QUEENS") None None None None None None None None.

(** A small data set and two seeds that stand for the same person. *)
Definition PersonType : ItemType := mkItemType "ET5" false.
Definition FriendswithType : ItemType := mkItemType "LT1" true.

Definition ann : Example.IPerson :=
  Example.mkPerson "p1" "Ann" "Lee" "1990-04-01" "078-05-1120"
    "2008-04-01T09:00:00" ["p2"].

Definition bob : Example.IPerson :=
  Example.mkPerson "p2" "Bob" "Ray" "1985-11-23" "219-09-9999"
    "2003-11-23T09:00:00" ["p1"].

Definition twoPeople : list Example.IPerson := [ann; bob].

Definition yearOfDate (s : string) : JSNumber := parseInt10 (substring0 4 s).

Definition seedP1 (sid : string) : ISeedEntityRecord :=
  mkSeed sid PersonType [("First Name", PString "Ann")]
    [mkConnectorKey PersonType "p1"] [].

Definition twoSeeds : ISeeds := mkSeeds [seedP1 "seed-a"; seedP1 "seed-b"].

Definition keysOf (Person : ItemType) (seed : ISeedEntityRecord) : list string :=
  Example.extractIdsFromConnectorKeys (Seed_connectorKeysByType seed Person).

Definition annAndFriend : ISeeds := mkSeeds [seedP1 "seed-a"].

Definition customSeedP1 : ISeedEntityRecord :=
  mkSeed "seed-x" PersonType [] []
    [ mkSourceIdentifier "another source" ["p2"];
      mkSourceIdentifier Example.customSourceIdentifierType ["p1"] ].

(** ** Generic facts *)

(** The run-time functions on small inputs. *)
Example friendLinkKey_examples :
  friendLinkKey "p1" "p2" = "p1-p2" /\ friendLinkKey "p2" "p1" = "p1-p2"
  /\ friendLinkKey "b" "B" = "B-b" /\ friendLinkKey "p10" "p2" = "p10-p2".
Proof. repeat split; reflexivity. Qed.

Example parseInt_examples :
  parseInt (Some "  -42abc") = Num (-42) /\ parseInt (Some "abc") = NaN
  /\ parseInt None = NaN /\ parseInt (Some EmptyString) = NaN
  /\ parseInt (Some "007") = Num 7 /\ parseInt (Some "40.7") = Num 40
  /\ numToStr (Num (-12)) = "-12" /\ numToStr (Num 0) = "0".
Proof. repeat split; reflexivity. Qed.

Example toLowerCase_examples :
  toLowerCase "McAdam" = "mcadam" /\ includes "mcadam" "ada" = true
  /\ includes "mcadam" EmptyString = true /\ includes "mcadam" "dd" = false
  /\ Example.caseInsensitiveContains "McAdam" "CAD" = true.
Proof. repeat split; reflexivity. Qed.

Example getUrl_example :
  NYPD.getUrl hrefPlain [("$limit", "100")]
  = "https://data.cityofnewyork.us/resource/7x9x-zpz6.json?$limit=100".
Proof. reflexivity. Qed.

Lemma sameRef_true (a b : RecordRef) : sameRef a b = true <-> a = b.
Proof.
  unfold sameRef. destruct (RecordRef_eq_dec a b); split; congruence.
Qed.

Lemma sameRef_false (a b : RecordRef) : sameRef a b = false <-> a <> b.
Proof.
  unfold sameRef. destruct (RecordRef_eq_dec a b); split; congruence.
Qed.

Lemma sameRef_refl (a : RecordRef) : sameRef a a = true.
Proof. now apply sameRef_true. Qed.

Lemma hasEntity_In (k : RecordRef) (r : Result) :
  hasEntity k r = true <-> In k (refs r).
Proof.
  unfold hasEntity, refs. rewrite existsb_exists, in_map_iff. split.
  - intros (e & He & Hk). apply sameRef_true in Hk. eauto.
  - intros (e & Hk & He). exists e. split; [exact He|]. now apply sameRef_true.
Qed.

Lemma hasLink_In (k : RecordRef) (r : Result) :
  hasLink k r = true <-> In k (linkRefs r).
Proof.
  unfold hasLink, linkRefs. rewrite existsb_exists, in_map_iff. split.
  - intros (l & Hl & Hk). apply sameRef_true in Hk. eauto.
  - intros (l & Hk & Hl). exists l. split; [exact Hl|]. now apply sameRef_true.
Qed.

Lemma hasEntity_false (k : RecordRef) (r : Result) :
  hasEntity k r = false <-> ~ In k (refs r).
Proof.
  rewrite <- hasEntity_In. destruct (hasEntity k r); split; congruence.
Qed.

Lemma hasLink_false (k : RecordRef) (r : Result) :
  hasLink k r = false <-> ~ In k (linkRefs r).
Proof.
  rewrite <- hasLink_In. destruct (hasLink k r); split; congruence.
Qed.

Section Runs.

Context {A B : Type}.

Lemma runs_ret (a : A) (r : Result) (Q : A -> Result -> Prop) :
  Q a r -> runs (ret a) r Q.
Proof. intros H. exists a, r. split; [reflexivity | exact H]. Qed.

Lemma runs_bind (m : M A) (k : A -> M B) (r : Result)
    (P : A -> Result -> Prop) (Q : B -> Result -> Prop) :
  runs m r P ->
  (forall a r', P a r' -> runs (k a) r' Q) ->
  runs (bind m k) r Q.
Proof.
  intros (a & r' & Hm & HP) Hk.
  destruct (Hk a r' HP) as (b & r'' & Hk' & HQ).
  exists b, r''. split; [|exact HQ].
  unfold bind. now rewrite Hm.
Qed.

Lemma runs_weaken (m : M A) (r : Result) (P Q : A -> Result -> Prop) :
  runs m r P -> (forall a r', P a r' -> Q a r') -> runs m r Q.
Proof.
  intros (a & r' & Hm & HP) H. exists a, r'. split; [exact Hm | now apply H].
Qed.

End Runs.

(** A loop keeps what each round keeps. *)
Lemma runs_forEach {A : Type} (xs : list A) (body : A -> M unit)
    (I : Result -> Prop) :
  (forall x r, In x xs -> I r -> runs (body x) r (fun _ r' => I r')) ->
  forall r, I r -> runs (forEach xs body) r (fun _ r' => I r').
Proof.
  induction xs as [|x xs IH]; intros Hbody r HI; simpl.
  - now apply runs_ret.
  - eapply runs_bind.
    + apply Hbody; [now left | exact HI].
    + intros u r' HI'. apply IH; [|exact HI'].
      intros y r0 Hy. apply Hbody. now right.
Qed.

(** A loop reaches what one of its rounds establishes and the other
    rounds keep. *)
Lemma runs_forEach_reach {A : Type} (xs : list A) (body : A -> M unit)
    (I S : Result -> Prop) (x0 : A) :
  In x0 xs ->
  (forall x r, In x xs -> I r ->
     runs (body x) r (fun _ r' => I r' /\ (S r -> S r'))) ->
  (forall r, I r -> runs (body x0) r (fun _ r' => I r' /\ S r')) ->
  forall r, I r -> runs (forEach xs body) r (fun _ r' => I r' /\ S r').
Proof.
  intros Hin Hkeep Hreach.
  assert (Hboth : forall ys, incl ys xs -> forall r, I r /\ S r ->
            runs (forEach ys body) r (fun _ r' => I r' /\ S r')).
  { intros ys Hys. apply runs_forEach. intros x r Hx [HI HS].
    eapply runs_weaken; [apply Hkeep; [now apply Hys | exact HI]|].
    cbv beta. intros u r' [HI' HS']. split; [exact HI' | now apply HS']. }
  revert Hin Hkeep Hboth.
  induction xs as [|x xs IH]; intros Hin Hkeep Hboth r HI; [contradiction|].
  simpl. destruct Hin as [->|Hin].
  - eapply runs_bind; [now apply Hreach|].
    intros u r' H'. apply Hboth; [|exact H']. now apply incl_tl, incl_refl.
  - eapply runs_bind; [apply Hkeep; [now left | exact HI]|].
    cbv beta. intros u r' [HI' _]. apply IH; try assumption.
    + intros y r0 Hy. apply Hkeep. now right.
    + intros ys Hys. apply Hboth. now apply incl_tl.
Qed.

Lemma run_runs (m : M unit) (Q : Result -> Prop) :
  runs m Result_new (fun _ r => Q r) -> exists r, run m = Returned r /\ Q r.
Proof.
  intros ([] & r & Hm & HQ). exists r. split; [|exact HQ].
  unfold run. now rewrite Hm.
Qed.

(** ** The builder's operations *)

Lemma edits_refl (k : RecordRef) (r : Result) : edits k r r.
Proof. repeat split; auto. Qed.

Lemma building_edits (k : RecordRef) (r r1 r2 : Result) :
  building k r r1 -> edits k r1 r2 -> building k r r2.
Proof.
  intros (Hl & Hr & He) (Hl' & Hr' & He'). repeat split.
  - congruence.
  - congruence.
  - intros e H Hk. apply He; [|exact Hk]. now apply He'.
Qed.

Lemma addEntityRef_runs (k : RecordRef) (r : Result) :
  runs (addEntityRef k) r (fun a r' => a = k /\ building k r r').
Proof.
  eexists; eexists. split; [reflexivity|]. split; [reflexivity|].
  unfold building, refs. destruct (hasEntity k r) eqn:Hk; simpl.
  - rewrite app_nil_r. repeat split; auto.
  - rewrite map_app. simpl. repeat split; auto.
    intros e He Hne. apply in_app_or in He. destruct He as [He|[<-|[]]]; auto.
    now elim Hne.
Qed.

Lemma updateEntity_runs (k : RecordRef) (f : EntityRecord -> EntityRecord)
    (r : Result) :
  (forall e, e_ref (f e) = e_ref e) ->
  runs (updateEntity k f) r
    (fun _ r' => edits k r r'
       /\ forall e', In e' (entities r') -> e_ref e' = k ->
            exists e, In e (entities r) /\ e_ref e = k /\ e' = f e).
Proof.
  intros Hf. eexists; eexists. split; [reflexivity|]. simpl.
  split; [repeat split|].
  - unfold refs. simpl. rewrite map_map. apply map_ext.
    intros e. destruct (sameRef k (e_ref e)); auto.
  - intros e' He' Hne. apply in_map_iff in He'. destruct He' as (e & <- & He).
    destruct (sameRef k (e_ref e)) eqn:Hk; [|exact He].
    apply sameRef_true in Hk. rewrite Hf in Hne. congruence.
  - intros e' He' Hk. apply in_map_iff in He'. destruct He' as (e & <- & He).
    destruct (sameRef k (e_ref e)) eqn:Hs.
    + apply sameRef_true in Hs. eauto.
    + apply sameRef_false in Hs. congruence.
Qed.

Lemma Entity_setProperty_runs (k : RecordRef) (name : string)
    (v : option PropertyValue) (r : Result) :
  runs (Entity_setProperty k name v) r (fun _ r' => edits k r r').
Proof.
  eapply runs_weaken; [apply updateEntity_runs; reflexivity|].
  cbv beta. intros u r' [H _]. exact H.
Qed.

Lemma edits_trans (k : RecordRef) (r1 r2 r3 : Result) :
  edits k r1 r2 -> edits k r2 r3 -> edits k r1 r3.
Proof.
  intros (Hl & Hr & He) (Hl' & Hr' & He'). repeat split.
  - congruence.
  - congruence.
  - intros e H Hk. apply He; [|exact Hk]. now apply He'.
Qed.

Lemma Entity_setProperties_runs (k : RecordRef)
    (ps : list (string * option PropertyValue)) (r : Result) :
  runs (Entity_setProperties k ps) r (fun _ r' => edits k r r').
Proof.
  revert r. induction ps as [|[name v] ps IH]; intros r; simpl.
  - apply runs_ret, edits_refl.
  - eapply runs_bind; [apply Entity_setProperty_runs|].
    cbv beta. intros u r1 H1.
    eapply runs_weaken; [apply IH|].
    cbv beta. intros u' r2 H2. now apply edits_trans with r1.
Qed.

Lemma Entity_setSourceReference_runs (k : RecordRef) (s : ISourceReference)
    (r : Result) :
  runs (Entity_setSourceReference k s) r
    (fun _ r' => edits k r r'
       /\ forall e, In e (entities r') -> e_ref e = k -> e_source e = Some s).
Proof.
  eapply runs_weaken; [apply updateEntity_runs; reflexivity|].
  cbv beta. intros u r' [H1 H2]. split; [exact H1|].
  intros e He Hk. destruct (H2 e He Hk) as (e0 & _ & _ & ->). reflexivity.
Qed.

(** The rules by which the entity helpers of both connectors are read:
    add or find the entity, assign properties, set the source reference. *)
Section EntitySteps.

Context {X : Type} (k : RecordRef) (r : Result) (Q : X -> Result -> Prop).

Lemma addEntity_step (rest : RecordRef -> M X) :
  (forall r1, building k r r1 -> runs (rest k) r1 Q) ->
  runs (bind (addEntityRef k) rest) r Q.
Proof.
  intros H. eapply runs_bind; [apply addEntityRef_runs|].
  cbv beta. intros a r1 [-> Hb]. now apply H.
Qed.

Lemma setProperty_step (name : string) (v : option PropertyValue)
    (rest : M X) (r1 : Result) :
  building k r r1 ->
  (forall r2, building k r r2 -> runs rest r2 Q) ->
  runs (Entity_setProperty k name v ;;; rest) r1 Q.
Proof.
  intros Hb H. eapply runs_bind; [apply Entity_setProperty_runs|].
  cbv beta. intros u r2 He. apply H. now apply building_edits with r1.
Qed.

Lemma setProperties_step (ps : list (string * option PropertyValue))
    (rest : M X) (r1 : Result) :
  building k r r1 ->
  (forall r2, building k r r2 -> runs rest r2 Q) ->
  runs (Entity_setProperties k ps ;;; rest) r1 Q.
Proof.
  intros Hb H. eapply runs_bind; [apply Entity_setProperties_runs|].
  cbv beta. intros u r2 He. apply H. now apply building_edits with r1.
Qed.

Lemma setSourceReference_step (s : ISourceReference) (rest : M X) (r1 : Result) :
  building k r r1 ->
  (forall r2, built k s r r2 -> runs rest r2 Q) ->
  runs (Entity_setSourceReference k s ;;; rest) r1 Q.
Proof.
  intros Hb H. eapply runs_bind; [apply Entity_setSourceReference_runs|].
  cbv beta. intros u r2 [He Hs]. apply H.
  destruct (building_edits _ _ _ _ Hb He) as (Hl & Hr & Ho).
  repeat split; assumption.
Qed.

End EntitySteps.

(** What an entity helper keeps and establishes. *)
Section Built.

Variables (k : RecordRef) (s : ISourceReference) (r r' : Result).
Hypothesis H : built k s r r'.

Lemma built_links : links r' = links r.
Proof. apply H. Qed.

Lemma built_hasEntity : hasEntity k r' = true.
Proof.
  destruct H as (_ & Hr & _). apply hasEntity_In. rewrite Hr.
  apply in_or_app. destruct (hasEntity k r) eqn:Hk.
  - left. now apply hasEntity_In.
  - right. now left.
Qed.

Lemma built_mono (k0 : RecordRef) : hasEntity k0 r = true -> hasEntity k0 r' = true.
Proof.
  destruct H as (_ & Hr & _). rewrite !hasEntity_In, Hr. intros H0.
  apply in_or_app. now left.
Qed.

Lemma built_refs (k0 : RecordRef) : In k0 (refs r') -> In k0 (refs r) \/ k0 = k.
Proof.
  destruct H as (_ & Hr & _). rewrite Hr. intros H0.
  apply in_app_or in H0. destruct H0 as [H0|H0]; [now left|].
  destruct (hasEntity k r); [contradiction|]. destruct H0 as [<-|[]]. now right.
Qed.

Lemma built_NoDup : NoDup (refs r) -> NoDup (refs r').
Proof.
  destruct H as (_ & Hr & _). rewrite Hr. intros Hn.
  destruct (hasEntity k r) eqn:Hk.
  - now rewrite app_nil_r.
  - apply hasEntity_false in Hk.
    apply NoDup_app; [exact Hn | repeat constructor; intros [] | ].
    intros x Hx [<-|[]]. contradiction.
Qed.

Lemma built_sourced : entitiesSourced r -> entitiesSourced r'.
Proof.
  destruct H as (_ & _ & Ho & Hs). intros Hr e He.
  destruct (RecordRef_eq_dec (e_ref e) k) as [Hk|Hk].
  - exists s. now apply Hs.
  - apply Hr. now apply Ho.
Qed.

Lemma built_linkRefs : linkRefs r' = linkRefs r.
Proof. unfold linkRefs. now rewrite built_links. Qed.

Lemma built_hasLink (k0 : RecordRef) : hasLink k0 r' = hasLink k0 r.
Proof. unfold hasLink. now rewrite built_links. Qed.

End Built.

Lemma built_findEntity (k : RecordRef) (s : ISourceReference) (r r' : Result) :
  built k s r r' -> exists e, findEntity k r' = Some e /\ e_source e = Some s.
Proof.
  intros H. pose proof (built_hasEntity _ _ _ _ H) as Hk.
  destruct H as (_ & _ & _ & Hs). unfold findEntity.
  destruct (find _ (entities r')) as [e|] eqn:Hf.
  - apply find_some in Hf. destruct Hf as [He Hr]. apply sameRef_true in Hr.
    exists e. split; [reflexivity|]. now apply Hs.
  - unfold hasEntity in Hk. apply existsb_exists in Hk. destruct Hk as (e & He & Hr).
    now rewrite (find_none _ _ Hf e He) in Hr.
Qed.

Lemma addLinkRef_runs (k from to : RecordRef) (r : Result) :
  hasEntity from r = true ->
  hasEntity to r = true ->
  runs (addLinkRef k from to) r (fun a r' => a = k /\ linked k r r').
Proof.
  intros Hf Ht. unfold runs, addLinkRef. rewrite Hf, Ht. simpl.
  eexists; eexists. split; [reflexivity|]. split; [reflexivity|].
  unfold linked, linkRefs. destruct (hasLink k r) eqn:Hk; simpl.
  - rewrite app_nil_r. repeat split; auto.
  - rewrite map_app. simpl. repeat split; auto.
    intros l Hl Hne. apply in_app_or in Hl. destruct Hl as [Hl|[<-|[]]]; auto.
    now elim Hne.
Qed.

Lemma Link_setSourceReference_runs (k : RecordRef) (s : ISourceReference)
    (r : Result) :
  runs (Link_setSourceReference k s) r
    (fun _ r' => entities r' = entities r
       /\ linkRefs r' = linkRefs r
       /\ (forall l, In l (links r') -> l_ref l <> k -> In l (links r))
       /\ (forall l, In l (links r') -> l_ref l = k -> l_source l = Some s)).
Proof.
  eexists; eexists. split; [reflexivity|]. simpl. repeat split.
  - unfold linkRefs. simpl. rewrite map_map. apply map_ext.
    intros l. destruct (sameRef k (l_ref l)); auto.
  - intros l' Hl' Hne. apply in_map_iff in Hl'. destruct Hl' as (l & <- & Hl).
    destruct (sameRef k (l_ref l)) eqn:Hk; [|exact Hl].
    apply sameRef_true in Hk. simpl in Hne. congruence.
  - intros l' Hl' Hk. apply in_map_iff in Hl'. destruct Hl' as (l & <- & Hl).
    destruct (sameRef k (l_ref l)) eqn:Hs; [reflexivity|].
    apply sameRef_false in Hs. congruence.
Qed.

(** What registering a link keeps and establishes. *)
Section Linked.

Variables (k : RecordRef) (r r' : Result).
Hypothesis H : linked k r r'.

Lemma linked_entities : entities r' = entities r.
Proof. apply H. Qed.

Lemma linked_refs : refs r' = refs r.
Proof. unfold refs. now rewrite linked_entities. Qed.

Lemma linked_hasEntity (k0 : RecordRef) : hasEntity k0 r' = hasEntity k0 r.
Proof. unfold hasEntity. now rewrite linked_entities. Qed.

Lemma linked_hasLink : hasLink k r' = true.
Proof.
  destruct H as (_ & Hr & _). apply hasLink_In. rewrite Hr.
  apply in_or_app. destruct (hasLink k r) eqn:Hk.
  - left. now apply hasLink_In.
  - right. now left.
Qed.

Lemma linked_mono (k0 : RecordRef) : hasLink k0 r = true -> hasLink k0 r' = true.
Proof.
  destruct H as (_ & Hr & _). rewrite !hasLink_In, Hr. intros H0.
  apply in_or_app. now left.
Qed.

Lemma linked_NoDup : NoDup (linkRefs r) -> NoDup (linkRefs r').
Proof.
  destruct H as (_ & Hr & _). rewrite Hr. intros Hn.
  destruct (hasLink k r) eqn:Hk.
  - now rewrite app_nil_r.
  - apply hasLink_false in Hk.
    apply NoDup_app; [exact Hn | repeat constructor; intros [] | ].
    intros x Hx [<-|[]]. contradiction.
Qed.

Lemma linked_entitiesSourced : entitiesSourced r -> entitiesSourced r'.
Proof. unfold entitiesSourced. now rewrite linked_entities. Qed.

End Linked.

Lemma linkBuilt_sourced (k : RecordRef) (s : ISourceReference) (r r' : Result) :
  linkBuilt k s r r' -> linksSourced r -> linksSourced r'.
Proof.
  intros ((_ & _ & Ho) & Hs) Hr l Hl.
  destruct (RecordRef_eq_dec (l_ref l) k) as [Hk|Hk].
  - exists s. now apply Hs.
  - apply Hr. now apply Ho.
Qed.

(** A reference that is registered once is counted once. *)
Lemma countLinks_one (k : RecordRef) (r : Result) :
  NoDup (linkRefs r) -> hasLink k r = true -> countLinks k r = 1%nat.
Proof.
  unfold countLinks, linkRefs, hasLink. induction (links r) as [|l ls IH]; simpl.
  - discriminate.
  - intros Hn Hk. inversion Hn as [|x xs Hx Hn']; subst.
    destruct (sameRef k (l_ref l)) eqn:Hs; simpl.
    + apply sameRef_true in Hs. subst k. f_equal.
      apply length_zero_iff_nil.
      destruct (filter _ ls) as [|l' ls'] eqn:Hf; [reflexivity|].
      assert (Hin : In l' (filter (fun l0 => sameRef (l_ref l) (l_ref l0)) ls))
        by (rewrite Hf; now left).
      apply filter_In in Hin. destruct Hin as [Hin Heq].
      apply sameRef_true in Heq. elim Hx. rewrite Heq. now apply in_map.
    + now apply IH.
Qed.

(** ** The NYPD connector: its helpers and the loop of [getAll] *)

Ltac entity_helper :=
  let r1 := fresh "r" in
  let H1 := fresh "H" in
  apply addEntity_step; intros r1 H1;
  repeat (first
    [ apply (setProperties_step _ _ _ _ _ _ H1)
    | apply (setProperty_step _ _ _ _ _ _ _ H1)
    | apply (setSourceReference_step _ _ _ _ _ _ H1) ];
    clear r1 H1; intros r1 H1);
  apply runs_ret; split; [reflexivity | exact H1].

Lemma addLocation_runs (d : NYPD.IComplaintDto) (r : Result) :
  runs (NYPD.addLocation d) r
    (fun a r' => a = locationRef d /\ built (locationRef d) NYPD.exampleSourceRef r r').
Proof. unfold NYPD.addLocation, Result_addEntity, locationRef. entity_helper. Qed.

Lemma addComplaint_runs (d : NYPD.IComplaintDto) (r : Result) :
  runs (NYPD.addComplaint d) r
    (fun a r' => a = complaintRef d /\ built (complaintRef d) NYPD.exampleSourceRef r r').
Proof. unfold NYPD.addComplaint, Result_addEntity, complaintRef. entity_helper. Qed.

Lemma addSuspect_runs (d : NYPD.IComplaintDto) (r : Result) :
  runs (NYPD.addSuspect d) r
    (fun a r' => a = suspectRef d /\ built (suspectRef d) NYPD.exampleSourceRef r r').
Proof. unfold NYPD.addSuspect, Result_addEntity, suspectRef. entity_helper. Qed.

Lemma addVictim_runs (d : NYPD.IComplaintDto) (r : Result) :
  runs (NYPD.addVictim d) r
    (fun a r' => a = victimRef d /\ built (victimRef d) NYPD.exampleSourceRef r r').
Proof. unfold NYPD.addVictim, Result_addEntity, victimRef. entity_helper. Qed.

Lemma addLink_runs (t : ItemType) (id : string) (from to : RecordRef) (r : Result) :
  hasEntity from r = true ->
  hasEntity to r = true ->
  runs (NYPD.addLink t id from to) r
    (fun _ r' => linkBuilt (OwnRef t (StringId id)) NYPD.exampleSourceRef r r').
Proof.
  intros Hf Ht. unfold NYPD.addLink, Result_addLink.
  eapply runs_bind; [now apply addLinkRef_runs|].
  cbv beta. intros a r1 [-> (He & Hr & Ho)].
  eapply runs_weaken; [apply Link_setSourceReference_runs|].
  cbv beta. intros u r2 (He' & Hr' & Ho' & Hs). repeat split.
  - congruence.
  - congruence.
  - intros l Hl Hk. apply Ho; [|exact Hk]. now apply Ho'.
  - exact Hs.
Qed.

Lemma built_graphOK (k : RecordRef) (s : ISourceReference) (r r' : Result) :
  built k s r r' -> graphOK r -> graphOK r'.
Proof.
  intros H (Hn & Hl & He & Hs). repeat split.
  - now apply (built_NoDup _ _ _ _ H).
  - now rewrite (built_linkRefs _ _ _ _ H).
  - now apply (built_sourced _ _ _ _ H).
  - unfold linksSourced. now rewrite (built_links _ _ _ _ H).
Qed.

Lemma linkBuilt_graphOK (k : RecordRef) (s : ISourceReference) (r r' : Result) :
  linkBuilt k s r r' -> graphOK r -> graphOK r'.
Proof.
  intros H (Hn & Hl & He & Hs). pose proof H as [H' _]. repeat split.
  - now rewrite (linked_refs _ _ _ H').
  - now apply (linked_NoDup _ _ _ H').
  - now apply (linked_entitiesSourced _ _ _ H').
  - now apply (linkBuilt_sourced _ _ _ _ H).
Qed.

Lemma getAll_row_runs (d : NYPD.IComplaintDto) (r : Result) :
  graphOK r -> runs (NYPD.getAll_row d) r (fun _ r' => graphOK r').
Proof.
  intros H0. unfold NYPD.getAll_row.
  eapply runs_bind; [apply addLocation_runs|]. cbv beta. intros ? r1 [-> B1].
  eapply runs_bind; [apply addComplaint_runs|]. cbv beta. intros ? r2 [-> B2].
  eapply runs_bind; [apply addSuspect_runs|]. cbv beta. intros ? r3 [-> B3].
  eapply runs_bind; [apply addVictim_runs|]. cbv beta. intros ? r4 [-> B4].
  pose proof (built_graphOK _ _ _ _ B4 (built_graphOK _ _ _ _ B3
                (built_graphOK _ _ _ _ B2 (built_graphOK _ _ _ _ B1 H0)))) as H4.
  assert (Hv : hasEntity (victimRef d) r4 = true) by apply (built_hasEntity _ _ _ _ B4).
  assert (Hs : hasEntity (suspectRef d) r4 = true)
    by (apply (built_mono _ _ _ _ B4), (built_hasEntity _ _ _ _ B3)).
  assert (Hc : hasEntity (complaintRef d) r4 = true)
    by (apply (built_mono _ _ _ _ B4), (built_mono _ _ _ _ B3),
          (built_hasEntity _ _ _ _ B2)).
  assert (Hl : hasEntity (locationRef d) r4 = true)
    by (apply (built_mono _ _ _ _ B4), (built_mono _ _ _ _ B3),
          (built_mono _ _ _ _ B2), (built_hasEntity _ _ _ _ B1)).
  eapply runs_bind; [now apply addLink_runs|]. cbv beta. intros ? r5 L5.
  pose proof L5 as [L5' _].
  eapply runs_bind;
    [apply addLink_runs; now rewrite (linked_hasEntity _ _ _ L5')|].
  cbv beta. intros ? r6 L6. pose proof L6 as [L6' _].
  eapply runs_weaken;
    [apply addLink_runs;
     now rewrite (linked_hasEntity _ _ _ L6'), (linked_hasEntity _ _ _ L5')|].
  cbv beta. intros ? r7 L7.
  now apply (linkBuilt_graphOK _ _ _ _ L7), (linkBuilt_graphOK _ _ _ _ L6),
    (linkBuilt_graphOK _ _ _ _ L5).
Qed.

Lemma graphOK_new : graphOK Result_new.
Proof. repeat split; try constructor; intros ? []. Qed.

Lemma getAll_build_runs (data : list NYPD.IComplaintDto) :
  exists r, run (NYPD.getAll_build data) = Returned r /\ graphOK r.
Proof.
  apply run_runs. unfold NYPD.getAll_build.
  apply runs_forEach with (I := graphOK); [|apply graphOK_new].
  intros d r _. apply getAll_row_runs.
Qed.

(** ** The NYPD connector: the claims *)

(** C2: when [fetch] resolves to a response, [requestData] returns the
    parsed records exactly when the status is 200 and the body parses to
    them; for any other status it throws an [Error] whose message is the
    status text, and [getAll] then throws the same error instead of
    returning a result. *)
Theorem requestData_status
    (href : string -> list (string * string) -> string)
    (fetch : string -> outcome NYPD.Response)
    (url : string) (response : NYPD.Response) :
  fetch url = Returned response ->
  (forall data,
      NYPD.requestData fetch url = Returned data
      <-> NYPD.status response = 200 /\ NYPD.json response = Returned data)
  /\ (NYPD.status response <> 200 ->
      NYPD.requestData fetch url = Thrown (Error (NYPD.statusText response)))
  /\ (url = NYPD.getUrl href [("$limit", "100")] ->
      NYPD.status response <> 200 ->
      NYPD.getAll href fetch = Thrown (Error (NYPD.statusText response))
      /\ forall r, NYPD.getAll href fetch <> Returned r).
Proof.
  intros Hf.
  assert (Hbad : NYPD.status response <> 200 ->
            NYPD.requestData fetch url = Thrown (Error (NYPD.statusText response))).
  { intros Hs. unfold NYPD.requestData. rewrite Hf.
    apply Z.eqb_neq in Hs. now rewrite Hs. }
  split; [|split].
  - intros data. unfold NYPD.requestData. rewrite Hf.
    destruct (NYPD.status response =? 200) eqn:Hs.
    + apply Z.eqb_eq in Hs. split; [now split | now intros [_ H]].
    + apply Z.eqb_neq in Hs. split; [discriminate | now intros [H _]].
  - exact Hbad.
  - intros -> Hs. unfold NYPD.getAll. rewrite (Hbad Hs).
    split; [reflexivity | discriminate].
Qed.

Lemma requestData_status_witness :
  (fun _ : string => Returned notFound) "https://example.org" = Returned notFound
  /\ NYPD.requestData (fun _ => Returned notFound) "https://example.org"
     = Thrown (Error "Not Found").
Proof.
  split; [reflexivity|].
  apply (proj1 (proj2 (requestData_status hrefPlain (fun _ => Returned notFound)
                         "https://example.org" notFound eq_refl))).
  discriminate.
Defined.

(** C5: when the fetch of [getAll] returns the single record with
    complaint number "100", borough "BROOKLYN" and precinct "1", the
    result holds the Location entity "Borough: BROOKLYN Precinct: 1", the
    Complaint entity "Complaint: 100" (and the suspect and the victim of
    the complaint), and a Locatedat link "100" from the complaint to the
    location. *)
Theorem getAll_one_record
    (href : string -> list (string * string) -> string)
    (fetch : string -> outcome NYPD.Response)
    (response : NYPD.Response) (d : NYPD.IComplaintDto) :
  fetch (NYPD.getUrl href [("$limit", "100")]) = Returned response ->
  NYPD.status response = 200 ->
  NYPD.json response = Returned [d] ->
  NYPD.cmplnt_num d = "100" ->
  NYPD.boro_nm d = Some "BROOKLYN" ->
  NYPD.addr_pct_cd d = Some "1" ->
  exists r,
    NYPD.getAll href fetch = Returned r
    /\ refs r = [ OwnRef NYPD.Location (StringId "Borough: BROOKLYN Precinct: 1");
                  OwnRef NYPD.Complaint (StringId "Complaint: 100");
                  OwnRef NYPD.Person (StringId "Suspect: 100");
                  OwnRef NYPD.Person (StringId "Victim: 100") ]
    /\ linkRefs r = [ OwnRef NYPD.Locatedat (StringId "100");
                      OwnRef NYPD.Victimof (StringId "100");
                      OwnRef NYPD.Suspectof (StringId "100") ]
    /\ exists l,
         findLink (OwnRef NYPD.Locatedat (StringId "100")) r = Some l
         /\ l_from l = OwnRef NYPD.Complaint (StringId "Complaint: 100")
         /\ l_to l = OwnRef NYPD.Location (StringId "Borough: BROOKLYN Precinct: 1").
Proof.
  intros Hf Hs Hj Hn Hb Hp.
  unfold NYPD.getAll, NYPD.requestData. rewrite Hf, Hs, Hj. simpl Z.eqb. cbv iota.
  destruct d; simpl in Hn, Hb, Hp; subst.
  eexists. split; [lazy -[assign parseInt]; reflexivity|].
  split; [reflexivity|]. split; [reflexivity|].
  eexists. split; [reflexivity|]. split; reflexivity.
Qed.

Lemma getAll_one_record_witness :
  exists r,
    NYPD.getAll hrefPlain (fun _ => Returned oneRow) = Returned r
    /\ In (OwnRef NYPD.Complaint (StringId "Complaint: 100")) (refs r)
    /\ In (OwnRef NYPD.Location (StringId "Borough: BROOKLYN Precinct: 1")) (refs r)
    /\ In (OwnRef NYPD.Locatedat (StringId "100")) (linkRefs r).
Proof.
  destruct (getAll_one_record hrefPlain (fun _ => Returned oneRow) oneRow row100
              eq_refl eq_refl eq_refl eq_refl eq_refl eq_refl)
    as (r & Hr & He & Hl & _).
  exists r. split; [exact Hr|]. rewrite He, Hl. simpl. auto.
Defined.

(** C6: for every sequence of rows, the graph construction of [getAll]
    returns a result in which no two entities have the same item type and
    identifier.  The identifiers come from the rows' keys: two complaints
    with the same identifier have the same complaint number, and the
    suspect and the victim of a complaint, both of type Person, differ by
    their role prefix. *)
Theorem getAll_entities_unique (data : list NYPD.IComplaintDto) :
  (exists r, run (NYPD.getAll_build data) = Returned r /\ NoDup (refs r))
  /\ (forall d1 d2, complaintRef d1 = complaintRef d2 ->
        NYPD.cmplnt_num d1 = NYPD.cmplnt_num d2)
  /\ (forall d1 d2, suspectRef d1 <> victimRef d2).
Proof.
  split; [|split].
  - destruct (getAll_build_runs data) as (r & Hr & Hn & _). now exists r.
  - intros d1 d2 H. unfold complaintRef in H. simpl in H. now inversion H.
  - intros d1 d2 H. unfold suspectRef, victimRef in H. simpl in H. discriminate.
Qed.

(** C8: the conditional that wraps the seed in [expand] has the same
    operation in both branches: [expand] is the service that always wraps
    the seed, for every seed list and every response. *)
Theorem expand_wraps_seed_always
    (href : string -> list (string * string) -> string)
    (fetch : string -> outcome NYPD.Response) (seeds : ISeeds) :
  NYPD.expand href fetch seeds = NYPD.expand_always_wrap href fetch seeds.
Proof.
  unfold NYPD.expand, NYPD.expand_always_wrap.
  destruct (seedEntities seeds) as [|seed rest]; [reflexivity|].
  destruct (NYPD.requestData fetch _) as [data|e]; [|reflexivity].
  destruct (Seed_isType seed NYPD.Complaint); reflexivity.
Qed.

(** *** Entities that are new to the result *)

Lemma updateEntity_fresh (k : RecordRef) (f : EntityRecord -> EntityRecord)
    (es : list EntityRecord) (ls : list LinkRecord) (e0 : EntityRecord) :
  ~ In k (map e_ref es) ->
  e_ref e0 = k ->
  updateEntity k f (mkResult (es ++ [e0]) ls)
  = Returned (tt, mkResult (es ++ [f e0]) ls).
Proof.
  intros Hk H0. unfold updateEntity. simpl. do 3 f_equal.
  rewrite map_app. simpl. rewrite H0, sameRef_refl. f_equal.
  rewrite <- (map_id es) at 2. apply map_ext_in.
  intros e He. destruct (sameRef k (e_ref e)) eqn:Hs; [|reflexivity].
  apply sameRef_true in Hs. elim Hk. rewrite Hs. now apply in_map.
Qed.

Lemma Entity_setProperties_fresh (k : RecordRef)
    (ps : list (string * option PropertyValue))
    (es : list EntityRecord) (ls : list LinkRecord)
    (props : list (string * PropertyValue)) (s : option ISourceReference) :
  ~ In k (map e_ref es) ->
  Entity_setProperties k ps (mkResult (es ++ [mkEntity k props s]) ls)
  = Returned (tt, mkResult (es ++ [mkEntity k (assignAll ps props) s]) ls).
Proof.
  intros Hk. revert props. induction ps as [|[name v] ps IH]; intros props.
  - reflexivity.
  - simpl. unfold bind, Entity_setProperty.
    rewrite updateEntity_fresh by auto. simpl. apply IH.
Qed.

Lemma findEntity_fresh (k : RecordRef) (es : list EntityRecord)
    (ls : list LinkRecord) (e : EntityRecord) :
  ~ In k (map e_ref es) ->
  e_ref e = k ->
  findEntity k (mkResult (es ++ [e]) ls) = Some e.
Proof.
  intros Hk He. unfold findEntity. simpl.
  induction es as [|e0 es IH]; simpl.
  - now rewrite He, sameRef_refl.
  - destruct (sameRef k (e_ref e0)) eqn:Hs.
    + apply sameRef_true in Hs. elim Hk. now left.
    + apply IH. intros H. apply Hk. now right.
Qed.

(** An entity helper on a result that does not hold the entity yet. *)
Lemma entity_helper_fresh (k : RecordRef)
    (ps : list (string * option PropertyValue)) (s : ISourceReference)
    (r : Result) :
  hasEntity k r = false ->
  (entity <- addEntityRef k ;;
   Entity_setProperties entity ps ;;;
   Entity_setSourceReference entity s ;;;
   ret entity) r
  = Returned (k, mkResult (entities r ++ [mkEntity k (assignAll ps []) (Some s)])
                          (links r)).
Proof.
  intros Hk. pose proof (proj1 (hasEntity_false k r) Hk) as Hn.
  unfold bind at 1. unfold addEntityRef. rewrite Hk.
  unfold bind at 1. rewrite Entity_setProperties_fresh by exact Hn.
  unfold bind at 1. unfold Entity_setSourceReference.
  rewrite updateEntity_fresh by auto. reflexivity.
Qed.

Lemma propertyOf_fresh (k : RecordRef) (props : list (string * PropertyValue))
    (s : option ISourceReference) (r : Result) (name : string) :
  hasEntity k r = false ->
  propertyOf (mkResult (entities r ++ [mkEntity k props s]) (links r)) k name
  = getValue name props.
Proof.
  intros Hk. unfold propertyOf.
  rewrite findEntity_fresh; auto. now apply hasEntity_false.
Qed.

(** C3, as claimed, fails: a row whose precinct code is "abc" does not
    make [addLocation] throw; the helper returns the entity, whose
    'Precinct Code' is NaN, and [addComplaint] returns too with a
    'Jurisdiction Code' that is NaN. *)
Lemma addLocation_unparsable_returns :
  (exists r',
      NYPD.addLocation rowBadPrecinct Result_new
      = Returned (locationRef rowBadPrecinct, r')
      /\ propertyOf r' (locationRef rowBadPrecinct) "Precinct Code"
         = Some (PNumber NaN))
  /\ (exists r',
      NYPD.addComplaint rowBadPrecinct Result_new
      = Returned (complaintRef rowBadPrecinct, r')
      /\ propertyOf r' (complaintRef rowBadPrecinct) "Jurisdiction Code"
         = Some (PNumber NaN))
  /\ ~ (exists e, NYPD.addLocation rowBadPrecinct Result_new = Thrown e).
Proof.
  split; [|split].
  - eexists. split; [vm_compute; reflexivity | reflexivity].
  - eexists. split; [vm_compute; reflexivity | reflexivity].
  - intros [e H]. vm_compute in H. discriminate.
Qed.

(** C3, amended: [addLocation] and [addComplaint] return for every row
    and every result, whatever the row lacks.  On an entity that is new
    to the result, a string property is set exactly when its column is
    present, and a numeric property is always set, to the value of
    [parseInt], which is NaN for an absent column. *)
Theorem entity_helpers_return (d : NYPD.IComplaintDto) (r : Result) :
  (exists r', NYPD.addLocation d r = Returned (locationRef d, r'))
  /\ (exists r', NYPD.addComplaint d r = Returned (complaintRef d, r'))
  /\ (hasEntity (locationRef d) r = false ->
      exists r',
        NYPD.addLocation d r = Returned (locationRef d, r')
        /\ propertyOf r' (locationRef d) "Borough Name"
           = option_map PString (NYPD.boro_nm d)
        /\ propertyOf r' (locationRef d) "Precinct Code"
           = Some (PNumber (parseInt (NYPD.addr_pct_cd d)))
        /\ propertyOf r' (locationRef d) "Coordinates"
           = Some (PPoint (parseInt (NYPD.latitude d)) (parseInt (NYPD.longitude d))))
  /\ (hasEntity (complaintRef d) r = false ->
      exists r',
        NYPD.addComplaint d r = Returned (complaintRef d, r')
        /\ propertyOf r' (complaintRef d) "Crime Status"
           = option_map PString (NYPD.crm_atpt_cptd_cd d)
        /\ propertyOf r' (complaintRef d) "Level Of Offence"
           = option_map PString (NYPD.law_cat_cd d)
        /\ propertyOf r' (complaintRef d) "Offence Description"
           = option_map PString (NYPD.ofns_desc d)
        /\ propertyOf r' (complaintRef d) "Jurisdiction Code"
           = Some (PNumber (parseInt (NYPD.jurisdiction_code d)))
        /\ propertyOf r' (complaintRef d) "Offence Classification Code"
           = Some (PNumber (parseInt (NYPD.ky_cd d))))
  /\ parseInt None = NaN.
Proof.
  split; [|split; [|split; [|split]]].
  - destruct (addLocation_runs d r) as (a & r' & H & -> & _). now exists r'.
  - destruct (addComplaint_runs d r) as (a & r' & H & -> & _). now exists r'.
  - intros Hk. eexists. split.
    + unfold NYPD.addLocation, Result_addEntity.
      now apply entity_helper_fresh.
    + rewrite !propertyOf_fresh by exact Hk.
      destruct (NYPD.boro_nm d); repeat split; reflexivity.
  - intros Hk. eexists. split.
    + unfold NYPD.addComplaint, Result_addEntity.
      now apply entity_helper_fresh.
    + rewrite !propertyOf_fresh by exact Hk.
      destruct (NYPD.crm_atpt_cptd_cd d), (NYPD.law_cat_cd d), (NYPD.ofns_desc d);
        repeat split; reflexivity.
  - reflexivity.
Qed.

Lemma entity_helpers_return_witness :
  hasEntity (locationRef rowBadPrecinct) Result_new = false
  /\ exists r',
       NYPD.addLocation rowBadPrecinct Result_new
       = Returned (locationRef rowBadPrecinct, r')
       /\ propertyOf r' (locationRef rowBadPrecinct) "Precinct Code"
          = Some (PNumber NaN).
Proof.
  split; [reflexivity|].
  destruct (proj1 (proj2 (proj2 (entity_helpers_return rowBadPrecinct Result_new)))
              eq_refl) as (r' & Hr & _ & Hp & _).
  exists r'. split; [exact Hr | exact Hp].
Defined.

(** ** The example connector: its helpers and loops *)

Lemma Set_has_In (s : list string) (x : string) : Set_has s x = true <-> In x s.
Proof.
  unfold Set_has. rewrite existsb_exists. split.
  - intros (y & Hy & He). apply String.eqb_eq in He. now subst.
  - intros H. exists x. split; [exact H | apply String.eqb_refl].
Qed.

(** A loop keeps an invariant and does not undo what is stable. *)
Lemma runs_forEach_keep {A : Type} (xs : list A) (body : A -> M unit)
    (I S : Result -> Prop) :
  (forall x r, In x xs -> I r ->
     runs (body x) r (fun _ r' => I r' /\ (S r -> S r'))) ->
  forall r, I r -> runs (forEach xs body) r (fun _ r' => I r' /\ (S r -> S r')).
Proof.
  induction xs as [|x xs IH]; intros Hbody r HI; simpl.
  - apply runs_ret. now split.
  - eapply runs_bind; [apply Hbody; [now left | exact HI]|].
    cbv beta. intros u r1 [HI1 HS1].
    eapply runs_weaken.
    + apply IH; [|exact HI1]. intros y r0 Hy. apply Hbody. now right.
    + cbv beta. intros u' r2 [HI2 HS2]. split; [exact HI2 | auto].
Qed.

Lemma peopleOK_new : peopleOK Result_new.
Proof. repeat split; try constructor; intros ? []. Qed.

Lemma addLinkRef_unsourced (k from to : RecordRef) (r : Result) :
  hasEntity from r = true ->
  hasEntity to r = true ->
  runs (addLinkRef k from to) r
    (fun a r' => linked k r r'
       /\ forall l, In l (links r') -> In l (links r) \/ l_source l = None).
Proof.
  intros Hf Ht.
  destruct (addLinkRef_runs k from to r Hf Ht) as (a & r' & Hrun & _ & Hl).
  exists a, r'. split; [exact Hrun|]. split; [exact Hl|].
  unfold addLinkRef in Hrun. rewrite Hf, Ht in Hrun. simpl in Hrun.
  injection Hrun as _ Hr'. rewrite <- Hr'.
  intros l Hin. destruct (hasLink k r); [now left|].
  simpl in Hin. apply in_app_or in Hin. destruct Hin as [Hin|[<-|[]]]; auto.
Qed.

Section ExampleFacts.

Variables Person Friendswith : ItemType.
Variable people : list Example.IPerson.
Variable localeCompare : string -> string -> Z.
Variable getFullYear : string -> JSNumber.

Lemma addPersonToResult_runs (thisYear : Z) (p : Example.IPerson)
    (idFactory : option (string -> ResultRecordIdType)) (r : Result) :
  runs (Example.addPersonToResult Person getFullYear thisYear p idFactory) r
    (fun a r' => a = personRef Person idFactory p
       /\ built (personRef Person idFactory p) Example.exampleSourceRef r r').
Proof.
  unfold Example.addPersonToResult, personRef.
  destruct (Example.withDefault idFactory (Example.id p)) as [s|i];
    unfold Result_addEntity, Result_addEntityWithSourceIdentifier; entity_helper.
Qed.

Lemma built_peopleOK (k : RecordRef) (s : ISourceReference) (r r' : Result) :
  built k s r r' -> peopleOK r -> peopleOK r'.
Proof.
  intros H (Hn & Hl & He & Hs). repeat split.
  - now apply (built_NoDup _ _ _ _ H).
  - now rewrite (built_linkRefs _ _ _ _ H).
  - now apply (built_sourced _ _ _ _ H).
  - now rewrite (built_links _ _ _ _ H).
Qed.

Lemma linkFriend_runs (thisYear : Z)
    (idFactory : option (string -> ResultRecordIdType))
    (p q : Example.IPerson) (r : Result) :
  peopleOK r ->
  runs (Example.linkFriend Person Friendswith getFullYear thisYear idFactory p q) r
    (fun _ r' => peopleOK r'
       /\ hasLink (friendLinkRef Friendswith idFactory p q) r' = true
       /\ (forall k, hasLink k r = true -> hasLink k r' = true)
       /\ (forall k, In k (refs r') ->
             In k (refs r) \/ k = personRef Person idFactory p \/ k = personRef Person idFactory q)).
Proof.
  intros H0. unfold Example.linkFriend.
  eapply runs_bind; [apply addPersonToResult_runs|]. cbv beta. intros ? r1 [-> B1].
  eapply runs_bind; [apply addPersonToResult_runs|]. cbv beta. intros ? r2 [-> B2].
  pose proof (built_peopleOK _ _ _ _ B2 (built_peopleOK _ _ _ _ B1 H0)) as H2.
  assert (Hq : hasEntity (personRef Person idFactory q) r2 = true)
    by apply (built_hasEntity _ _ _ _ B2).
  assert (Hp : hasEntity (personRef Person idFactory p) r2 = true)
    by (apply (built_mono _ _ _ _ B2), (built_hasEntity _ _ _ _ B1)).
  assert (Hfin : forall k r3,
            linked k r2 r3 ->
            (forall l, In l (links r3) -> In l (links r2) \/ l_source l = None) ->
            peopleOK r3
            /\ hasLink k r3 = true
            /\ (forall k0, hasLink k0 r = true -> hasLink k0 r3 = true)
            /\ (forall k0, In k0 (refs r3) ->
                  In k0 (refs r) \/ k0 = personRef Person idFactory p
                  \/ k0 = personRef Person idFactory q)).
  { intros k r3 L Hnew. destruct H2 as (Hn & Hl & He & Hs). repeat split.
    - now rewrite (linked_refs _ _ _ L).
    - now apply (linked_NoDup _ _ _ L).
    - now apply (linked_entitiesSourced _ _ _ L).
    - intros l Hl3. destruct (Hnew l Hl3) as [Hold|Hnone]; auto.
    - apply (linked_hasLink _ _ _ L).
    - intros k0 Hk0. apply (linked_mono _ _ _ L).
      rewrite (built_hasLink _ _ _ _ B2), (built_hasLink _ _ _ _ B1). exact Hk0.
    - intros k0 Hk0. rewrite (linked_refs _ _ _ L) in Hk0.
      destruct (built_refs _ _ _ _ B2 k0 Hk0) as [Hk1| ->]; [|now right; right].
      destruct (built_refs _ _ _ _ B1 k0 Hk1) as [Hk2| ->]; [now left | now right; left]. }
  unfold friendLinkRef.
  destruct (Example.withDefault idFactory
              (friendLinkKey (Example.id p) (Example.id q))) as [s|i];
    unfold Result_addLink, Result_addLinkWithSourceIdentifier;
    (eapply runs_bind; [now apply addLinkRef_unsourced|]);
    cbv beta; intros a r3 [L Hnew]; apply runs_ret; now apply Hfin.
Qed.

(** The friends of one person, then the people of one seed, then the
    seeds: each loop keeps [peopleOK] and the links registered so far. *)
Lemma friends_loop_keeps (thisYear : Z)
    (idFactory : option (string -> ResultRecordIdType))
    (p : Example.IPerson) (qs : list Example.IPerson) (k : RecordRef) (r : Result) :
  peopleOK r ->
  runs (forEach qs
          (Example.linkFriend Person Friendswith getFullYear thisYear idFactory p)) r
    (fun _ r' => peopleOK r' /\ (hasLink k r = true -> hasLink k r' = true)).
Proof.
  apply runs_forEach_keep with (S := fun r => hasLink k r = true).
  intros q r0 _ H0.
  eapply runs_weaken; [now apply linkFriend_runs|].
  cbv beta. intros u r' (H1 & _ & Hm & _). split; [exact H1 | apply Hm].
Qed.

Lemma people_loop_keeps (thisYear : Z)
    (idFactory : option (string -> ResultRecordIdType))
    (ps : list Example.IPerson) (k : RecordRef) (r : Result) :
  peopleOK r ->
  runs (forEach ps (fun person =>
          forEach (Example.lookupPeople people
                     (fun friend => Set_has (Example.friends person) (Example.id friend)))
            (Example.linkFriend Person Friendswith getFullYear thisYear idFactory person)))
       r
    (fun _ r' => peopleOK r' /\ (hasLink k r = true -> hasLink k r' = true)).
Proof.
  apply runs_forEach_keep with (S := fun r => hasLink k r = true).
  intros p r0 _ H0. now apply friends_loop_keeps.
Qed.

Lemma getFriendsLinkedToSeeds_runs (thisYear : Z) (seeds : ISeeds)
    (extractIdsFromSeed : ISeedEntityRecord -> list string)
    (idFactory : option (string -> ResultRecordIdType)) :
  exists r,
    Example.getFriendsLinkedToSeeds Person Friendswith people getFullYear
      thisYear seeds extractIdsFromSeed idFactory = Returned r
    /\ peopleOK r.
Proof.
  apply run_runs. apply runs_forEach with (I := peopleOK); [|apply peopleOK_new].
  intros seed r _ H0.
  eapply runs_weaken;
    [apply people_loop_keeps with (k := SeedRef EmptyString); exact H0|].
  cbv beta. intros u r' [H1 _]. exact H1.
Qed.

Lemma findPeople_runs (thisYear : Z) (term : string)
    (idFactory : option (string -> ResultRecordIdType)) :
  exists r,
    Example.findPeople Person people getFullYear thisYear term idFactory = Returned r
    /\ peopleOK r.
Proof.
  apply run_runs. apply runs_forEach with (I := peopleOK); [|apply peopleOK_new].
  intros p r _ H0.
  eapply runs_bind; [apply addPersonToResult_runs|]. cbv beta. intros a r1 [-> B1].
  apply runs_ret. now apply (built_peopleOK _ _ _ _ B1).
Qed.

End ExampleFacts.

(** ** The example connector: the claims *)


(** C10: for every seed, data set and choice of the year-of-birth
    condition, the 'find like this' search returns a result that holds no
    entity for a person whose id is among the ids of the seed's Person
    connector keys. *)
Theorem seeded_search_excludes_charted
    (Person : ItemType) (people : list Example.IPerson)
    (localeCompare : string -> string -> Z) (getFullYear : string -> JSNumber)
    (thisYear : Z) (seed : ISeedEntityRecord) (others : list ISeedEntityRecord)
    (useYearOfBirth : option bool) :
  exists r,
    Example.exampleSeededSearch1 Person people localeCompare getFullYear
      thisYear (mkSeeds (seed :: others)) useYearOfBirth = Returned r
    /\ (forall key, In key (Seed_connectorKeysByType seed Person) ->
          hasEntity (OwnRef Person (StringId (ck_id key))) r = false)
    /\ (forall p, In p people -> In (Example.id p) (keysOf Person seed) ->
          findEntity (personRef Person None p) r = None).
Proof.
  set (predicate := Example.seededSearch1_predicate Person localeCompare seed
                      useYearOfBirth).
  assert (Hpred : forall p, In (Example.id p) (keysOf Person seed) ->
            predicate p = false).
  { intros p Hp. unfold predicate, Example.seededSearch1_predicate.
    apply Set_has_In in Hp. unfold keysOf in Hp. now rewrite Hp. }
  enough (Hrun : exists r,
             Example.exampleSeededSearch1 Person people localeCompare getFullYear
               thisYear (mkSeeds (seed :: others)) useYearOfBirth = Returned r
             /\ forall k, In k (refs r) ->
                  exists p, predicate p = true /\ k = personRef Person None p).
  { destruct Hrun as (r & Hr & Hrefs). exists r. split; [exact Hr|].
    assert (Hnone : forall id, In id (keysOf Person seed) ->
              hasEntity (OwnRef Person (StringId id)) r = false).
    { intros id Hid. apply hasEntity_false. intros Hin.
      destruct (Hrefs _ Hin) as (p & Hp & Heq).
      unfold personRef in Heq. simpl in Heq. inversion Heq as [Hidp].
      rewrite Hidp in Hid. apply Hpred in Hid. congruence. }
    split.
    - intros key Hkey. apply Hnone. unfold keysOf.
      now apply in_map.
    - intros p _ Hp. unfold findEntity.
      destruct (find _ (entities r)) as [e|] eqn:Hf; [|reflexivity].
      apply find_some in Hf. destruct Hf as [He Hs]. apply sameRef_true in Hs.
      specialize (Hnone _ Hp). apply hasEntity_false in Hnone. elim Hnone.
      unfold personRef in Hs. simpl in Hs. rewrite Hs. now apply in_map. }
  unfold Example.exampleSeededSearch1. simpl seedEntities. cbv iota.
  apply run_runs.
  apply runs_forEach
    with (I := fun r => forall k, In k (refs r) ->
                 exists p, predicate p = true /\ k = personRef Person None p).
  - intros p r Hp H0.
    eapply runs_bind; [apply addPersonToResult_runs|]. cbv beta. intros a r1 [-> B1].
    apply runs_ret. intros k Hk.
    destruct (built_refs _ _ _ _ B1 k Hk) as [Hold| ->]; [now apply H0|].
    exists p. split; [|reflexivity].
    apply filter_In in Hp. apply Hp.
  - intros k [].
Qed.

(** C7, as claimed, fails on the links of the friend expansion: the
    Friendswith link between "p1" and "p2" is returned without a source
    reference. *)
Lemma friend_link_has_no_source_reference :
  exists r l,
    Example.exampleSeededSearch2 PersonType FriendswithType twoPeople yearOfDate
      2022 annAndFriend = Returned r
    /\ findLink (OwnRef FriendswithType (StringId "p1-p2")) r = Some l
    /\ l_source l = None.
Proof.
  eexists; eexists. split; [vm_compute; reflexivity|].
  split; reflexivity.
Qed.


(** ** The identifier of a friend link *)

(** C4: the identifier of the Friendswith link of a pair of person ids is
    the same whichever of the two comes first; it is the two ids in code
    unit order joined by "-". *)
Theorem friendLinkKey_symmetric (a b : string) :
  friendLinkKey a b = friendLinkKey b a
  /\ friendLinkKey a b = (if (b <? a)%string then b ++ "-" ++ a else a ++ "-" ++ b)
  /\ (forall Friendswith idFactory p q,
        friendLinkRef Friendswith idFactory p q
        = friendLinkRef Friendswith idFactory q p).
Proof.
  assert (Hsym : forall x y, friendLinkKey x y = friendLinkKey y x).
  { intros x y. unfold friendLinkKey. simpl. unfold String.ltb.
    rewrite (String.compare_antisym y x).
    destruct (String.compare x y) eqn:Hc; simpl; try reflexivity.
    apply String.compare_eq_iff in Hc. now subst. }
  split; [apply Hsym|split].
  - unfold friendLinkKey. simpl. now destruct (b <? a)%string.
  - intros. unfold friendLinkRef. now rewrite Hsym.
Qed.

(** ** Two runs of one service *)

Lemma eraseAge_inv (r1 r2 : Result) :
  eraseAge r1 = eraseAge r2 ->
  map eraseE (entities r1) = map eraseE (entities r2) /\ links r1 = links r2.
Proof. unfold eraseAge. intros H. now inversion H. Qed.

Lemma eraseAge_refs (r1 r2 : Result) :
  eraseAge r1 = eraseAge r2 -> refs r1 = refs r2.
Proof.
  intros H. apply eraseAge_inv in H. destruct H as [H _].
  unfold refs. apply (f_equal (map e_ref)) in H. rewrite !map_map in H. exact H.
Qed.

Lemma hasEntity_refs (k : RecordRef) (r : Result) :
  hasEntity k r = existsb (sameRef k) (refs r).
Proof.
  unfold hasEntity, refs. induction (entities r) as [|e es IH]; simpl; congruence.
Qed.

Lemma sim_ret {A : Type} (a : A) : sim (ret a) (ret a).
Proof. intros r1 r2 H. simpl. now split. Qed.

Lemma sim_bind {A B : Type} (m1 m2 : M A) (k1 k2 : A -> M B) :
  sim m1 m2 -> (forall a, sim (k1 a) (k2 a)) -> sim (bind m1 k1) (bind m2 k2).
Proof.
  intros Hm Hk r1 r2 H. specialize (Hm r1 r2 H). unfold bind, agree in *.
  destruct (m1 r1) as [[a1 r1']|e1], (m2 r2) as [[a2 r2']|e2]; try contradiction.
  - destruct Hm as [-> H']. now apply Hk.
  - exact Hm.
Qed.

Lemma sim_forEach {A : Type} (xs : list A) (b1 b2 : A -> M unit) :
  (forall x, sim (b1 x) (b2 x)) -> sim (forEach xs b1) (forEach xs b2).
Proof.
  intros Hb. induction xs as [|x xs IH]; simpl.
  - apply sim_ret.
  - apply sim_bind; [apply Hb | intros _; exact IH].
Qed.

Lemma sim_addEntityRef (k : RecordRef) : sim (addEntityRef k) (addEntityRef k).
Proof.
  intros r1 r2 H. simpl. split; [reflexivity|].
  rewrite !hasEntity_refs, (eraseAge_refs _ _ H).
  destruct (existsb (sameRef k) (refs r2)); [exact H|].
  apply eraseAge_inv in H. destruct H as [He Hl].
  unfold eraseAge. simpl. rewrite !map_app, He, Hl. reflexivity.
Qed.

Lemma sim_addLinkRef (k from to : RecordRef) :
  sim (addLinkRef k from to) (addLinkRef k from to).
Proof.
  intros r1 r2 H. unfold addLinkRef.
  rewrite !hasEntity_refs, (eraseAge_refs _ _ H).
  pose proof (eraseAge_inv _ _ H) as [He Hl].
  destruct (existsb (sameRef from) (refs r2) && existsb (sameRef to) (refs r2));
    simpl; [|reflexivity].
  split; [reflexivity|]. unfold hasLink. rewrite Hl.
  destruct (existsb _ (links r2)); [exact H|].
  unfold eraseAge. simpl. now rewrite He.
Qed.

Lemma sim_updateEntity (k : RecordRef) (f g : EntityRecord -> EntityRecord) :
  (forall e1 e2, eraseE e1 = eraseE e2 -> eraseE (f e1) = eraseE (g e2)) ->
  sim (updateEntity k f) (updateEntity k g).
Proof.
  intros Hfg r1 r2 H. simpl. split; [reflexivity|].
  apply eraseAge_inv in H. destruct H as [He Hl].
  unfold eraseAge. simpl. rewrite Hl. f_equal.
  revert He. generalize (entities r2). induction (entities r1) as [|e1 es1 IH];
    intros [|e2 es2] He; simpl in *; try discriminate; [reflexivity|].
  inversion He as [[Hr Hp Hs]]. f_equal; [|now apply IH].
  rewrite Hr. destruct (sameRef k (e_ref e2)).
  - apply Hfg. unfold eraseE. congruence.
  - unfold eraseE. congruence.
Qed.

Lemma noAge_setValue_other (name : string) (w : PropertyValue)
    (ps : list (string * PropertyValue)) :
  name <> "Age" -> noAge (setValue name w ps) = setValue name w (noAge ps).
Proof.
  intros Hn. apply String.eqb_neq in Hn.
  induction ps as [|[n x] ps IH]; simpl.
  - now rewrite Hn.
  - destruct (String.eqb n name) eqn:Hnn; simpl.
    + apply String.eqb_eq in Hnn. subst n. rewrite Hn. simpl.
      now rewrite String.eqb_refl.
    + destruct (String.eqb n "Age"); simpl; [exact IH|].
      rewrite Hnn. now rewrite IH.
Qed.

Lemma noAge_setValue_Age (w : PropertyValue) (ps : list (string * PropertyValue)) :
  noAge (setValue "Age" w ps) = noAge ps.
Proof.
  induction ps as [|[n x] ps IH]; [reflexivity|]. simpl.
  destruct (String.eqb n "Age") eqn:Hn; simpl; rewrite Hn; simpl; congruence.
Qed.

Lemma sim_setProperty_other (k : RecordRef) (name : string)
    (v : option PropertyValue) :
  name <> "Age" -> sim (Entity_setProperty k name v) (Entity_setProperty k name v).
Proof.
  intros Hn. apply sim_updateEntity. intros e1 e2 H.
  inversion H as [[Hr Hp Hs]]. unfold eraseE. simpl. rewrite Hr, Hs. f_equal.
  destruct v as [w|]; simpl; [|exact Hp].
  now rewrite !noAge_setValue_other, Hp.
Qed.

Lemma sim_setProperty_Age (k : RecordRef) (v1 v2 : PropertyValue) :
  sim (Entity_setProperty k "Age" (Some v1)) (Entity_setProperty k "Age" (Some v2)).
Proof.
  apply sim_updateEntity. intros e1 e2 H.
  inversion H as [[Hr Hp Hs]]. unfold eraseE. simpl. rewrite Hr, Hs. f_equal.
  now rewrite !noAge_setValue_Age.
Qed.

Lemma sim_setSourceReference (k : RecordRef) (s : ISourceReference) :
  sim (Entity_setSourceReference k s) (Entity_setSourceReference k s).
Proof.
  apply sim_updateEntity. intros e1 e2 H.
  inversion H as [[Hr Hp Hs]]. unfold eraseE. simpl. now rewrite Hr, Hp.
Qed.

Lemma getValue_noAge (name : string) (ps : list (string * PropertyValue)) :
  name <> "Age" -> getValue name (noAge ps) = getValue name ps.
Proof.
  intros Hn. induction ps as [|[n x] ps IH]; [reflexivity|]. simpl.
  destruct (String.eqb n "Age") eqn:Ha; simpl.
  - apply String.eqb_eq in Ha. subst n.
    destruct (String.eqb "Age" name) eqn:Hb; [|exact IH].
    apply String.eqb_eq in Hb. congruence.
  - now rewrite IH.
Qed.

Lemma eraseAge_propertyOf (r1 r2 : Result) (k : RecordRef) (name : string) :
  eraseAge r1 = eraseAge r2 -> name <> "Age" ->
  propertyOf r1 k name = propertyOf r2 k name.
Proof.
  intros H Hn. apply eraseAge_inv in H. destruct H as [He _].
  unfold propertyOf, findEntity. revert He. generalize (entities r2).
  induction (entities r1) as [|e1 es1 IH]; intros [|e2 es2] He; simpl in *;
    try discriminate; [reflexivity|].
  inversion He as [[Hr Hp Hs]]. rewrite Hr.
  destruct (sameRef k (e_ref e2)); [|now apply IH].
  now rewrite <- (getValue_noAge name (e_properties e1)), Hp, getValue_noAge.
Qed.

Section TwoRuns.

Variables Person Friendswith : ItemType.
Variable people : list Example.IPerson.
Variable getFullYear : string -> JSNumber.

(** The years read from the clock by the first and by the second run. *)
Variables year1 year2 : Z.

Lemma sim_addPersonToResult (p : Example.IPerson)
    (idFactory : option (string -> ResultRecordIdType)) :
  sim (Example.addPersonToResult Person getFullYear year1 p idFactory)
      (Example.addPersonToResult Person getFullYear year2 p idFactory).
Proof.
  unfold Example.addPersonToResult.
  apply sim_bind.
  - destruct (Example.withDefault idFactory (Example.id p)); apply sim_addEntityRef.
  - intros k.
    repeat (apply sim_bind;
            [first [ apply sim_setProperty_Age
                   | apply sim_setProperty_other; discriminate
                   | apply sim_setSourceReference ]
            | intros _]).
    apply sim_ret.
Qed.

Lemma sim_linkFriend (idFactory : option (string -> ResultRecordIdType))
    (p q : Example.IPerson) :
  sim (Example.linkFriend Person Friendswith getFullYear year1 idFactory p q)
      (Example.linkFriend Person Friendswith getFullYear year2 idFactory p q).
Proof.
  unfold Example.linkFriend.
  apply sim_bind; [apply sim_addPersonToResult | intros a].
  apply sim_bind; [apply sim_addPersonToResult | intros b].
  apply sim_bind; [|intros _; apply sim_ret].
  destruct (Example.withDefault idFactory _); apply sim_addLinkRef.
Qed.

Lemma sim_run (m1 m2 : M unit) :
  sim m1 m2 ->
  forall r1 r2, run m1 = Returned r1 -> run m2 = Returned r2 ->
    eraseAge r1 = eraseAge r2.
Proof.
  intros H r1 r2. unfold run. specialize (H Result_new Result_new eq_refl).
  unfold agree in H.
  destruct (m1 Result_new) as [[u1 s1]|e1], (m2 Result_new) as [[u2 s2]|e2];
    try contradiction; try discriminate.
  intros H1 H2. inversion H1; inversion H2; subst. apply H.
Qed.

Lemma findPeople_two_runs (term : string)
    (idFactory : option (string -> ResultRecordIdType)) (r1 r2 : Result) :
  Example.findPeople Person people getFullYear year1 term idFactory = Returned r1 ->
  Example.findPeople Person people getFullYear year2 term idFactory = Returned r2 ->
  eraseAge r1 = eraseAge r2.
Proof.
  apply sim_run. apply sim_forEach. intros p.
  apply sim_bind; [apply sim_addPersonToResult | intros _; apply sim_ret].
Qed.

Lemma getFriendsLinkedToSeeds_two_runs (seeds : ISeeds)
    (extract : ISeedEntityRecord -> list string)
    (idFactory : option (string -> ResultRecordIdType)) (r1 r2 : Result) :
  Example.getFriendsLinkedToSeeds Person Friendswith people getFullYear
    year1 seeds extract idFactory = Returned r1 ->
  Example.getFriendsLinkedToSeeds Person Friendswith people getFullYear
    year2 seeds extract idFactory = Returned r2 ->
  eraseAge r1 = eraseAge r2.
Proof.
  apply sim_run. apply sim_forEach. intros seed.
  apply sim_forEach. intros p. apply sim_forEach. intros q. apply sim_linkFriend.
Qed.

End TwoRuns.

Lemma eraseAge_alike (r1 r2 : Result) :
  eraseAge r1 = eraseAge r2 -> alikeButAge r1 r2.
Proof.
  intros H. split; [now apply eraseAge_refs|]. split.
  - now apply eraseAge_inv in H.
  - intros k name Hn. now apply eraseAge_propertyOf.
Qed.

(** C9, as claimed, fails: the search over the same two people run in
    2022 and run in 2023 gives the entity of "p1" two different values of
    'Age'. *)
Lemma age_differs_between_runs :
  exists r1 r2,
    Example.exampleSearch PersonType twoPeople yearOfDate 2022 "*" = Returned r1
    /\ Example.exampleSearch PersonType twoPeople yearOfDate 2023 "*" = Returned r2
    /\ propertyOf r1 (OwnRef PersonType (StringId "p1")) "Age" = Some (PNumber (Num 32))
    /\ propertyOf r2 (OwnRef PersonType (StringId "p1")) "Age" = Some (PNumber (Num 33))
    /\ r1 <> r2.
Proof.
  eexists; eexists. split; [vm_compute; reflexivity|].
  split; [vm_compute; reflexivity|].
  split; [reflexivity|]. split; [reflexivity|]. discriminate.
Qed.

(** C9, amended: two runs of the people search, or of the friend
    expansion, over the same data set and with the same arguments return
    results with the same entity identifiers, the same links and the same
    values of every property other than 'Age', which is computed from the
    calendar year of the run; two runs in the same year return the same
    result.  Two runs of [getAll] whose fetches return the same rows
    return the same result. *)
Theorem two_runs_alike_but_age
    (Person Friendswith : ItemType) (people : list Example.IPerson)
    (getFullYear : string -> JSNumber) (year1 year2 : Z) :
  (forall term idFactory, exists r1 r2,
      Example.findPeople Person people getFullYear year1 term idFactory = Returned r1
      /\ Example.findPeople Person people getFullYear year2 term idFactory = Returned r2
      /\ alikeButAge r1 r2
      /\ (year1 = year2 -> r1 = r2))
  /\ (forall seeds extract idFactory, exists r1 r2,
      Example.getFriendsLinkedToSeeds Person Friendswith people getFullYear
        year1 seeds extract idFactory = Returned r1
      /\ Example.getFriendsLinkedToSeeds Person Friendswith people getFullYear
           year2 seeds extract idFactory = Returned r2
      /\ alikeButAge r1 r2
      /\ (year1 = year2 -> r1 = r2))
  /\ (forall href1 href2 fetch1 fetch2 data,
      NYPD.requestData fetch1 (NYPD.getUrl href1 [("$limit", "100")]) = Returned data ->
      NYPD.requestData fetch2 (NYPD.getUrl href2 [("$limit", "100")]) = Returned data ->
      exists r,
        NYPD.getAll href1 fetch1 = Returned r /\ NYPD.getAll href2 fetch2 = Returned r).
Proof.
  split; [|split].
  - intros term idFactory.
    destruct (findPeople_runs Person people getFullYear year1 term idFactory)
      as (r1 & H1 & _).
    destruct (findPeople_runs Person people getFullYear year2 term idFactory)
      as (r2 & H2 & _).
    exists r1, r2. split; [exact H1|]. split; [exact H2|]. split.
    + apply eraseAge_alike.
      now apply (findPeople_two_runs Person people getFullYear year1 year2
                   term idFactory).
    + intros <-. congruence.
  - intros seeds extract idFactory.
    destruct (getFriendsLinkedToSeeds_runs Person Friendswith people getFullYear
                year1 seeds extract idFactory) as (r1 & H1 & _).
    destruct (getFriendsLinkedToSeeds_runs Person Friendswith people getFullYear
                year2 seeds extract idFactory) as (r2 & H2 & _).
    exists r1, r2. split; [exact H1|]. split; [exact H2|]. split.
    + apply eraseAge_alike.
      now apply (getFriendsLinkedToSeeds_two_runs Person Friendswith people
                   getFullYear year1 year2 seeds extract idFactory).
    + intros <-. congruence.
  - intros href1 href2 fetch1 fetch2 data H1 H2.
    destruct (getAll_build_runs data) as (r & Hr & _).
    exists r. unfold NYPD.getAll. now rewrite H1, H2.
Qed.

Lemma two_runs_alike_but_age_witness :
  NYPD.requestData (fun _ => Returned oneRow)
    (NYPD.getUrl hrefPlain [("$limit", "100")]) = Returned [row100]
  /\ exists r,
       NYPD.getAll hrefPlain (fun _ => Returned oneRow) = Returned r
       /\ NYPD.getAll (fun b _ => b) (fun _ => Returned oneRow) = Returned r.
Proof.
  split; [reflexivity|].
  apply (proj2 (proj2 (two_runs_alike_but_age PersonType FriendswithType twoPeople
                         yearOfDate 2022 2023))
           hrefPlain (fun b _ => b) (fun _ => Returned oneRow)
           (fun _ => Returned oneRow) [row100] eq_refl eq_refl).
Defined.

(** * Further properties of the services *)

(** ** Growth of a result *)

Lemma grows_refl (r : Result) : grows nothing nothing r r.
Proof. split; intros k; unfold nothing; tauto. Qed.

Lemma grows_trans (E1 L1 E2 L2 : RecordRef -> Prop) (r r1 r2 : Result) :
  grows E1 L1 r r1 -> grows E2 L2 r1 r2 ->
  grows (fun k => E1 k \/ E2 k) (fun k => L1 k \/ L2 k) r r2.
Proof.
  intros [He1 Hl1] [He2 Hl2]. split; intros k.
  - rewrite He2, He1. tauto.
  - rewrite Hl2, Hl1. tauto.
Qed.

Lemma grows_equiv (E L E' L' : RecordRef -> Prop) (r r' : Result) :
  (forall k, E k <-> E' k) -> (forall k, L k <-> L' k) ->
  grows E L r r' -> grows E' L' r r'.
Proof.
  intros HE HL [He Hl]. split; intros k.
  - rewrite He, HE. tauto.
  - rewrite Hl, HL. tauto.
Qed.

Lemma built_grows (k : RecordRef) (s : ISourceReference) (r r' : Result) :
  built k s r r' -> grows (eq k) nothing r r'.
Proof.
  intros H. split; intros k0.
  - split.
    + intros Hk. apply hasEntity_In in Hk.
      destruct (built_refs _ _ _ _ H k0 Hk) as [Hold| ->]; [|now right].
      left. now apply hasEntity_In.
    + intros [Hk| <-]; [now apply (built_mono _ _ _ _ H) | apply (built_hasEntity _ _ _ _ H)].
  - rewrite (built_hasLink _ _ _ _ H). unfold nothing. tauto.
Qed.

Lemma linked_grows (k : RecordRef) (r r' : Result) :
  linked k r r' -> grows nothing (eq k) r r'.
Proof.
  intros H. split; intros k0.
  - rewrite (linked_hasEntity _ _ _ H). unfold nothing. tauto.
  - split.
    + intros Hk. apply hasLink_In in Hk. destruct H as (_ & Hr & _).
      rewrite Hr in Hk. apply in_app_or in Hk. destruct Hk as [Hk|Hk].
      * left. now apply hasLink_In.
      * destruct (hasLink k r); [contradiction|]. destruct Hk as [<-|[]]. now right.
    + intros [Hk| <-]; [now apply (linked_mono _ _ _ H) | apply (linked_hasLink _ _ _ H)].
Qed.

Lemma grows_hasEntity (E L : RecordRef -> Prop) (r r' : Result) (k : RecordRef) :
  grows E L r r' -> (hasEntity k r = true \/ E k) -> hasEntity k r' = true.
Proof. intros [He _] H. now apply He. Qed.

(** A loop gains what its rounds gain. *)
Lemma runs_forEach_grows {A : Type} (xs : list A) (body : A -> M unit)
    (I : Result -> Prop) (E L : A -> RecordRef -> Prop) :
  (forall x r, In x xs -> I r ->
     runs (body x) r (fun _ r' => I r' /\ grows (E x) (L x) r r')) ->
  forall r, I r ->
    runs (forEach xs body) r
      (fun _ r' => I r'
         /\ grows (fun k => exists x, In x xs /\ E x k)
                  (fun k => exists x, In x xs /\ L x k) r r').
Proof.
  induction xs as [|x xs IH]; intros Hbody r HI; simpl.
  - apply runs_ret. split; [exact HI|].
    split; intros k; (split; [now left | intros [H|(y & [] & _)]; exact H]).
  - eapply runs_bind; [apply Hbody; [now left | exact HI]|].
    cbv beta. intros u r1 [HI1 G1].
    eapply runs_weaken.
    + apply IH; [|exact HI1]. intros y r0 Hy. apply Hbody. now right.
    + cbv beta. intros u' r2 [HI2 G2]. split; [exact HI2|].
      eapply grows_equiv; [| |exact (grows_trans _ _ _ _ _ _ _ G1 G2)];
        intros k; cbv beta; split.
      * intros [H|(y & Hy & H)]; [exists x; split; [now left | exact H]|].
        exists y. split; [now right | exact H].
      * intros (y & [<-|Hy] & H); [now left | right; now exists y].
      * intros [H|(y & Hy & H)]; [exists x; split; [now left | exact H]|].
        exists y. split; [now right | exact H].
      * intros (y & [<-|Hy] & H); [now left | right; now exists y].
Qed.

Lemma grows_from_new (E L : RecordRef -> Prop) (r : Result) :
  grows E L Result_new r ->
  (forall k, hasEntity k r = true <-> E k) /\ (forall k, hasLink k r = true <-> L k).
Proof.
  intros [He Hl]. split; intros k.
  - rewrite He. simpl. split; [now intros [H|H] | now right].
  - rewrite Hl. simpl. split; [now intros [H|H] | now right].
Qed.

(** ** The effect of a computation on the graph *)

Lemma runs_and {A : Type} (m : M A) (r : Result) (P Q : A -> Result -> Prop) :
  runs m r P -> runs m r Q -> runs m r (fun a r' => P a r' /\ Q a r').
Proof.
  intros (a & r' & Hm & HP) (b & r'' & Hm' & HQ).
  rewrite Hm in Hm'. inversion Hm'; subst. exists b, r''. auto.
Qed.

Lemma effect_refl (r : Result) : effect nothing nothing noEnds 0 0 r r.
Proof.
  split; [apply grows_refl|]. split; [now left|]. split; lia.
Qed.

Lemma effect_trans (E1 L1 E2 L2 : RecordRef -> Prop)
    (T1 T2 : RecordRef * RecordRef * RecordRef -> Prop) (n1 m1 n2 m2 : nat)
    (r r1 r2 : Result) :
  effect E1 L1 T1 n1 m1 r r1 -> effect E2 L2 T2 n2 m2 r1 r2 ->
  effect (fun k => E1 k \/ E2 k) (fun k => L1 k \/ L2 k) (fun t => T1 t \/ T2 t)
    (n1 + n2) (m1 + m2) r r2.
Proof.
  intros (G1 & H1 & N1 & M1) (G2 & H2 & N2 & M2).
  split; [exact (grows_trans _ _ _ _ _ _ _ G1 G2)|]. split; [|split; lia].
  intros t Ht. destruct (H2 t Ht) as [Ht1|Ht2]; [|now right; right].
  destruct (H1 t Ht1) as [Ht0|Ht1']; [now left | now right; left].
Qed.

Lemma effect_weaken (E L E' L' : RecordRef -> Prop)
    (T T' : RecordRef * RecordRef * RecordRef -> Prop) (n m n' m' : nat)
    (r r' : Result) :
  (forall k, E k <-> E' k) -> (forall k, L k <-> L' k) ->
  (forall t, T t -> T' t) -> (n <= n')%nat -> (m <= m')%nat ->
  effect E L T n m r r' -> effect E' L' T' n' m' r r'.
Proof.
  intros HE HL HT Hn Hm (G & H & N & M).
  split; [exact (grows_equiv _ _ _ _ _ _ HE HL G)|]. split; [|split; lia].
  intros t Ht. destruct (H t Ht); auto.
Qed.

Lemma built_effect (k : RecordRef) (s : ISourceReference) (r r' : Result) :
  built k s r r' -> effect (eq k) nothing noEnds 1 0 r r'.
Proof.
  intros H. split; [now apply (built_grows _ s)|].
  pose proof (built_links _ _ _ _ H) as Hl. destruct H as (_ & Hr & _).
  split; [|split].
  - unfold linkEnds. rewrite Hl. now left.
  - apply (f_equal (@length _)) in Hr. unfold refs in Hr.
    rewrite length_app, !length_map in Hr. rewrite Hr.
    destruct (hasEntity k r); simpl; lia.
  - rewrite Hl. lia.
Qed.

Lemma linkEnds_updateLink (k : RecordRef) (f : LinkRecord -> LinkRecord) (r : Result) :
  (forall l, (l_ref (f l), l_from (f l), l_to (f l)) = (l_ref l, l_from l, l_to l)) ->
  forall r', updateLink k f r = Returned (tt, r') ->
    linkEnds r' = linkEnds r /\ length (links r') = length (links r)
    /\ entities r' = entities r.
Proof.
  intros Hf r' H. unfold updateLink in H. inversion H; subst. clear H.
  unfold linkEnds. simpl. rewrite length_map, map_map. repeat split.
  apply map_ext. intros l. destruct (sameRef k (l_ref l)); auto.
Qed.

Lemma addLinkRef_effect (k from to : RecordRef) (r : Result) :
  hasEntity from r = true ->
  hasEntity to r = true ->
  runs (addLinkRef k from to) r
    (fun a r' => a = k /\ effect nothing (eq k) (eq (k, from, to)) 0 1 r r').
Proof.
  intros Hf Ht.
  eapply runs_weaken;
    [apply runs_and; [apply (addLinkRef_runs k from to r Hf Ht)|]|].
  - unfold runs, addLinkRef. rewrite Hf, Ht. simpl.
    eexists; eexists. split; [reflexivity|].
    instantiate (1 := fun _ r' =>
      r' = if hasLink k r then r
           else mkResult (entities r) (links r ++ [mkLink k from to [] None])).
    reflexivity.
  - cbv beta. intros a r' [[-> HL] Hr']. split; [reflexivity|].
    split; [now apply linked_grows|].
    rewrite Hr'. destruct (hasLink k r); simpl.
    + split; [now left|]. split; lia.
    + unfold linkEnds. simpl. rewrite map_app, length_app. simpl.
      split; [|split; lia].
      intros t Hin. apply in_app_or in Hin. destruct Hin as [Hin|[<-|[]]]; auto.
Qed.

Lemma addLink_effect (t : ItemType) (id : string) (from to : RecordRef) (r : Result) :
  hasEntity from r = true ->
  hasEntity to r = true ->
  runs (NYPD.addLink t id from to) r
    (fun _ r' =>
       effect nothing (eq (OwnRef t (StringId id)))
         (eq (OwnRef t (StringId id), from, to)) 0 1 r r').
Proof.
  intros Hf Ht. unfold NYPD.addLink, Result_addLink.
  eapply runs_bind; [now apply addLinkRef_effect|].
  cbv beta. intros a r1 [-> (G & H & N & M)].
  destruct (Link_setSourceReference_runs (OwnRef t (StringId id))
              NYPD.exampleSourceRef r1) as ([] & r2 & Hrun & He & Hr & _).
  exists tt, r2. split; [exact Hrun|].
  destruct (linkEnds_updateLink (OwnRef t (StringId id))
              (fun l => mkLink (l_ref l) (l_from l) (l_to l) (l_properties l)
                          (Some NYPD.exampleSourceRef))
              r1 (fun l => eq_refl) r2 Hrun) as (Hends & Hlen & _).
  split; [|split; [|split]].
  - destruct G as [Ge Gl]. split; intros k.
    + unfold hasEntity. rewrite He. apply Ge.
    + rewrite <- Gl. rewrite !hasLink_In, Hr. tauto.
  - now rewrite Hends.
  - now rewrite He.
  - now rewrite Hlen.
Qed.

Section BindEffect.

Context {A B : Type}.
Variables (E1 L1 E2 L2 : RecordRef -> Prop).
Variables (T1 T2 : RecordRef * RecordRef * RecordRef -> Prop).
Variables (n1 m1 n2 m2 : nat).

Lemma runs_bind_effect (m : M A) (k : A -> M B) (r : Result)
    (P : A -> Prop) (Q : B -> Prop) :
  runs m r (fun a r1 => P a /\ effect E1 L1 T1 n1 m1 r r1) ->
  (forall a r1, P a -> effect E1 L1 T1 n1 m1 r r1 ->
     runs (k a) r1 (fun b r2 => Q b /\ effect E2 L2 T2 n2 m2 r1 r2)) ->
  runs (bind m k) r
    (fun b r2 => Q b
       /\ effect (fun k => E1 k \/ E2 k) (fun k => L1 k \/ L2 k)
            (fun t => T1 t \/ T2 t) (n1 + n2) (m1 + m2) r r2).
Proof.
  intros Hm Hk. eapply runs_bind; [exact Hm|].
  cbv beta. intros a r1 [HP H1].
  eapply runs_weaken; [now apply Hk|].
  cbv beta. intros b r2 [HQ H2]. split; [exact HQ|].
  exact (effect_trans _ _ _ _ _ _ _ _ _ _ _ _ _ H1 H2).
Qed.

End BindEffect.

(** A loop has the effects of its rounds. *)
Lemma runs_forEach_effect {A : Type} (xs : list A) (body : A -> M unit)
    (I : Result -> Prop) (E L : A -> RecordRef -> Prop)
    (T : A -> RecordRef * RecordRef * RecordRef -> Prop) (ne nl : A -> nat) :
  (forall x r, In x xs -> I r ->
     runs (body x) r (fun _ r' => I r' /\ effect (E x) (L x) (T x) (ne x) (nl x) r r')) ->
  forall r, I r ->
    runs (forEach xs body) r
      (fun _ r' =>
         I r'
         /\ effect (fun k => exists x, In x xs /\ E x k)
              (fun k => exists x, In x xs /\ L x k)
              (fun t => exists x, In x xs /\ T x t)
              (list_sum (map ne xs)) (list_sum (map nl xs)) r r').
Proof.
  induction xs as [|x xs IH]; intros Hbody r HI; simpl.
  - apply runs_ret. split; [exact HI|].
    apply (effect_weaken nothing nothing _ _ noEnds _ 0 0); try lia;
      [| | |apply effect_refl]; unfold nothing, noEnds.
    + intros k. split; [tauto | now intros (y & [] & _)].
    + intros k. split; [tauto | now intros (y & [] & _)].
    + tauto.
  - eapply runs_bind; [apply Hbody; [now left | exact HI]|].
    cbv beta. intros u r1 [HI1 H1].
    eapply runs_weaken.
    + apply IH; [|exact HI1]. intros y r0 Hy. apply Hbody. now right.
    + cbv beta. intros u' r2 [HI2 H2]. split; [exact HI2|].
      eapply effect_weaken; [| | | | |exact (effect_trans _ _ _ _ _ _ _ _ _ _ _ _ _ H1 H2)];
        try lia; cbv beta.
      * intros k. split.
        -- intros [H|(y & Hy & H)]; [exists x; split; [now left | exact H]|].
           exists y. split; [now right | exact H].
        -- intros (y & [<-|Hy] & H); [now left | right; now exists y].
      * intros k. split.
        -- intros [H|(y & Hy & H)]; [exists x; split; [now left | exact H]|].
           exists y. split; [now right | exact H].
        -- intros (y & [<-|Hy] & H); [now left | right; now exists y].
      * intros t [H|(y & Hy & H)]; [exists x; split; [now left | exact H]|].
        exists y. split; [now right | exact H].
Qed.

Lemma list_sum_const {A : Type} (c : nat) (xs : list A) :
  list_sum (map (fun _ => c) xs) = (c * length xs)%nat.
Proof. induction xs as [|x xs IH]; simpl; lia. Qed.

Lemma effect_from_new (E L : RecordRef -> Prop)
    (T : RecordRef * RecordRef * RecordRef -> Prop) (ne nl : nat) (r : Result) :
  effect E L T ne nl Result_new r ->
  (forall k, hasEntity k r = true <-> E k)
  /\ (forall k, hasLink k r = true <-> L k)
  /\ (forall t, In t (linkEnds r) -> T t)
  /\ (length (entities r) <= ne)%nat
  /\ (length (links r) <= nl)%nat.
Proof.
  intros (G & H & N & M). destruct (grows_from_new _ _ _ G) as [He Hl].
  repeat split; try apply He; try apply Hl; simpl in *; try lia.
  intros t Ht. destruct (H t Ht) as [[]|Ht']. exact Ht'.
Qed.

(** ** The NYPD connector: what its services return *)

Ltac present :=
  repeat match goal with
    | G : effect _ _ _ _ _ _ ?r |- hasEntity _ ?r = true =>
        apply (grows_hasEntity _ _ _ _ _ (proj1 G));
        first [ right; reflexivity | left ]
    end;
  try assumption.

Ltac settle_effect :=
  cbv beta; unfold nothing, noEnds;
  first [ lia
        | intros ?; intuition (subst; auto); try congruence ].

Lemma addLocation_effect (d : NYPD.IComplaintDto) (r : Result) :
  runs (NYPD.addLocation d) r
    (fun a r' => a = locationRef d /\ effect (eq (locationRef d)) nothing noEnds 1 0 r r').
Proof.
  eapply runs_weaken; [apply addLocation_runs|].
  cbv beta. intros a r' [-> H]. split; [reflexivity | now apply (built_effect _ _ _ _ H)].
Qed.

Lemma addComplaint_effect (d : NYPD.IComplaintDto) (r : Result) :
  runs (NYPD.addComplaint d) r
    (fun a r' => a = complaintRef d /\ effect (eq (complaintRef d)) nothing noEnds 1 0 r r').
Proof.
  eapply runs_weaken; [apply addComplaint_runs|].
  cbv beta. intros a r' [-> H]. split; [reflexivity | now apply (built_effect _ _ _ _ H)].
Qed.

Lemma addSuspect_effect (d : NYPD.IComplaintDto) (r : Result) :
  runs (NYPD.addSuspect d) r
    (fun a r' => a = suspectRef d /\ effect (eq (suspectRef d)) nothing noEnds 1 0 r r').
Proof.
  eapply runs_weaken; [apply addSuspect_runs|].
  cbv beta. intros a r' [-> H]. split; [reflexivity | now apply (built_effect _ _ _ _ H)].
Qed.

Lemma addVictim_effect (d : NYPD.IComplaintDto) (r : Result) :
  runs (NYPD.addVictim d) r
    (fun a r' => a = victimRef d /\ effect (eq (victimRef d)) nothing noEnds 1 0 r r').
Proof.
  eapply runs_weaken; [apply addVictim_runs|].
  cbv beta. intros a r' [-> H]. split; [reflexivity | now apply (built_effect _ _ _ _ H)].
Qed.

Lemma addLink_step (t : ItemType) (id : string) (from to : RecordRef) (r : Result) :
  hasEntity from r = true ->
  hasEntity to r = true ->
  runs (NYPD.addLink t id from to) r
    (fun _ r' =>
       True /\ effect nothing (eq (OwnRef t (StringId id)))
                 (eq (OwnRef t (StringId id), from, to)) 0 1 r r').
Proof.
  intros Hf Ht. eapply runs_weaken; [now apply addLink_effect|].
  cbv beta. intros u r' H. now split.
Qed.

(** The three links of a row, once the entities they join are there. *)
Lemma row_links_effect (d : NYPD.IComplaintDto) (complaint location : RecordRef)
    (r : Result) :
  hasEntity complaint r = true ->
  hasEntity location r = true ->
  hasEntity (suspectRef d) r = true ->
  hasEntity (victimRef d) r = true ->
  runs (NYPD.addLink NYPD.Locatedat (NYPD.cmplnt_num d) complaint location ;;;
        NYPD.addLink NYPD.Victimof (NYPD.cmplnt_num d) (victimRef d) complaint ;;;
        NYPD.addLink NYPD.Suspectof (NYPD.cmplnt_num d) (suspectRef d) complaint) r
    (fun _ r' =>
       True /\ effect nothing (rowLinks d) (endsAround complaint location d) 0 3 r r').
Proof.
  intros Hc Hl Hs Hv.
  eapply runs_weaken.
  - eapply runs_bind_effect; [now apply addLink_step|]. intros ? r1 _ G1.
    eapply runs_bind_effect; [apply addLink_step; present|]. intros ? r2 _ G2.
    apply addLink_step; present.
  - cbv beta. intros u r' [_ H]. split; [exact I|].
    eapply effect_weaken; [| | | | |exact H];
      unfold rowLinks, endsAround, linkRefOf; settle_effect.
Qed.

Lemma getAll_row_effect (d : NYPD.IComplaintDto) (r : Result) :
  runs (NYPD.getAll_row d) r
    (fun _ r' => effect (rowEntities d) (rowLinks d) (rowEnds d) 4 3 r r').
Proof.
  unfold NYPD.getAll_row. eapply runs_weaken.
  - eapply runs_bind_effect; [apply addLocation_effect|]. intros ? r1 -> G1.
    eapply runs_bind_effect; [apply addComplaint_effect|]. intros ? r2 -> G2.
    eapply runs_bind_effect; [apply addSuspect_effect|]. intros ? r3 -> G3.
    eapply runs_bind_effect; [apply addVictim_effect|]. intros ? r4 -> G4.
    apply row_links_effect; present.
  - cbv beta. intros u r' [_ H].
    eapply effect_weaken; [| | | | |exact H];
      unfold rowEntities, rowEnds; settle_effect.
Qed.

(** X1: the result of [getAll] holds exactly the entities and the links
    that its rows stand for: an entity is in the result if and only if
    it is the location, the complaint, the suspect or the victim of a
    fetched row, a link if and only if it is the Locatedat, Victimof or
    Suspectof link of a row, and every link joins the records of one
    row. *)
Theorem getAll_graph_of_rows (data : list NYPD.IComplaintDto) :
  exists r,
    run (NYPD.getAll_build data) = Returned r
    /\ (forall k, hasEntity k r = true <-> exists d, In d data /\ rowEntities d k)
    /\ (forall k, hasLink k r = true <-> exists d, In d data /\ rowLinks d k)
    /\ (forall t, In t (linkEnds r) -> exists d, In d data /\ rowEnds d t).
Proof.
  apply run_runs. unfold NYPD.getAll_build.
  eapply runs_weaken.
  - apply (runs_forEach_effect data NYPD.getAll_row (fun _ => True)
             rowEntities rowLinks rowEnds (fun _ => 4%nat) (fun _ => 3%nat));
      [|exact I].
    intros d r _ _. eapply runs_weaken; [apply getAll_row_effect|].
    cbv beta. intros u r' H. now split.
  - cbv beta. intros u r [_ H].
    destruct (effect_from_new _ _ _ _ _ _ H) as (He & Hl & Ht & _). auto.
Qed.

(** X2: [getAll] returns at most four entities and three links for each
    fetched row. *)
Theorem getAll_size (data : list NYPD.IComplaintDto) :
  exists r,
    run (NYPD.getAll_build data) = Returned r
    /\ (length (entities r) <= 4 * length data)%nat
    /\ (length (links r) <= 3 * length data)%nat.
Proof.
  apply run_runs. unfold NYPD.getAll_build.
  eapply runs_weaken.
  - apply (runs_forEach_effect data NYPD.getAll_row (fun _ => True)
             rowEntities rowLinks rowEnds (fun _ => 4%nat) (fun _ => 3%nat));
      [|exact I].
    intros d r _ _. eapply runs_weaken; [apply getAll_row_effect|].
    cbv beta. intros u r' H. now split.
  - cbv beta. intros u r [_ H].
    destruct (effect_from_new _ _ _ _ _ _ H) as (_ & _ & _ & Hn & Hm).
    rewrite list_sum_const in Hn, Hm. auto.
Qed.

Lemma addEntityRef_effect (k : RecordRef) (r : Result) :
  runs (addEntityRef k) r
    (fun a r' => a = k /\ effect (eq k) nothing noEnds 1 0 r r').
Proof.
  eapply runs_weaken; [apply addEntityRef_runs|].
  cbv beta. intros a r' [-> (Hl & Hr & _)]. split; [reflexivity|].
  assert (Hin : forall k0, In k0 (refs r') <-> In k0 (refs r) \/ k = k0).
  { intros k0. rewrite Hr, in_app_iff. destruct (hasEntity k r) eqn:Hk; simpl.
    - apply hasEntity_In in Hk. split; [tauto|]. intros [H| <-]; auto.
    - tauto. }
  split; [|split; [|split]].
  - split; intros k0.
    + rewrite !hasEntity_In. apply Hin.
    + unfold hasLink. rewrite Hl. unfold nothing. tauto.
  - unfold linkEnds. rewrite Hl. now left.
  - apply (f_equal (@length _)) in Hr. unfold refs in Hr.
    rewrite length_app, !length_map in Hr. rewrite Hr.
    destruct (hasEntity k r); simpl; lia.
  - rewrite Hl. lia.
Qed.

(** The loop of the two complaint searches. *)
Lemma complaints_loop (data : list NYPD.IComplaintDto) :
  exists r,
    run (forEach data (fun datum => NYPD.addComplaint datum ;;; ret tt)) = Returned r
    /\ (forall k, hasEntity k r = true <-> exists d, In d data /\ k = complaintRef d)
    /\ links r = []
    /\ entitiesSourced r
    /\ (length (entities r) <= length data)%nat.
Proof.
  apply run_runs. eapply runs_weaken.
  - apply (runs_forEach_effect data _ entitiesSourced
             (fun d k => k = complaintRef d) (fun _ => nothing) (fun _ => noEnds)
             (fun _ => 1%nat) (fun _ => 0%nat)).
    + intros d r _ Hs.
      eapply runs_bind; [apply addComplaint_runs|]. cbv beta. intros a r1 [-> B].
      apply runs_ret. split; [now apply (built_sourced _ _ _ _ B)|].
      eapply effect_weaken; [| | | | |exact (built_effect _ _ _ _ B)]; settle_effect.
    + intros e [].
  - cbv beta. intros u r [Hs H].
    destruct (effect_from_new _ _ _ _ _ _ H) as (He & _ & _ & Hn & Hm).
    rewrite list_sum_const in Hn, Hm. repeat split.
    + apply He.
    + apply He.
    + destruct (links r); [reflexivity | simpl in Hm; lia].
    + exact Hs.
    + lia.
Qed.



Lemma ret_effect {A : Type} (a : A) (r : Result) :
  runs (ret a) r (fun b r' => b = a /\ effect nothing nothing noEnds 0 0 r r').
Proof. apply runs_ret. split; [reflexivity | apply effect_refl]. Qed.

Lemma expand_row_complaint_effect (seed : ISeedEntityRecord) (d : NYPD.IComplaintDto)
    (r : Result) :
  seedType seed = NYPD.Complaint ->
  hasEntity (SeedRef (seedId seed)) r = true ->
  runs (NYPD.expand_row seed (SeedRef (seedId seed)) d) r
    (fun _ r' =>
       hasEntity (SeedRef (seedId seed)) r' = true
       /\ effect (personsAndLocation d) (rowLinks d)
            (endsAround (SeedRef (seedId seed)) (locationRef d) d) 3 3 r r').
Proof.
  intros Hty Hseed. unfold NYPD.expand_row, Seed_isType. rewrite Hty. simpl.
  eapply runs_weaken.
  - eapply runs_bind_effect.
    { apply ret_effect. }
    intros ? r0 -> G0.
    eapply runs_bind_effect; [apply addLocation_effect|]. intros ? r1 -> G1.
    eapply runs_bind_effect; [apply addSuspect_effect|]. intros ? r2 -> G2.
    eapply runs_bind_effect; [apply addVictim_effect|]. intros ? r3 -> G3.
    apply row_links_effect; present.
  - cbv beta. intros u r' [_ H]. split.
    + apply (grows_hasEntity _ _ _ _ _ (proj1 H)). now left.
    + eapply effect_weaken; [| | | | |exact H];
        unfold personsAndLocation; settle_effect.
Qed.

Lemma expand_row_location_effect (seed : ISeedEntityRecord) (d : NYPD.IComplaintDto)
    (r : Result) :
  seedType seed = NYPD.Location ->
  hasEntity (SeedRef (seedId seed)) r = true ->
  runs (NYPD.expand_row seed (SeedRef (seedId seed)) d) r
    (fun _ r' =>
       hasEntity (SeedRef (seedId seed)) r' = true
       /\ effect (personsAndComplaint d) (rowLinks d)
            (endsAround (complaintRef d) (SeedRef (seedId seed)) d) 3 3 r r').
Proof.
  intros Hty Hseed. unfold NYPD.expand_row, Seed_isType. rewrite Hty. simpl.
  eapply runs_weaken.
  - eapply runs_bind_effect; [apply addComplaint_effect|]. intros ? r1 -> G1.
    eapply runs_bind_effect.
    { apply ret_effect. }
    intros ? r0 -> G0.
    eapply runs_bind_effect; [apply addSuspect_effect|]. intros ? r2 -> G2.
    eapply runs_bind_effect; [apply addVictim_effect|]. intros ? r3 -> G3.
    apply row_links_effect; present.
  - cbv beta. intros u r' [_ H]. split.
    + apply (grows_hasEntity _ _ _ _ _ (proj1 H)). now left.
    + eapply effect_weaken; [| | | | |exact H];
        unfold personsAndComplaint; settle_effect.
Qed.

(** The seed is wrapped, then the rows are added around it. *)
Lemma around_seed_runs (seed : ISeedEntityRecord) (data : list NYPD.IComplaintDto)
    (row : RecordRef -> NYPD.IComplaintDto -> M unit)
    (E L : NYPD.IComplaintDto -> RecordRef -> Prop)
    (T : NYPD.IComplaintDto -> RecordRef * RecordRef * RecordRef -> Prop)
    (ne nl : nat) :
  (forall d r, hasEntity (SeedRef (seedId seed)) r = true ->
     runs (row (SeedRef (seedId seed)) d) r
       (fun _ r' => hasEntity (SeedRef (seedId seed)) r' = true
                    /\ effect (E d) (L d) (T d) ne nl r r')) ->
  exists r,
    run (seedEntity <- Result_addEntityFromSeed seed ;; forEach data (row seedEntity))
    = Returned r
    /\ (forall k, hasEntity k r = true <->
          k = SeedRef (seedId seed) \/ exists d, In d data /\ E d k)
    /\ (forall k, hasLink k r = true <-> exists d, In d data /\ L d k)
    /\ (forall t, In t (linkEnds r) -> exists d, In d data /\ T d t)
    /\ (length (entities r) <= 1 + ne * length data)%nat
    /\ (length (links r) <= nl * length data)%nat.
Proof.
  intros Hrow. apply run_runs. unfold Result_addEntityFromSeed.
  eapply runs_weaken.
  - eapply runs_bind_effect; [apply addEntityRef_effect|]. intros ? r1 -> G1.
    eapply runs_weaken.
    + apply (runs_forEach_effect data (row (SeedRef (seedId seed)))
               (fun r => hasEntity (SeedRef (seedId seed)) r = true)
               E L T (fun _ => ne) (fun _ => nl)).
      * intros d r _ Hs. now apply Hrow.
      * apply (grows_hasEntity _ _ _ _ _ (proj1 G1)). now right.
    + cbv beta. intros u r2 [_ H]. split; [exact I | exact H].
  - cbv beta. intros u r [_ H].
    destruct (effect_from_new _ _ _ _ _ _ H) as (He & Hl & Ht & Hn & Hm).
    rewrite list_sum_const in Hn, Hm. repeat split.
    + intros Hk. apply He in Hk. destruct Hk as [<-|Hk]; auto.
    + intros [->|Hk]; apply He; auto.
    + intros Hk. apply Hl in Hk. unfold nothing in Hk. tauto.
    + intros Hk. apply Hl. now right.
    + intros t Hin. destruct (Ht t Hin) as [[]|Hd]. exact Hd.
    + lia.
    + lia.
Qed.

(** X4: for a Complaint seed and a successful request, [expand] wraps the
    seed and adds around it the location, the suspect and the victim of
    every fetched row; the seed stands for the complaint at the end of
    every link, and no Complaint entity is created. *)
Theorem expand_complaint_seed
    (href : string -> list (string * string) -> string)
    (fetch : string -> outcome NYPD.Response)
    (seed : ISeedEntityRecord) (others : list ISeedEntityRecord)
    (data : list NYPD.IComplaintDto) :
  seedType seed = NYPD.Complaint ->
  NYPD.requestData fetch
    (NYPD.getUrl href (("$limit", "50") :: NYPD.expand_query seed)) = Returned data ->
  exists r,
    NYPD.expand href fetch (mkSeeds (seed :: others)) = Returned r
    /\ (forall k, hasEntity k r = true <->
          k = SeedRef (seedId seed) \/ exists d, In d data /\ personsAndLocation d k)
    /\ (forall k, hasLink k r = true <-> exists d, In d data /\ rowLinks d k)
    /\ (forall t, In t (linkEnds r) ->
          exists d, In d data /\ endsAround (SeedRef (seedId seed)) (locationRef d) d t)
    /\ (forall id, hasEntity (OwnRef NYPD.Complaint id) r = false).
Proof.
  intros Hty Hreq. unfold NYPD.expand. simpl seedEntities. cbv iota.
  rewrite Hreq. unfold Seed_isType at 1. rewrite Hty. simpl.
  destruct (around_seed_runs seed data (NYPD.expand_row seed)
              personsAndLocation rowLinks
              (fun d => endsAround (SeedRef (seedId seed)) (locationRef d) d) 3 3)
    as (r & Hr & He & Hl & Ht & _).
  { intros d r0 Hs. now apply expand_row_complaint_effect. }
  exists r. split; [exact Hr|]. split; [exact He|]. split; [exact Hl|].
  split; [exact Ht|].
  intros id. destruct (hasEntity (OwnRef NYPD.Complaint id) r) eqn:Hk; [|reflexivity].
  apply He in Hk. destruct Hk as [Hk|(d & _ & [Hk|[Hk|Hk]])]; discriminate.
Qed.

Lemma expand_complaint_seed_witness :
  exists r,
    NYPD.expand hrefPlain (fun _ => Returned oneRow) (mkSeeds [complaintSeed])
    = Returned r
    /\ hasEntity (OwnRef NYPD.Complaint (StringId "Complaint: 100")) r = false
    /\ hasEntity (SeedRef "seed-c") r = true.
Proof.
  destruct (expand_complaint_seed hrefPlain (fun _ => Returned oneRow)
              complaintSeed [] [row100] eq_refl eq_refl) as (r & Hr & He & _ & _ & Hc).
  exists r. split; [exact Hr|]. split; [apply Hc|]. apply He. now left.
Defined.

(** X5: for a Location seed and a successful request, [expand] wraps the
    seed and adds the complaint, the suspect and the victim of every
    fetched row; every Locatedat link leads from a row's complaint to the
    seed, and no Location entity is created. *)
Theorem expand_location_seed
    (href : string -> list (string * string) -> string)
    (fetch : string -> outcome NYPD.Response)
    (seed : ISeedEntityRecord) (others : list ISeedEntityRecord)
    (data : list NYPD.IComplaintDto) :
  seedType seed = NYPD.Location ->
  NYPD.requestData fetch
    (NYPD.getUrl href (("$limit", "50") :: NYPD.expand_query seed)) = Returned data ->
  exists r,
    NYPD.expand href fetch (mkSeeds (seed :: others)) = Returned r
    /\ (forall k, hasEntity k r = true <->
          k = SeedRef (seedId seed) \/ exists d, In d data /\ personsAndComplaint d k)
    /\ (forall k, hasLink k r = true <-> exists d, In d data /\ rowLinks d k)
    /\ (forall t, In t (linkEnds r) ->
          exists d, In d data /\ endsAround (complaintRef d) (SeedRef (seedId seed)) d t)
    /\ (forall id, hasEntity (OwnRef NYPD.Location id) r = false).
Proof.
  intros Hty Hreq. unfold NYPD.expand. simpl seedEntities. cbv iota.
  rewrite Hreq. unfold Seed_isType at 1. rewrite Hty. simpl.
  destruct (around_seed_runs seed data (NYPD.expand_row seed)
              personsAndComplaint rowLinks
              (fun d => endsAround (complaintRef d) (SeedRef (seedId seed)) d) 3 3)
    as (r & Hr & He & Hl & Ht & _).
  { intros d r0 Hs. now apply expand_row_location_effect. }
  exists r. split; [exact Hr|]. split; [exact He|]. split; [exact Hl|].
  split; [exact Ht|].
  intros id. destruct (hasEntity (OwnRef NYPD.Location id) r) eqn:Hk; [|reflexivity].
  apply He in Hk. destruct Hk as [Hk|(d & _ & [Hk|[Hk|Hk]])]; discriminate.
Qed.

Lemma expand_location_seed_witness :
  exists r,
    NYPD.expand hrefPlain (fun _ => Returned oneRow) (mkSeeds [locationSeed])
    = Returned r
    /\ hasEntity (OwnRef NYPD.Location (StringId "Borough: BROOKLYN Precinct: 1")) r
       = false
    /\ hasEntity (OwnRef NYPD.Complaint (StringId "Complaint: 100")) r = true.
Proof.
  destruct (expand_location_seed hrefPlain (fun _ => Returned oneRow)
              locationSeed [] [row100] eq_refl eq_refl) as (r & Hr & He & _ & _ & Hc).
  exists r. split; [exact Hr|]. split; [apply Hc|]. apply He. right.
  exists row100. split; [now left | now left].
Defined.





(** ** The example connector: what its services return *)

Section ExampleEffects.

Variables Person Friendswith : ItemType.
Variable people : list Example.IPerson.
Variable localeCompare : string -> string -> Z.
Variable getFullYear : string -> JSNumber.

Lemma addPersonToResult_effect (thisYear : Z) (p : Example.IPerson)
    (idFactory : option (string -> ResultRecordIdType)) (r : Result) :
  runs (Example.addPersonToResult Person getFullYear thisYear p idFactory) r
    (fun a r' => a = personRef Person idFactory p
       /\ effect (eq (personRef Person idFactory p)) nothing noEnds 1 0 r r').
Proof.
  eapply runs_weaken; [apply addPersonToResult_runs|].
  cbv beta. intros a r' [-> H]. split; [reflexivity | now apply (built_effect _ _ _ _ H)].
Qed.

(** The loop of the two people searches. *)
Lemma people_loop (thisYear : Z) (predicate : Example.IPerson -> bool)
    (idFactory : option (string -> ResultRecordIdType)) :
  exists r,
    run (forEach (Example.lookupPeople people predicate)
           (fun person =>
              Example.addPersonToResult Person getFullYear thisYear person idFactory ;;;
              ret tt)) = Returned r
    /\ (forall k, hasEntity k r = true <->
          exists p, In p people /\ predicate p = true
                    /\ k = personRef Person idFactory p)
    /\ links r = []
    /\ NoDup (refs r)
    /\ (length (entities r) <= length people)%nat.
Proof.
  apply run_runs. eapply runs_weaken.
  - apply (runs_forEach_effect (Example.lookupPeople people predicate) _
             (fun r => NoDup (refs r))
             (fun p k => k = personRef Person idFactory p)
             (fun _ => nothing) (fun _ => noEnds)
             (fun _ => 1%nat) (fun _ => 0%nat)).
    + intros p r _ Hn.
      eapply runs_bind; [apply addPersonToResult_runs|]. cbv beta. intros a r1 [-> B].
      apply runs_ret. split; [now apply (built_NoDup _ _ _ _ B)|].
      eapply effect_weaken; [| | | | |exact (built_effect _ _ _ _ B)]; settle_effect.
    + constructor.
  - cbv beta. intros u r [Hnd H].
    destruct (effect_from_new _ _ _ _ _ _ H) as (He & _ & _ & Hn & Hm).
    rewrite list_sum_const in Hn, Hm. repeat split.
    + intros Hk. apply He in Hk. destruct Hk as (p & Hp & ->).
      apply filter_In in Hp. destruct Hp as [Hp Hpred]. now exists p.
    + intros (p & Hp & Hpred & ->). apply He. exists p. split; [|reflexivity].
      apply filter_In. now split.
    + destruct (links r); [reflexivity | simpl in Hm; lia].
    + exact Hnd.
    + unfold Example.lookupPeople in Hn.
      pose proof (filter_length_le predicate people). lia.
Qed.

Lemma friendLink_effect (id : ResultRecordIdType) (from to : RecordRef) (r : Result) :
  hasEntity from r = true ->
  hasEntity to r = true ->
  runs (match id with
        | StringId s => Result_addLink Friendswith s from to
        | SourceId i => Result_addLinkWithSourceIdentifier Friendswith i from to
        end) r
    (fun _ r' =>
       True /\ effect nothing (eq (OwnRef Friendswith id))
                 (eq (OwnRef Friendswith id, from, to)) 0 1 r r').
Proof.
  intros Hf Ht.
  destruct id as [s|i]; unfold Result_addLink, Result_addLinkWithSourceIdentifier;
    (eapply runs_weaken; [now apply addLinkRef_effect|]);
    cbv beta; intros a r' [_ H]; now split.
Qed.

Lemma linkFriend_effect (thisYear : Z)
    (idFactory : option (string -> ResultRecordIdType))
    (p q : Example.IPerson) (r : Result) :
  runs (Example.linkFriend Person Friendswith getFullYear thisYear idFactory p q) r
    (fun _ r' =>
       True
       /\ effect
            (fun k => k = personRef Person idFactory p \/ k = personRef Person idFactory q)
            (fun k => k = friendLinkRef Friendswith idFactory p q)
            (fun t => t = (friendLinkRef Friendswith idFactory p q,
                           personRef Person idFactory p,
                           personRef Person idFactory q))
            2 1 r r').
Proof.
  unfold Example.linkFriend. eapply runs_weaken.
  - eapply runs_bind_effect; [apply addPersonToResult_effect|]. intros ? r1 -> G1.
    eapply runs_bind_effect; [apply addPersonToResult_effect|]. intros ? r2 -> G2.
    eapply runs_bind_effect; [apply friendLink_effect; present|].
    intros ? r3 _ G3. apply (ret_effect tt).
  - cbv beta. intros u r' [_ H]. split; [exact I|].
    eapply effect_weaken; [| | | | |exact H]; unfold friendLinkRef; settle_effect.
Qed.

Lemma getFriendsLinkedToSeeds_graph (thisYear : Z) (seeds : ISeeds)
    (extract : ISeedEntityRecord -> list string)
    (idFactory : option (string -> ResultRecordIdType)) :
  exists r,
    Example.getFriendsLinkedToSeeds Person Friendswith people getFullYear
      thisYear seeds extract idFactory = Returned r
    /\ (forall k, hasEntity k r = true <->
          exists p q, befriended people extract seeds p q
                      /\ (k = personRef Person idFactory p
                          \/ k = personRef Person idFactory q))
    /\ (forall k, hasLink k r = true <->
          exists p q, befriended people extract seeds p q
                      /\ k = friendLinkRef Friendswith idFactory p q)
    /\ (forall t, In t (linkEnds r) ->
          exists p q, befriended people extract seeds p q
                      /\ t = (friendLinkRef Friendswith idFactory p q,
                              personRef Person idFactory p,
                              personRef Person idFactory q)).
Proof.
  set (friendsOf := fun p : Example.IPerson =>
         Example.lookupPeople people
           (fun friend => Set_has (Example.friends p) (Example.id friend))).
  set (peopleOf := fun seed : ISeedEntityRecord =>
         Example.lookupPeople people
           (fun person => Set_has (extract seed) (Example.id person))).
  set (E := fun (p q : Example.IPerson) (k : RecordRef) =>
         k = personRef Person idFactory p \/ k = personRef Person idFactory q).
  set (L := fun (p q : Example.IPerson) (k : RecordRef) =>
         k = friendLinkRef Friendswith idFactory p q).
  set (T := fun (p q : Example.IPerson) (t : RecordRef * RecordRef * RecordRef) =>
         t = (friendLinkRef Friendswith idFactory p q,
              personRef Person idFactory p, personRef Person idFactory q)).
  set (n2 := fun p : Example.IPerson => list_sum (map (fun _ => 2%nat) (friendsOf p))).
  set (n1 := fun p : Example.IPerson => list_sum (map (fun _ => 1%nat) (friendsOf p))).
  assert (Hinner : forall p r,
            runs (forEach (friendsOf p)
                    (Example.linkFriend Person Friendswith getFullYear thisYear
                       idFactory p)) r
              (fun _ r' =>
                 True
                 /\ effect (fun k => exists q, In q (friendsOf p) /\ E p q k)
                      (fun k => exists q, In q (friendsOf p) /\ L p q k)
                      (fun t => exists q, In q (friendsOf p) /\ T p q t)
                      (n2 p) (n1 p) r r')).
  { intros p r.
    apply (runs_forEach_effect (friendsOf p) _ (fun _ => True)
             (E p) (L p) (T p) (fun _ => 2%nat) (fun _ => 1%nat)); [|exact I].
    intros q r0 _ _. apply linkFriend_effect. }
  assert (Hmiddle : forall seed r,
            runs (forEach (peopleOf seed) (fun p =>
                    forEach (friendsOf p)
                      (Example.linkFriend Person Friendswith getFullYear thisYear
                         idFactory p))) r
              (fun _ r' =>
                 True
                 /\ effect
                      (fun k => exists p, In p (peopleOf seed)
                         /\ exists q, In q (friendsOf p) /\ E p q k)
                      (fun k => exists p, In p (peopleOf seed)
                         /\ exists q, In q (friendsOf p) /\ L p q k)
                      (fun t => exists p, In p (peopleOf seed)
                         /\ exists q, In q (friendsOf p) /\ T p q t)
                      (list_sum (map n2 (peopleOf seed)))
                      (list_sum (map n1 (peopleOf seed))) r r')).
  { intros seed r.
    apply (runs_forEach_effect (peopleOf seed) _ (fun _ => True)
             (fun p k => exists q, In q (friendsOf p) /\ E p q k)
             (fun p k => exists q, In q (friendsOf p) /\ L p q k)
             (fun p t => exists q, In q (friendsOf p) /\ T p q t)
             n2 n1); [|exact I].
    intros p r0 _ _. apply Hinner. }
  assert (Hbf : forall p q,
            befriended people extract seeds p q <->
            exists seed, In seed (seedEntities seeds)
              /\ In p (peopleOf seed) /\ In q (friendsOf p)).
  { intros p q. unfold befriended, peopleOf, friendsOf, Example.lookupPeople. split.
    - intros (seed & Hs & Hp & Hip & Hq & Hiq). exists seed.
      rewrite !filter_In, !Set_has_In. auto.
    - intros (seed & Hs & Hp & Hq). exists seed.
      rewrite !filter_In, !Set_has_In in *. tauto. }
  apply run_runs. eapply runs_weaken.
  - apply (runs_forEach_effect (seedEntities seeds) _ (fun _ => True)
             (fun seed k => exists p, In p (peopleOf seed)
                /\ exists q, In q (friendsOf p) /\ E p q k)
             (fun seed k => exists p, In p (peopleOf seed)
                /\ exists q, In q (friendsOf p) /\ L p q k)
             (fun seed t => exists p, In p (peopleOf seed)
                /\ exists q, In q (friendsOf p) /\ T p q t)
             (fun seed => list_sum (map n2 (peopleOf seed)))
             (fun seed => list_sum (map n1 (peopleOf seed))));
      [|exact I].
    intros seed r0 _ _. apply Hmiddle.
  - cbv beta. intros u r [_ H].
    destruct (effect_from_new _ _ _ _ _ _ H) as (He & Hl & Ht & _).
    split; [|split].
    + intros k. rewrite He. split.
      * intros (seed & Hs & p & Hp & q & Hq & Hk). exists p, q.
        split; [apply Hbf; now exists seed | exact Hk].
      * intros (p & q & Hb & Hk). apply Hbf in Hb.
        destruct Hb as (seed & Hs & Hp & Hq). exists seed. split; [exact Hs|].
        exists p. split; [exact Hp|]. now exists q.
    + intros k. rewrite Hl. split.
      * intros (seed & Hs & p & Hp & q & Hq & Hk). exists p, q.
        split; [apply Hbf; now exists seed | exact Hk].
      * intros (p & q & Hb & Hk). apply Hbf in Hb.
        destruct Hb as (seed & Hs & Hp & Hq). exists seed. split; [exact Hs|].
        exists p. split; [exact Hp|]. now exists q.
    + intros t Hin. destruct (Ht t Hin) as (seed & Hs & p & Hp & q & Hq & Hk).
      exists p, q. split; [apply Hbf; now exists seed | exact Hk].
Qed.

End ExampleEffects.

(** X7: the people search returns one Person entity for each person of the
    data set whose forename or surname contains the term, whatever the
    case, or for everybody when the term is "*": an entity is in the
    result if and only if it is the entity of such a person.  The result
    has no link and no two entities with the same identifier. *)
Theorem findPeople_returns_matches
    (Person : ItemType) (people : list Example.IPerson)
    (getFullYear : string -> JSNumber) (thisYear : Z) (term : string)
    (idFactory : option (string -> ResultRecordIdType)) :
  exists r,
    Example.findPeople Person people getFullYear thisYear term idFactory = Returned r
    /\ (forall k, hasEntity k r = true <->
          exists p, In p people /\ Example.findPeople_predicate term p = true
                    /\ k = personRef Person idFactory p)
    /\ links r = []
    /\ NoDup (refs r)
    /\ (length (entities r) <= length people)%nat
    /\ (term = Example.wildcardSearchTerm ->
        forall p, In p people -> hasEntity (personRef Person idFactory p) r = true).
Proof.
  destruct (people_loop Person people getFullYear thisYear
              (Example.findPeople_predicate term) idFactory)
    as (r & Hr & He & Hl & Hn & Hlen).
  exists r. split; [exact Hr|]. split; [exact He|]. split; [exact Hl|].
  split; [exact Hn|]. split; [exact Hlen|].
  intros -> p Hp. apply He. exists p. split; [exact Hp|]. split; [|reflexivity].
  reflexivity.
Qed.

(** X8: the 'find like this' search returns exactly the people of the
    data set that its filter accepts: those that no Person connector key
    of the seed names and whose forename or surname compares equal to the
    seed's, or, when the year-of-birth condition is set and the seed has
    a year of birth, whose date of birth starts with the same four
    characters.  Unless the condition is set to true, a returned person
    matches by name. *)
Theorem seeded_search_returns_matches
    (Person : ItemType) (people : list Example.IPerson)
    (localeCompare : string -> string -> Z) (getFullYear : string -> JSNumber)
    (thisYear : Z) (seed : ISeedEntityRecord) (others : list ISeedEntityRecord)
    (useYearOfBirth : option bool) :
  exists r,
    Example.exampleSeededSearch1 Person people localeCompare getFullYear
      thisYear (mkSeeds (seed :: others)) useYearOfBirth = Returned r
    /\ (forall k, hasEntity k r = true <->
          exists p, In p people
            /\ Example.seededSearch1_predicate Person localeCompare seed
                 useYearOfBirth p = true
            /\ k = personRef Person None p)
    /\ links r = []
    /\ (forall p, In p people ->
          ~ In (Example.id p) (keysOf Person seed) ->
          localeCompare (Example.forename p)
            (orEmpty (seedString seed Person "First Name")) = 0 ->
          hasEntity (personRef Person None p) r = true)
    /\ (useYearOfBirth <> Some true ->
        forall p,
          Example.seededSearch1_predicate Person localeCompare seed
            useYearOfBirth p = true ->
          localeCompare (Example.forename p)
            (orEmpty (seedString seed Person "First Name")) = 0
          \/ localeCompare (Example.surname p)
               (orEmpty (seedString seed Person "Last Name")) = 0).
Proof.
  destruct (people_loop Person people getFullYear thisYear
              (Example.seededSearch1_predicate Person localeCompare seed useYearOfBirth)
              None)
    as (r & Hr & He & Hl & _).
  exists r. split; [exact Hr|]. split; [exact He|]. split; [exact Hl|]. split.
  - intros p Hp Hkey Hname. apply He. exists p. split; [exact Hp|].
    split; [|reflexivity].
    unfold Example.seededSearch1_predicate.
    destruct (Set_has _ (Example.id p)) eqn:Hs.
    + apply Set_has_In in Hs. contradiction.
    + rewrite Hname. reflexivity.
  - intros Hflag p Hpred. unfold Example.seededSearch1_predicate in Hpred.
    destruct (Set_has _ (Example.id p)); [discriminate|].
    apply orb_true_iff in Hpred. destruct Hpred as [Hpred|Hpred].
    + apply orb_true_iff in Hpred. destruct Hpred as [H|H];
        apply Z.eqb_eq in H; auto.
    + destruct useYearOfBirth as [[|]|]; simpl in Hpred;
        try discriminate. now elim Hflag.
Qed.

(** X9: the friend expansion returns exactly the pairs it finds: an entity
    is in the result if and only if it is a person that a seed resolves
    to and that has a friend in the data set, or such a friend; a link if
    and only if it is the link of such a pair, and every link leads from
    the person to the friend under which it was first registered.  A
    person without a friend in the data set is not returned, and when no
    resolved person has one the result is empty. *)
Theorem friend_expansion_returns_pairs
    (Person Friendswith : ItemType) (people : list Example.IPerson)
    (getFullYear : string -> JSNumber) (thisYear : Z) (seeds : ISeeds)
    (extract : ISeedEntityRecord -> list string)
    (idFactory : option (string -> ResultRecordIdType)) :
  exists r,
    Example.getFriendsLinkedToSeeds Person Friendswith people getFullYear
      thisYear seeds extract idFactory = Returned r
    /\ (forall k, hasEntity k r = true <->
          exists p q, befriended people extract seeds p q
                      /\ (k = personRef Person idFactory p
                          \/ k = personRef Person idFactory q))
    /\ (forall k, hasLink k r = true <->
          exists p q, befriended people extract seeds p q
                      /\ k = friendLinkRef Friendswith idFactory p q)
    /\ (forall t, In t (linkEnds r) ->
          exists p q, befriended people extract seeds p q
                      /\ t = (friendLinkRef Friendswith idFactory p q,
                              personRef Person idFactory p,
                              personRef Person idFactory q))
    /\ ((forall p q, ~ befriended people extract seeds p q) ->
        entities r = [] /\ links r = []).
Proof.
  destruct (getFriendsLinkedToSeeds_graph Person Friendswith people getFullYear
              thisYear seeds extract idFactory) as (r & Hr & He & Hl & Ht).
  exists r. split; [exact Hr|]. split; [exact He|]. split; [exact Hl|].
  split; [exact Ht|].
  intros Hnone. split.
  - destruct (entities r) as [|e es] eqn:Hes; [reflexivity|].
    assert (Hk : hasEntity (e_ref e) r = true).
    { unfold hasEntity. rewrite Hes. simpl. now rewrite sameRef_refl. }
    apply He in Hk. destruct Hk as (p & q & Hb & _). now elim (Hnone p q).
  - destruct (links r) as [|l ls] eqn:Hls; [reflexivity|].
    assert (Hk : hasLink (l_ref l) r = true).
    { unfold hasLink. rewrite Hls. simpl. now rewrite sameRef_refl. }
    apply Hl in Hk. destruct Hk as (p & q & Hb & _). now elim (Hnone p q).
Qed.

(** X10: a custom source identifier leads back to its person.  The ids that
    the expansion with custom source identifiers reads from a seed are the
    first keys of the seed's source identifiers of the connector's own
    type, so a seed that carries the identifier that
    [createCustomSourceIdentifier] makes for a person resolves to that
    person: the person, each friend in the data set and their link are
    returned, under custom source identifiers. *)
Theorem custom_identifier_round_trip
    (Person Friendswith : ItemType) (people : list Example.IPerson)
    (getFullYear : string -> JSNumber) (thisYear : Z) :
  (forall seed i,
      In i (Example.customIdsOfSeed seed) <->
      exists rest,
        In (mkSourceIdentifier Example.customSourceIdentifierType (i :: rest))
           (sourceIdentifiers seed))
  /\ (forall seeds seed p q,
      In seed (seedEntities seeds) ->
      In (mkSourceIdentifier Example.customSourceIdentifierType [Example.id p])
         (sourceIdentifiers seed) ->
      In p people -> In q people -> In (Example.id q) (Example.friends p) ->
      exists r,
        Example.exampleSeededSearch2WithCustomSourceIdentifiers Person Friendswith
          people getFullYear thisYear seeds = Returned r
        /\ hasEntity
             (OwnRef Person (Example.createCustomSourceIdentifier (Example.id p))) r
           = true
        /\ hasEntity
             (OwnRef Person (Example.createCustomSourceIdentifier (Example.id q))) r
           = true
        /\ hasLink
             (OwnRef Friendswith
                (Example.createCustomSourceIdentifier
                   (friendLinkKey (Example.id p) (Example.id q)))) r
           = true).
Proof.
  assert (Hids : forall seed i,
            In i (Example.customIdsOfSeed seed) <->
            exists rest,
              In (mkSourceIdentifier Example.customSourceIdentifierType (i :: rest))
                 (sourceIdentifiers seed)).
  { intros seed i. unfold Example.customIdsOfSeed.
    rewrite in_flat_map. split.
    - intros (si & Hsi & Hi). apply filter_In in Hsi. destruct Hsi as [Hsi Hty].
      apply String.eqb_eq in Hty. destruct si as [ty key]. simpl in *. subst ty.
      destruct key as [|k rest]; [contradiction|]. destruct Hi as [->|[]].
      now exists rest.
    - intros (rest & Hin). eexists. split.
      + apply filter_In. split; [exact Hin|]. apply String.eqb_refl.
      + simpl. now left. }
  split; [exact Hids|].
  intros seeds seed p q Hseed Hsi Hp Hq Hfr.
  destruct (getFriendsLinkedToSeeds_graph Person Friendswith people getFullYear
              thisYear seeds Example.customIdsOfSeed
              (Some Example.createCustomSourceIdentifier))
    as (r & Hr & He & Hl & _).
  assert (Hb : befriended people Example.customIdsOfSeed seeds p q).
  { exists seed. split; [exact Hseed|]. split; [exact Hp|]. split; [|now split].
    apply Hids. now exists []. }
  exists r. split; [exact Hr|]. split; [|split].
  - apply He. exists p, q. split; [exact Hb | now left].
  - apply He. exists p, q. split; [exact Hb | now right].
  - apply Hl. exists p, q. split; [exact Hb | reflexivity].
Qed.

Lemma custom_identifier_round_trip_witness :
  exists r,
    Example.exampleSeededSearch2WithCustomSourceIdentifiers PersonType
      FriendswithType twoPeople yearOfDate 2022 (mkSeeds [customSeedP1]) = Returned r
    /\ hasLink
         (OwnRef FriendswithType (Example.createCustomSourceIdentifier "p1-p2")) r
       = true.
Proof.
  destruct (proj2 (custom_identifier_round_trip PersonType FriendswithType
                     twoPeople yearOfDate 2022)
              (mkSeeds [customSeedP1]) customSeedP1 ann bob)
    as (r & Hr & _ & _ & Hl); simpl; auto.
  exists r. split; [exact Hr | exact Hl].
Defined.

Lemma getValue_setValue (n m : string) (w : PropertyValue)
    (ps : list (string * PropertyValue)) :
  getValue n (setValue m w ps) = if String.eqb m n then Some w else getValue n ps.
Proof.
  induction ps as [|[n0 x] ps IH]; simpl.
  - reflexivity.
  - destruct (String.eqb n0 m) eqn:H0; simpl.
    + apply String.eqb_eq in H0. subst n0. now destruct (String.eqb m n).
    + rewrite IH. destruct (String.eqb n0 n) eqn:H1; [|reflexivity].
      apply String.eqb_eq in H1. subst n0. now rewrite String.eqb_sym, H0.
Qed.

Lemma getValue_assign (n m : string) (v : option PropertyValue)
    (ps : list (string * PropertyValue)) :
  getValue n (assign m v ps)
  = if String.eqb m n
    then match v with Some w => Some w | None => getValue n ps end
    else getValue n ps.
Proof.
  destruct v as [w|]; simpl; [apply getValue_setValue|].
  now destruct (String.eqb m n).
Qed.

Lemma getValue_assignAll_other (n : string) (ps : list (string * option PropertyValue))
    (props : list (string * PropertyValue)) :
  ~ In n (map fst ps) -> getValue n (assignAll ps props) = getValue n props.
Proof.
  revert props. induction ps as [|[m v] ps IH]; intros props Hn; [reflexivity|].
  unfold assignAll in *. simpl. rewrite IH.
  - simpl. rewrite getValue_assign.
    destruct (String.eqb m n) eqn:E; [|reflexivity].
    apply String.eqb_eq in E. elim Hn. now left.
  - intros H. apply Hn. now right.
Qed.



Lemma addEntityRef_new (k : RecordRef) :
  addEntityRef k Result_new = Returned (k, mkResult [mkEntity k [] None] []).
Proof. reflexivity. Qed.

Lemma addEntityRef_single (k : RecordRef) (ps : list (string * PropertyValue))
    (s : option ISourceReference) :
  addEntityRef k (mkResult [mkEntity k ps s] [])
  = Returned (k, mkResult [mkEntity k ps s] []).
Proof.
  unfold addEntityRef, hasEntity. cbn [existsb entities e_ref].
  now rewrite sameRef_refl.
Qed.

Lemma setProperty_single (k : RecordRef) (name : string) (v : option PropertyValue)
    (ps : list (string * PropertyValue)) (s : option ISourceReference) :
  Entity_setProperty k name v (mkResult [mkEntity k ps s] [])
  = Returned (tt, mkResult [mkEntity k (assign name v ps) s] []).
Proof.
  unfold Entity_setProperty, updateEntity.
  cbn [map entities links e_ref e_properties e_source].
  now rewrite sameRef_refl.
Qed.

(** X12: the search within a data source registers both tweets that the
    source finds under the one identifier "tweet-1": the result holds a
    single Tweet entity, whose contents and length are those of the
    second tweet, with no source reference and no link.  A data source
    that is absent or empty is replaced by "dataSource1". *)
Theorem search_selected_source_one_entity
    (Tweet : ItemType) (dataSource : option string) (searchTerm : string) :
  Example.searchSelectedDataSource Tweet dataSource searchTerm
  = Returned
      (mkResult
         [ mkEntity (OwnRef Tweet (StringId "tweet-1"))
             [ ("Contents",
                 PString (Example.tweetText (Example.dataSourceOrDefault dataSource)
                            searchTerm 2));
               ("User name", PString "user1");
               ("Length",
                 PNumber (Num (Z.of_nat
                   (String.length
                      (Example.tweetText (Example.dataSourceOrDefault dataSource)
                         searchTerm 2))))) ]
             None ]
         [])
  /\ Example.dataSourceOrDefault None = "dataSource1"
  /\ Example.dataSourceOrDefault (Some EmptyString) = "dataSource1"
  /\ (forall s, s <> EmptyString -> Example.dataSourceOrDefault (Some s) = s).
Proof.
  split; [|split; [reflexivity|split; [reflexivity|]]].
  - unfold Example.searchSelectedDataSource, Example.getSearchResultsFromDataSource,
      run, forEach, Result_addEntity.
    repeat (unfold bind at 1;
            rewrite ?addEntityRef_new, ?addEntityRef_single, ?setProperty_single;
            cbv beta iota).
    reflexivity.
  - intros s Hs. destruct s; [now elim Hs | reflexivity].
Qed.

(** ** The search term *)

Lemma lowerUnit_idem (c : ascii) : lowerUnit (lowerUnit c) = lowerUnit c.
Proof. destruct c as [[] [] [] [] [] [] [] []]; reflexivity. Qed.

Lemma toLowerCase_idem (s : string) : toLowerCase (toLowerCase s) = toLowerCase s.
Proof. induction s as [|c s IH]; simpl; [reflexivity|]. now rewrite lowerUnit_idem, IH. Qed.

Lemma toLowerCase_wildcard (s : string) :
  String.eqb (toLowerCase s) Example.wildcardSearchTerm
  = String.eqb s Example.wildcardSearchTerm.
Proof.
  destruct s as [|c [|c' s]]; [reflexivity| |].
  - destruct c as [[] [] [] [] [] [] [] []]; reflexivity.
  - simpl. destruct (Ascii.eqb (lowerUnit c) "*"), (Ascii.eqb c "*"); reflexivity.
Qed.

Lemma findPeople_predicate_lower (term : string) (p : Example.IPerson) :
  Example.findPeople_predicate (toLowerCase term) p
  = Example.findPeople_predicate term p.
Proof.
  unfold Example.findPeople_predicate, Example.caseInsensitiveContains.
  now rewrite toLowerCase_wildcard, toLowerCase_idem.
Qed.

Lemma includes_empty (s : string) : includes s EmptyString = true.
Proof. destruct s; reflexivity. Qed.

(** X13: the people search does not look at the case of the term: two terms
    with the same lower-case form return the same result. *)
Theorem findPeople_ignores_case
    (Person : ItemType) (people : list Example.IPerson)
    (getFullYear : string -> JSNumber) (thisYear : Z)
    (idFactory : option (string -> ResultRecordIdType)) (term1 term2 : string) :
  toLowerCase term1 = toLowerCase term2 ->
  Example.findPeople Person people getFullYear thisYear term1 idFactory
  = Example.findPeople Person people getFullYear thisYear term2 idFactory.
Proof.
  intros H. unfold Example.findPeople, Example.lookupPeople. do 2 f_equal.
  apply filter_ext. intros p.
  now rewrite <- (findPeople_predicate_lower term1), H, findPeople_predicate_lower.
Qed.

Lemma findPeople_ignores_case_witness :
  toLowerCase "LEE" = toLowerCase "lee"
  /\ Example.findPeople PersonType twoPeople yearOfDate 2022 "LEE" None
     = Example.findPeople PersonType twoPeople yearOfDate 2022 "lee" None.
Proof.
  split; [reflexivity|].
  apply (findPeople_ignores_case PersonType twoPeople yearOfDate 2022 None "LEE" "lee").
  reflexivity.
Defined.

(** X14: the people search with the empty term returns everybody, as with
    "*": every name contains the empty string. *)
Theorem findPeople_empty_term
    (Person : ItemType) (people : list Example.IPerson)
    (getFullYear : string -> JSNumber) (thisYear : Z)
    (idFactory : option (string -> ResultRecordIdType)) :
  Example.findPeople Person people getFullYear thisYear EmptyString idFactory
  = Example.findPeople Person people getFullYear thisYear
      Example.wildcardSearchTerm idFactory
  /\ Example.lookupPeople people (Example.findPeople_predicate EmptyString) = people.
Proof.
  assert (Hall : forall p, Example.findPeople_predicate EmptyString p = true).
  { intros p. unfold Example.findPeople_predicate, Example.caseInsensitiveContains.
    simpl. now rewrite includes_empty. }
  split.
  - unfold Example.findPeople, Example.lookupPeople. do 2 f_equal.
    apply filter_ext. intros p. now rewrite Hall.
  - unfold Example.lookupPeople. induction people as [|p ps IH]; [reflexivity|].
    simpl. now rewrite Hall, IH.
Qed.

(** ** The properties of an entity after a helper *)



Lemma getValue_propsBefore (k : RecordRef) (r : Result) (name : string) :
  getValue name (propsBefore k r) = propertyOf r k name.
Proof. unfold propsBefore, propertyOf. now destruct (findEntity k r). Qed.

Lemma findEntity_updateEntity (k : RecordRef) (f : EntityRecord -> EntityRecord)
    (r r' : Result) :
  (forall e, e_ref (f e) = e_ref e) ->
  updateEntity k f r = Returned (tt, r') ->
  findEntity k r' = option_map f (findEntity k r)
  /\ (forall k', k' <> k -> findEntity k' r' = findEntity k' r)
  /\ links r' = links r.
Proof.
  intros Hf H. unfold updateEntity in H. inversion H; subst. clear H.
  unfold findEntity. simpl. split; [|split; [|reflexivity]].
  - induction (entities r) as [|e es IH]; [reflexivity|]. simpl.
    destruct (sameRef k (e_ref e)) eqn:Hk.
    + now rewrite Hf, Hk.
    + now rewrite Hk.
  - intros k' Hne. induction (entities r) as [|e es IH]; [reflexivity|]. simpl.
    destruct (sameRef k (e_ref e)) eqn:Hk.
    + rewrite Hf. destruct (sameRef k' (e_ref e)) eqn:Hk'; [|exact IH].
      apply sameRef_true in Hk, Hk'. congruence.
    + destruct (sameRef k' (e_ref e)); [reflexivity | exact IH].
Qed.

Lemma findEntity_ref (k : RecordRef) (r : Result) (e : EntityRecord) :
  findEntity k r = Some e -> e = mkEntity k (e_properties e) (e_source e).
Proof.
  intros H. apply find_some in H. destruct H as [_ H]. apply sameRef_true in H.
  destruct e. simpl in *. now subst.
Qed.

Lemma focused_add (k : RecordRef) (r : Result) :
  runs (addEntityRef k) r
    (fun a r' => a = k /\ focused k (propsBefore k r) (sourceBefore k r) r r').
Proof.
  eexists; eexists. split; [reflexivity|]. split; [reflexivity|].
  unfold focused, propsBefore, sourceBefore.
  destruct (hasEntity k r) eqn:Hk.
  - destruct (findEntity k r) as [e|] eqn:Hf.
    + split; [|split; reflexivity]. f_equal. exact (findEntity_ref k r e Hf).
    + unfold hasEntity in Hk. apply existsb_exists in Hk. destruct Hk as (e & He & Hs).
      unfold findEntity in Hf. now rewrite (find_none _ _ Hf e He) in Hs.
  - assert (Hn : ~ In k (map e_ref (entities r))) by now apply hasEntity_false.
    assert (Hf : findEntity k r = None).
    { unfold findEntity. destruct (find _ (entities r)) as [e|] eqn:Hf; [|reflexivity].
      apply find_some in Hf. destruct Hf as [He Hs]. apply sameRef_true in Hs.
      elim Hn. rewrite Hs. now apply in_map. }
    rewrite Hf. split; [|split; [|reflexivity]].
    + destruct r as [es ls]. now apply findEntity_fresh.
    + intros k' Hne. unfold findEntity. simpl.
      induction (entities r) as [|e es IH]; simpl.
      * destruct (sameRef k' k) eqn:Hs; [|reflexivity].
        apply sameRef_true in Hs. congruence.
      * destruct (sameRef k' (e_ref e)); [reflexivity|]. apply IH.
        intros H. apply Hn. now right.
Qed.

Section FocusSteps.

Context {X : Type} (k : RecordRef) (r : Result) (Q : X -> Result -> Prop).

Lemma focus_add_step (rest : RecordRef -> M X) :
  (forall r1, focused k (propsBefore k r) (sourceBefore k r) r r1 ->
     runs (rest k) r1 Q) ->
  runs (bind (addEntityRef k) rest) r Q.
Proof.
  intros H. eapply runs_bind; [apply focused_add|].
  cbv beta. intros a r1 [-> Hf]. now apply H.
Qed.

Lemma focus_update (f : EntityRecord -> EntityRecord)
    (p p' : list (string * PropertyValue)) (s s' : option ISourceReference)
    (rest : M X) (r1 : Result) :
  (forall e, e_ref (f e) = e_ref e) ->
  f (mkEntity k p s) = mkEntity k p' s' ->
  focused k p s r r1 ->
  (forall r2, focused k p' s' r r2 -> runs rest r2 Q) ->
  runs (updateEntity k f ;;; rest) r1 Q.
Proof.
  intros Hf Hfe (H1 & H2 & H3) H.
  destruct (updateEntity_runs k f r1 Hf) as ([] & r2 & Hrun & _).
  destruct (findEntity_updateEntity k f r1 r2 Hf Hrun) as (F1 & F2 & F3).
  destruct (H r2) as (x & r3 & Hrest & HQ).
  { split; [|split].
    - rewrite F1, H1. simpl. now rewrite Hfe.
    - intros k' Hne. rewrite (F2 k' Hne). now apply H2.
    - congruence. }
  exists x, r3. split; [|exact HQ]. unfold bind. now rewrite Hrun.
Qed.

Lemma focus_setProperty_step (name : string) (v : option PropertyValue)
    (p : list (string * PropertyValue)) (s : option ISourceReference)
    (rest : M X) (r1 : Result) :
  focused k p s r r1 ->
  (forall r2, focused k (assign name v p) s r r2 -> runs rest r2 Q) ->
  runs (Entity_setProperty k name v ;;; rest) r1 Q.
Proof. intros. eapply focus_update; eauto. Qed.

Lemma focus_setSourceReference_step (s' : ISourceReference)
    (p : list (string * PropertyValue)) (s : option ISourceReference)
    (rest : M X) (r1 : Result) :
  focused k p s r r1 ->
  (forall r2, focused k p (Some s') r r2 -> runs rest r2 Q) ->
  runs (Entity_setSourceReference k s' ;;; rest) r1 Q.
Proof. intros. eapply focus_update; eauto. Qed.

End FocusSteps.

Lemma focus_setProperties (k : RecordRef)
    (ps : list (string * option PropertyValue))
    (p : list (string * PropertyValue)) (s : option ISourceReference)
    (r r1 : Result) :
  focused k p s r r1 ->
  runs (Entity_setProperties k ps) r1
    (fun _ r2 => focused k (assignAll ps p) s r r2).
Proof.
  revert p r1. induction ps as [|[name v] ps IH]; intros p r1 Hf; simpl.
  - now apply runs_ret.
  - apply (focus_setProperty_step k r _ name v p s _ r1 Hf).
    intros r2 Hf2. now apply IH.
Qed.

Lemma focus_setProperties_step {X : Type} (k : RecordRef) (r : Result)
    (Q : X -> Result -> Prop) (ps : list (string * option PropertyValue))
    (p : list (string * PropertyValue)) (s : option ISourceReference)
    (rest : M X) (r1 : Result) :
  focused k p s r r1 ->
  (forall r2, focused k (assignAll ps p) s r r2 -> runs rest r2 Q) ->
  runs (Entity_setProperties k ps ;;; rest) r1 Q.
Proof.
  intros Hf H. eapply runs_bind; [now apply (focus_setProperties k ps p s r r1)|].
  cbv beta. intros u r2 Hf2. now apply H.
Qed.

Ltac entity_focus :=
  let r1 := fresh "r" in
  let H1 := fresh "H" in
  apply focus_add_step; intros r1 H1;
  repeat (first
    [ apply (focus_setProperties_step _ _ _ _ _ _ _ _ H1)
    | apply (focus_setProperty_step _ _ _ _ _ _ _ _ _ H1)
    | apply (focus_setSourceReference_step _ _ _ _ _ _ _ _ H1) ];
    clear r1 H1; intros r1 H1);
  apply runs_ret; split; [reflexivity | exact H1].

Lemma focused_propertyOf (k : RecordRef) (p : list (string * PropertyValue))
    (s : option ISourceReference) (r0 r : Result) (name : string) :
  focused k p s r0 r -> propertyOf r k name = getValue name p.
Proof. intros (H & _). unfold propertyOf. now rewrite H. Qed.

Lemma focused_other (k : RecordRef) (p : list (string * PropertyValue))
    (s : option ISourceReference) (r0 r : Result) (k' : RecordRef) (name : string) :
  focused k p s r0 r -> k' <> k -> propertyOf r k' name = propertyOf r0 k' name.
Proof. intros (_ & H & _) Hne. unfold propertyOf. now rewrite (H k' Hne). Qed.

Lemma addLocation_focus (d : NYPD.IComplaintDto) (r : Result) :
  runs (NYPD.addLocation d) r
    (fun a r' => a = locationRef d
       /\ focused (locationRef d)
            (assignAll (locationProps d) (propsBefore (locationRef d) r))
            (Some NYPD.exampleSourceRef) r r').
Proof. unfold NYPD.addLocation, Result_addEntity, locationRef. entity_focus. Qed.

Lemma addComplaint_focus (d : NYPD.IComplaintDto) (r : Result) :
  runs (NYPD.addComplaint d) r
    (fun a r' => a = complaintRef d
       /\ focused (complaintRef d)
            (assignAll (complaintProps d) (propsBefore (complaintRef d) r))
            (Some NYPD.exampleSourceRef) r r').
Proof. unfold NYPD.addComplaint, Result_addEntity, complaintRef. entity_focus. Qed.

Lemma addSuspect_focus (d : NYPD.IComplaintDto) (r : Result) :
  runs (NYPD.addSuspect d) r
    (fun a r' => a = suspectRef d
       /\ focused (suspectRef d)
            (assignAll (suspectProps d) (propsBefore (suspectRef d) r))
            (Some NYPD.exampleSourceRef) r r').
Proof. unfold NYPD.addSuspect, Result_addEntity, suspectRef. entity_focus. Qed.

Lemma addVictim_focus (d : NYPD.IComplaintDto) (r : Result) :
  runs (NYPD.addVictim d) r
    (fun a r' => a = victimRef d
       /\ focused (victimRef d)
            (assignAll (victimProps d) (propsBefore (victimRef d) r))
            (Some NYPD.exampleSourceRef) r r').
Proof. unfold NYPD.addVictim, Result_addEntity, victimRef. entity_focus. Qed.

Lemma addPersonToResult_focus (Person : ItemType) (getFullYear : string -> JSNumber)
    (thisYear : Z) (p : Example.IPerson)
    (idFactory : option (string -> ResultRecordIdType)) (r : Result) :
  runs (Example.addPersonToResult Person getFullYear thisYear p idFactory) r
    (fun a r' => a = personRef Person idFactory p
       /\ focused (personRef Person idFactory p)
            (assignAll (personProps getFullYear thisYear p)
               (propsBefore (personRef Person idFactory p) r))
            (Some Example.exampleSourceRef) r r').
Proof.
  unfold Example.addPersonToResult, personRef.
  destruct (Example.withDefault idFactory (Example.id p)) as [s|i];
    unfold Result_addEntity, Result_addEntityWithSourceIdentifier; entity_focus.
Qed.

Ltac read_properties H :=
  rewrite ?(focused_propertyOf _ _ _ _ _ _ H);
  unfold assignAll, locationProps, complaintProps, suspectProps, victimProps,
    personProps, NYPD.pstring;
  cbn [fold_left fst snd];
  rewrite ?getValue_assign; cbn [String.eqb Ascii.eqb Bool.eqb];
  rewrite ?getValue_propsBefore.

(** X15: whatever the result holds, [addPersonToResult] returns the entity
    of the person with the six properties read from the record: the
    names, the date of birth, the social security number and its date of
    issue in the time zone Europe/London, and an age that is the year of
    the clock less the year of birth, NaN when the date of birth is not a
    date.  Every other property of the entity and every other entity are
    left as they were. *)
Theorem addPersonToResult_sets_properties
    (Person : ItemType) (getFullYear : string -> JSNumber) (thisYear : Z)
    (p : Example.IPerson) (idFactory : option (string -> ResultRecordIdType))
    (r : Result) :
  exists r',
    Example.addPersonToResult Person getFullYear thisYear p idFactory r
    = Returned (personRef Person idFactory p, r')
    /\ propertyOf r' (personRef Person idFactory p) "First Name"
       = Some (PString (Example.forename p))
    /\ propertyOf r' (personRef Person idFactory p) "Last Name"
       = Some (PString (Example.surname p))
    /\ propertyOf r' (personRef Person idFactory p) "Year of Birth"
       = Some (PString (Example.dob p))
    /\ propertyOf r' (personRef Person idFactory p) "Age"
       = Some (PNumber (sub (Num thisYear) (getFullYear (Example.dob p))))
    /\ propertyOf r' (personRef Person idFactory p) "SSN"
       = Some (PString (Example.ssn p))
    /\ propertyOf r' (personRef Person idFactory p) "SSN Issued Date and Time"
       = Some (PDateTime (Example.issuedDateAndTime p) "Europe/London" false)
    /\ (getFullYear (Example.dob p) = NaN ->
        propertyOf r' (personRef Person idFactory p) "Age" = Some (PNumber NaN))
    /\ (forall name, ~ In name personPropertyNames ->
          propertyOf r' (personRef Person idFactory p) name
          = propertyOf r (personRef Person idFactory p) name)
    /\ (forall k name, k <> personRef Person idFactory p ->
          propertyOf r' k name = propertyOf r k name).
Proof.
  destruct (addPersonToResult_focus Person getFullYear thisYear p idFactory r)
    as (a & r' & Hrun & -> & Hf).
  exists r'. split; [exact Hrun|].
  assert (HAge : propertyOf r' (personRef Person idFactory p) "Age"
                 = Some (PNumber (sub (Num thisYear) (getFullYear (Example.dob p)))))
    by (read_properties Hf; reflexivity).
  repeat match goal with |- _ /\ _ => split end;
    try (read_properties Hf; reflexivity).
  - intros Hnan. rewrite HAge, Hnan. reflexivity.
  - intros name Hname. rewrite (focused_propertyOf _ _ _ _ _ name Hf).
    unfold assignAll, personProps. cbn [fold_left fst snd].
    rewrite !getValue_assign, getValue_propsBefore.
    unfold personPropertyNames in Hname.
    repeat match goal with
      | |- context [String.eqb ?m name] =>
          let E := fresh "E" in
          destruct (String.eqb m name) eqn:E;
          [apply String.eqb_eq in E; subst name; elim Hname; simpl; tauto|]
      end.
    reflexivity.
  - intros k name Hk. now apply (focused_other _ _ _ _ _ _ _ Hf).
Qed.

(** X16: whatever the result holds, [addComplaint] and [addLocation]
    return the entity of the row with the complaint number and the
    numeric properties of the row ([parseInt] of the column, NaN when it
    is absent) and with each string property whose column the row has.
    The properties that the helper does not name and every other entity
    are left as they were. *)
Theorem complaint_and_location_properties (d : NYPD.IComplaintDto) (r : Result) :
  (exists r',
      NYPD.addComplaint d r = Returned (complaintRef d, r')
      /\ propertyOf r' (complaintRef d) "Complaint Number"
         = Some (PString (NYPD.cmplnt_num d))
      /\ propertyOf r' (complaintRef d) "Jurisdiction Code"
         = Some (PNumber (parseInt (NYPD.jurisdiction_code d)))
      /\ propertyOf r' (complaintRef d) "Offence Classification Code"
         = Some (PNumber (parseInt (NYPD.ky_cd d)))
      /\ (forall v, NYPD.crm_atpt_cptd_cd d = Some v ->
            propertyOf r' (complaintRef d) "Crime Status" = Some (PString v))
      /\ (forall v, NYPD.law_cat_cd d = Some v ->
            propertyOf r' (complaintRef d) "Level Of Offence" = Some (PString v))
      /\ (forall v, NYPD.ofns_desc d = Some v ->
            propertyOf r' (complaintRef d) "Offence Description" = Some (PString v))
      /\ (forall name, ~ In name (map fst (complaintProps d)) ->
            propertyOf r' (complaintRef d) name = propertyOf r (complaintRef d) name)
      /\ (forall k name, k <> complaintRef d ->
            propertyOf r' k name = propertyOf r k name))
  /\ (exists r',
      NYPD.addLocation d r = Returned (locationRef d, r')
      /\ propertyOf r' (locationRef d) "Precinct Code"
         = Some (PNumber (parseInt (NYPD.addr_pct_cd d)))
      /\ propertyOf r' (locationRef d) "Coordinates"
         = Some (PPoint (parseInt (NYPD.latitude d)) (parseInt (NYPD.longitude d)))
      /\ (forall v, NYPD.boro_nm d = Some v ->
            propertyOf r' (locationRef d) "Borough Name" = Some (PString v))
      /\ (forall name, ~ In name (map fst (locationProps d)) ->
            propertyOf r' (locationRef d) name = propertyOf r (locationRef d) name)
      /\ (forall k name, k <> locationRef d ->
            propertyOf r' k name = propertyOf r k name)).
Proof.
  split.
  - destruct (addComplaint_focus d r) as (a & r' & Hrun & -> & Hf).
    exists r'. split; [exact Hrun|].
    repeat match goal with |- _ /\ _ => split end;
      try (read_properties Hf;
           destruct (NYPD.crm_atpt_cptd_cd d), (NYPD.law_cat_cd d), (NYPD.ofns_desc d);
           reflexivity);
      try (intros v Hv; read_properties Hf; rewrite Hv;
           destruct (NYPD.crm_atpt_cptd_cd d), (NYPD.law_cat_cd d), (NYPD.ofns_desc d);
           reflexivity).
    + intros name Hname. rewrite (focused_propertyOf _ _ _ _ _ name Hf).
      now rewrite getValue_assignAll_other, getValue_propsBefore.
    + intros k name Hk. now apply (focused_other _ _ _ _ _ _ _ Hf).
  - destruct (addLocation_focus d r) as (a & r' & Hrun & -> & Hf).
    exists r'. split; [exact Hrun|].
    repeat match goal with |- _ /\ _ => split end;
      try (read_properties Hf; destruct (NYPD.boro_nm d); reflexivity);
      try (intros v Hv; read_properties Hf; rewrite Hv; reflexivity).
    + intros name Hname. rewrite (focused_propertyOf _ _ _ _ _ name Hf).
      now rewrite getValue_assignAll_other, getValue_propsBefore.
    + intros k name Hk. now apply (focused_other _ _ _ _ _ _ _ Hf).
Qed.

(** X17: the suspect and the victim of a complaint are two entities:
    [addSuspect] sets the age group, race and sex of the suspect from the
    suspect columns that the row has and leaves every other property and
    every other entity, the victim among them, as it was; and [addVictim]
    does the same for the victim. *)
Theorem suspect_and_victim_properties (d : NYPD.IComplaintDto) (r : Result) :
  (exists r',
      NYPD.addSuspect d r = Returned (suspectRef d, r')
      /\ (forall v, NYPD.susp_age_group d = Some v ->
            propertyOf r' (suspectRef d) "Age Group" = Some (PString v))
      /\ (forall v, NYPD.susp_race d = Some v ->
            propertyOf r' (suspectRef d) "Race" = Some (PString v))
      /\ (forall v, NYPD.susp_sex d = Some v ->
            propertyOf r' (suspectRef d) "Sex" = Some (PString v))
      /\ (forall name, ~ In name (map fst (suspectProps d)) ->
            propertyOf r' (suspectRef d) name = propertyOf r (suspectRef d) name)
      /\ (forall name, propertyOf r' (victimRef d) name = propertyOf r (victimRef d) name)
      /\ (forall k name, k <> suspectRef d ->
            propertyOf r' k name = propertyOf r k name))
  /\ (exists r',
      NYPD.addVictim d r = Returned (victimRef d, r')
      /\ (forall v, NYPD.vic_age_group d = Some v ->
            propertyOf r' (victimRef d) "Age Group" = Some (PString v))
      /\ (forall v, NYPD.vic_race d = Some v ->
            propertyOf r' (victimRef d) "Race" = Some (PString v))
      /\ (forall v, NYPD.vic_sex d = Some v ->
            propertyOf r' (victimRef d) "Sex" = Some (PString v))
      /\ (forall name, ~ In name (map fst (victimProps d)) ->
            propertyOf r' (victimRef d) name = propertyOf r (victimRef d) name)
      /\ (forall name, propertyOf r' (suspectRef d) name = propertyOf r (suspectRef d) name)
      /\ (forall k name, k <> victimRef d ->
            propertyOf r' k name = propertyOf r k name)).
Proof.
  split.
  - destruct (addSuspect_focus d r) as (a & r' & Hrun & -> & Hf).
    exists r'. split; [exact Hrun|].
    split; [|split; [|split; [|split; [|split]]]];
      try (intros v Hv; read_properties Hf; rewrite Hv;
           destruct (NYPD.susp_age_group d), (NYPD.susp_race d), (NYPD.susp_sex d);
           reflexivity).
    + intros name Hname. rewrite (focused_propertyOf _ _ _ _ _ name Hf).
      now rewrite getValue_assignAll_other, getValue_propsBefore.
    + intros name. apply (focused_other _ _ _ _ _ _ _ Hf).
      unfold victimRef, suspectRef. simpl. discriminate.
    + intros k name Hk. now apply (focused_other _ _ _ _ _ _ _ Hf).
  - destruct (addVictim_focus d r) as (a & r' & Hrun & -> & Hf).
    exists r'. split; [exact Hrun|].
    split; [|split; [|split; [|split; [|split]]]];
      try (intros v Hv; read_properties Hf; rewrite Hv;
           destruct (NYPD.vic_age_group d), (NYPD.vic_race d), (NYPD.vic_sex d);
           reflexivity).
    + intros name Hname. rewrite (focused_propertyOf _ _ _ _ _ name Hf).
      now rewrite getValue_assignAll_other, getValue_propsBefore.
    + intros name. apply (focused_other _ _ _ _ _ _ _ Hf).
      unfold victimRef, suspectRef. simpl. discriminate.
    + intros k name Hk. now apply (focused_other _ _ _ _ _ _ _ Hf).
Qed.


(** ** A row met twice *)

Lemma setValue_same (n : string) (v : PropertyValue) (ps : list (string * PropertyValue)) :
  getValue n ps = Some v -> setValue n v ps = ps.
Proof.
  induction ps as [|[n0 x] ps IH]; simpl; [discriminate|].
  destruct (String.eqb n0 n).
  - intros H. now inversion H.
  - intros H. now rewrite IH.
Qed.


Lemma assignAll_settled (ps : list (string * option PropertyValue))
    (props : list (string * PropertyValue)) :
  NoDup (map fst ps) -> settledProps ps (assignAll ps props).
Proof.
  revert props. induction ps as [|[m w] ps IH]; intros props Hnd n v Hin;
    [contradiction|].
  inversion Hnd as [|x xs Hx Hnd']; subst.
  unfold assignAll. simpl. destruct Hin as [Heq|Hin].
  - inversion Heq; subst.
    change (getValue n (assignAll ps (assign n (Some v) props)) = Some v).
    rewrite getValue_assignAll_other by exact Hx.
    rewrite getValue_assign, String.eqb_refl. reflexivity.
  - now apply (IH (assign m w props) Hnd').
Qed.

Lemma updateEntity_id (k : RecordRef) (f : EntityRecord -> EntityRecord) (r : Result) :
  (forall e, In e (entities r) -> e_ref e = k -> f e = e) ->
  updateEntity k f r = Returned (tt, r).
Proof.
  intros H. unfold updateEntity. destruct r as [es ls]. simpl in *. do 3 f_equal.
  rewrite <- (map_id es) at 2. apply map_ext_in. intros e He.
  destruct (sameRef k (e_ref e)) eqn:Hs; [|reflexivity].
  apply sameRef_true in Hs. now apply H.
Qed.

Lemma updateLink_id (k : RecordRef) (f : LinkRecord -> LinkRecord) (r : Result) :
  (forall l, In l (links r) -> l_ref l = k -> f l = l) ->
  updateLink k f r = Returned (tt, r).
Proof.
  intros H. unfold updateLink. destruct r as [es ls]. simpl in *. do 3 f_equal.
  rewrite <- (map_id ls) at 2. apply map_ext_in. intros l Hl.
  destruct (sameRef k (l_ref l)) eqn:Hs; [|reflexivity].
  apply sameRef_true in Hs. now apply H.
Qed.

Lemma Entity_setProperties_id (k : RecordRef)
    (ps : list (string * option PropertyValue)) (r : Result) :
  (forall e, In e (entities r) -> e_ref e = k -> settledProps ps (e_properties e)) ->
  Entity_setProperties k ps r = Returned (tt, r).
Proof.
  induction ps as [|[n v] ps IH]; intros H; [reflexivity|].
  simpl. unfold bind, Entity_setProperty. rewrite updateEntity_id.
  - apply IH. intros e He Hk n' v' Hin. apply (H e He Hk). now right.
  - intros e He Hk. destruct e as [ref props src]. simpl. f_equal.
    destruct v as [w|]; [|reflexivity]. simpl. apply setValue_same.
    apply (H _ He Hk n w). now left.
Qed.

(** An entity helper on a result that holds what it assigns changes
    nothing. *)
Lemma entity_helper_id (k : RecordRef) (ps : list (string * option PropertyValue))
    (s : ISourceReference) (r : Result) :
  settledEntity k ps s r ->
  (entity <- addEntityRef k ;;
   Entity_setProperties entity ps ;;;
   Entity_setSourceReference entity s ;;;
   ret entity) r
  = Returned (k, r).
Proof.
  intros [Hk Hall]. unfold bind at 1. unfold addEntityRef. rewrite Hk.
  unfold bind at 1. rewrite Entity_setProperties_id by (intros e He Hr; now apply Hall).
  unfold bind at 1. unfold Entity_setSourceReference. rewrite updateEntity_id.
  - reflexivity.
  - intros e He Hr. destruct (Hall e He Hr) as [_ Hs].
    destruct e as [ref props src]. simpl in *. now rewrite Hs.
Qed.

Lemma Entity_setProperties_all (k : RecordRef)
    (ps : list (string * option PropertyValue)) (r : Result) :
  runs (Entity_setProperties k ps) r
    (fun _ r' =>
       forall e', In e' (entities r') -> e_ref e' = k ->
         exists e, In e (entities r) /\ e_ref e = k
           /\ e_properties e' = assignAll ps (e_properties e)).
Proof.
  revert r. induction ps as [|[n v] ps IH]; intros r; simpl.
  - apply runs_ret. intros e' He' Hk. now exists e'.
  - eapply runs_bind; [apply updateEntity_runs; reflexivity|].
    cbv beta. intros u r1 [_ H1].
    eapply runs_weaken; [apply IH|].
    cbv beta. intros u' r2 H2 e' He' Hk.
    destruct (H2 e' He' Hk) as (e1 & He1 & Hk1 & Hp1).
    destruct (H1 e1 He1 Hk1) as (e & He & Hke & ->).
    exists e. split; [exact He|]. split; [exact Hke|]. exact Hp1.
Qed.

(** After an entity helper the result holds what the helper assigns. *)
Lemma entity_helper_settles (k : RecordRef) (ps : list (string * option PropertyValue))
    (s : ISourceReference) (r : Result) :
  NoDup (map fst ps) ->
  runs (entity <- addEntityRef k ;;
        Entity_setProperties entity ps ;;;
        Entity_setSourceReference entity s ;;;
        ret entity) r
    (fun a r' => a = k /\ built k s r r' /\ settledEntity k ps s r').
Proof.
  intros Hnd.
  eapply runs_weaken.
  - apply (runs_and _ _
             (fun a r' => a = k /\ built k s r r')
             (fun _ r' => forall e, In e (entities r') -> e_ref e = k ->
                            settledProps ps (e_properties e))).
    + apply addEntity_step. intros r1 H1.
      apply (setProperties_step _ _ _ _ _ _ H1). intros r2 H2.
      apply (setSourceReference_step _ _ _ _ _ _ H2). intros r3 H3.
      apply runs_ret. exact (conj (eq_refl k) H3).
    + eapply runs_bind; [apply addEntityRef_runs|]. cbv beta. intros a r1 [-> _].
      eapply runs_bind; [apply Entity_setProperties_all|]. cbv beta. intros u r2 H2.
      eapply runs_bind; [apply updateEntity_runs; reflexivity|].
      cbv beta. intros u' r3 [_ H3]. apply runs_ret.
      intros e' He' Hk.
      destruct (H3 e' He' Hk) as (e2 & He2 & Hk2 & ->). simpl.
      destruct (H2 e2 He2 Hk2) as (e1 & _ & _ & ->).
      now apply assignAll_settled.
  - cbv beta. intros a r' [[-> Hb] Hs]. split; [reflexivity|]. split; [exact Hb|].
    split; [apply (built_hasEntity _ _ _ _ Hb)|].
    intros e He Hk. split; [now apply Hs|].
    destruct Hb as (_ & _ & _ & Hsrc). now apply Hsrc.
Qed.

Lemma built_keeps_settledEntity (k k' : RecordRef) (s s' : ISourceReference)
    (ps : list (string * option PropertyValue)) (r r' : Result) :
  built k' s' r r' -> k <> k' -> settledEntity k ps s r -> settledEntity k ps s r'.
Proof.
  intros Hb Hne [Hk Hall]. split; [now apply (built_mono _ _ _ _ Hb)|].
  intros e He Hr. apply Hall; [|exact Hr].
  destruct Hb as (_ & _ & Ho & _). apply Ho; [exact He | congruence].
Qed.

Lemma built_keeps_settledLink (k k' : RecordRef) (s s' : ISourceReference)
    (r r' : Result) :
  built k' s' r r' -> settledLink k s r -> settledLink k s r'.
Proof.
  intros Hb [Hk Hall]. split.
  - now rewrite (built_hasLink _ _ _ _ Hb).
  - rewrite (built_links _ _ _ _ Hb). exact Hall.
Qed.

Lemma linkBuilt_keeps_settledEntity (k k' : RecordRef) (s s' : ISourceReference)
    (ps : list (string * option PropertyValue)) (r r' : Result) :
  linkBuilt k' s' r r' -> settledEntity k ps s r -> settledEntity k ps s r'.
Proof.
  intros [Hl _] [Hk Hall]. split.
  - now rewrite (linked_hasEntity _ _ _ Hl).
  - rewrite (linked_entities _ _ _ Hl). exact Hall.
Qed.

Lemma linkBuilt_keeps_settledLink (k k' : RecordRef) (s s' : ISourceReference)
    (r r' : Result) :
  linkBuilt k' s' r r' -> k <> k' -> settledLink k s r -> settledLink k s r'.
Proof.
  intros [Hl _] Hne [Hk Hall]. split; [now apply (linked_mono _ _ _ Hl)|].
  intros l Hin Hr. apply Hall; [|exact Hr].
  destruct Hl as (_ & _ & Ho). apply Ho; [exact Hin | congruence].
Qed.

Lemma linkBuilt_settles (k : RecordRef) (s : ISourceReference) (r r' : Result) :
  linkBuilt k s r r' -> settledLink k s r'.
Proof.
  intros [Hl Hs]. split; [apply (linked_hasLink _ _ _ Hl) | exact Hs].
Qed.

Lemma addLink_id (t : ItemType) (id : string) (from to : RecordRef) (r : Result) :
  hasEntity from r = true ->
  hasEntity to r = true ->
  settledLink (OwnRef t (StringId id)) NYPD.exampleSourceRef r ->
  NYPD.addLink t id from to r = Returned (tt, r).
Proof.
  intros Hf Ht [Hk Hall]. unfold NYPD.addLink, Result_addLink, bind, addLinkRef.
  rewrite Hf, Ht, Hk. simpl. unfold Link_setSourceReference.
  apply updateLink_id. intros l Hl Hr. pose proof (Hall _ Hl Hr) as Hs.
  destruct l as [ref f t' props src]. simpl in *. now rewrite Hs.
Qed.

Lemma row_props_NoDup (d : NYPD.IComplaintDto) :
  NoDup (map fst (locationProps d)) /\ NoDup (map fst (complaintProps d))
  /\ NoDup (map fst (suspectProps d)) /\ NoDup (map fst (victimProps d)).
Proof.
  repeat split; simpl; repeat constructor; simpl; intuition discriminate.
Qed.

Lemma row_refs_distinct (d : NYPD.IComplaintDto) :
  locationRef d <> complaintRef d /\ locationRef d <> suspectRef d
  /\ locationRef d <> victimRef d /\ complaintRef d <> suspectRef d
  /\ complaintRef d <> victimRef d /\ suspectRef d <> victimRef d.
Proof.
  unfold locationRef, complaintRef, suspectRef, victimRef.
  repeat split; simpl; discriminate.
Qed.

Lemma row_links_distinct (d : NYPD.IComplaintDto) :
  linkRefOf NYPD.Locatedat d <> linkRefOf NYPD.Victimof d
  /\ linkRefOf NYPD.Locatedat d <> linkRefOf NYPD.Suspectof d
  /\ linkRefOf NYPD.Victimof d <> linkRefOf NYPD.Suspectof d.
Proof. unfold linkRefOf. repeat split; discriminate. Qed.

Lemma getAll_row_settles (d : NYPD.IComplaintDto) (r : Result) :
  runs (NYPD.getAll_row d) r (fun _ r' => rowSettled d r').
Proof.
  destruct (row_props_NoDup d) as (Nl & Nc & Ns & Nv).
  destruct (row_refs_distinct d) as (Dlc & Dls & Dlv & Dcs & Dcv & Dsv).
  destruct (row_links_distinct d) as (Elv & Els & Evs).
  unfold NYPD.getAll_row.
  eapply runs_bind.
  { unfold NYPD.addLocation, Result_addEntity.
    apply (entity_helper_settles (locationRef d) (locationProps d)). exact Nl. }
  cbv beta. intros ? r1 (-> & B1 & S1).
  eapply runs_bind.
  { unfold NYPD.addComplaint, Result_addEntity.
    apply (entity_helper_settles (complaintRef d) (complaintProps d)). exact Nc. }
  cbv beta. intros ? r2 (-> & B2 & S2).
  eapply runs_bind.
  { unfold NYPD.addSuspect, Result_addEntity.
    apply (entity_helper_settles (suspectRef d) (suspectProps d)). exact Ns. }
  cbv beta. intros ? r3 (-> & B3 & S3).
  eapply runs_bind.
  { unfold NYPD.addVictim, Result_addEntity.
    apply (entity_helper_settles (victimRef d) (victimProps d)). exact Nv. }
  cbv beta. intros ? r4 (-> & B4 & S4).
  assert (L4 : settledEntity (locationRef d) (locationProps d) NYPD.exampleSourceRef r4).
  { apply (built_keeps_settledEntity _ _ _ _ _ _ _ B4); [exact Dlv|].
    apply (built_keeps_settledEntity _ _ _ _ _ _ _ B3); [exact Dls|].
    now apply (built_keeps_settledEntity _ _ _ _ _ _ _ B2). }
  assert (C4 : settledEntity (complaintRef d) (complaintProps d) NYPD.exampleSourceRef r4).
  { apply (built_keeps_settledEntity _ _ _ _ _ _ _ B4); [exact Dcv|].
    now apply (built_keeps_settledEntity _ _ _ _ _ _ _ B3). }
  assert (P4 : settledEntity (suspectRef d) (suspectProps d) NYPD.exampleSourceRef r4)
    by now apply (built_keeps_settledEntity _ _ _ _ _ _ _ B4).
  eapply runs_bind; [apply addLink_runs; [apply C4 | apply L4]|].
  cbv beta. intros ? r5 K5.
  eapply runs_bind.
  { apply addLink_runs.
    - apply (linkBuilt_keeps_settledEntity _ _ _ _ _ _ _ K5 S4).
    - apply (linkBuilt_keeps_settledEntity _ _ _ _ _ _ _ K5 C4). }
  cbv beta. intros ? r6 K6.
  eapply runs_weaken.
  { apply addLink_runs.
    - apply (linkBuilt_keeps_settledEntity _ _ _ _ _ _ _ K6
               (linkBuilt_keeps_settledEntity _ _ _ _ _ _ _ K5 P4)).
    - apply (linkBuilt_keeps_settledEntity _ _ _ _ _ _ _ K6
               (linkBuilt_keeps_settledEntity _ _ _ _ _ _ _ K5 C4)). }
  cbv beta. intros ? r7 K7.
  assert (Hent : forall k ps, settledEntity k ps NYPD.exampleSourceRef r4 ->
            settledEntity k ps NYPD.exampleSourceRef r7).
  { intros k ps H.
    apply (linkBuilt_keeps_settledEntity _ _ _ _ _ _ _ K7
             (linkBuilt_keeps_settledEntity _ _ _ _ _ _ _ K6
                (linkBuilt_keeps_settledEntity _ _ _ _ _ _ _ K5 H))). }
  unfold rowSettled.
  split; [now apply Hent|]. split; [now apply Hent|].
  split; [now apply Hent|]. split; [now apply Hent|].
  split; [|split].
  - apply (linkBuilt_keeps_settledLink _ _ _ _ _ _ K7); [exact Els|].
    apply (linkBuilt_keeps_settledLink _ _ _ _ _ _ K6); [exact Elv|].
    apply (linkBuilt_settles _ _ _ _ K5).
  - apply (linkBuilt_keeps_settledLink _ _ _ _ _ _ K7); [exact Evs|].
    apply (linkBuilt_settles _ _ _ _ K6).
  - apply (linkBuilt_settles _ _ _ _ K7).
Qed.

Lemma getAll_row_id (d : NYPD.IComplaintDto) (r : Result) :
  rowSettled d r -> NYPD.getAll_row d r = Returned (tt, r).
Proof.
  intros (Sl & Sc & Ss & Sv & Kl & Kv & Ks). unfold NYPD.getAll_row.
  assert (Hl : NYPD.addLocation d r = Returned (locationRef d, r))
    by (unfold NYPD.addLocation, Result_addEntity; now apply entity_helper_id).
  assert (Hc : NYPD.addComplaint d r = Returned (complaintRef d, r))
    by (unfold NYPD.addComplaint, Result_addEntity; now apply entity_helper_id).
  assert (Hs : NYPD.addSuspect d r = Returned (suspectRef d, r))
    by (unfold NYPD.addSuspect, Result_addEntity; now apply entity_helper_id).
  assert (Hv : NYPD.addVictim d r = Returned (victimRef d, r))
    by (unfold NYPD.addVictim, Result_addEntity; now apply entity_helper_id).
  unfold bind. rewrite Hl, Hc, Hs, Hv.
  rewrite (addLink_id NYPD.Locatedat (NYPD.cmplnt_num d) _ _ r (proj1 Sc) (proj1 Sl) Kl).
  rewrite (addLink_id NYPD.Victimof (NYPD.cmplnt_num d) _ _ r (proj1 Sv) (proj1 Sc) Kv).
  apply (addLink_id NYPD.Suspectof (NYPD.cmplnt_num d) _ _ r (proj1 Ss) (proj1 Sc) Ks).
Qed.

Lemma forEach_app {A : Type} (xs ys : list A) (body : A -> M unit) (r : Result) :
  forEach (xs ++ ys) body r
  = match forEach xs body r with
    | Returned (_, r') => forEach ys body r'
    | Thrown e => Thrown e
    end.
Proof.
  revert r. induction xs as [|x xs IH]; intros r; [reflexivity|].
  simpl. unfold bind. destruct (body x r) as [[u r1]|e]; [apply IH | reflexivity].
Qed.

Lemma forEach_cons {A : Type} (x : A) (xs : list A) (body : A -> M unit)
    (r : Result) :
  forEach (x :: xs) body r
  = match body x r with
    | Returned (_, r') => forEach xs body r'
    | Thrown e => Thrown e
    end.
Proof. reflexivity. Qed.

(** X18: a row that comes twice in a row adds nothing the second time: the
    result of [getAll] is the same as if the row had come once, and the
    body of the loop, run again on the result it has just produced, returns
    that result unchanged.  Each helper finds its entity or link and assigns
    it the values it already has. *)
Theorem getAll_repeated_row (before after : list NYPD.IComplaintDto)
    (d : NYPD.IComplaintDto) :
  run (NYPD.getAll_build (before ++ d :: d :: after))
  = run (NYPD.getAll_build (before ++ d :: after))
  /\ (forall r, exists r', NYPD.getAll_row d r = Returned (tt, r')
        /\ NYPD.getAll_row d r' = Returned (tt, r')).
Proof.
  split; [|intros r; destruct (getAll_row_settles d r) as ([] & r2 & Hrun2 & Hs);
           exists r2; split; [exact Hrun2 | now apply getAll_row_id]].
  unfold run, NYPD.getAll_build. rewrite !forEach_app.
  destruct (forEach before NYPD.getAll_row Result_new) as [[u r1]|e]; [|reflexivity].
  rewrite !(forEach_cons d).
  destruct (getAll_row_settles d r1) as ([] & r2 & Hrun & Hs).
  rewrite Hrun. cbv beta iota.
  now rewrite (forEach_cons d after), (getAll_row_id d r2 Hs).
Qed.

(** * Source references in every service *)

Lemma built_sourcedBut (K k : RecordRef) (s : ISourceReference) (r r' : Result) :
  built k s r r' -> sourcedBut K r -> sourcedBut K r'.
Proof.
  intros (Hl & _ & Ho & Hs) [He Hk]. split.
  - intros e Hin Hne. destruct (RecordRef_eq_dec (e_ref e) k) as [Hk'|Hk'].
    + exists s. now apply Hs.
    + apply He; [now apply Ho | exact Hne].
  - unfold linksSourced. now rewrite Hl.
Qed.

Lemma linkBuilt_sourcedBut (K k : RecordRef) (s : ISourceReference) (r r' : Result) :
  linkBuilt k s r r' -> sourcedBut K r -> sourcedBut K r'.
Proof.
  intros Hb [He Hk]. split.
  - rewrite (linked_entities _ _ _ (proj1 Hb)). exact He.
  - now apply (linkBuilt_sourced _ _ _ _ Hb).
Qed.

Lemma building_sourcedBut (K : RecordRef) (r r' : Result) :
  building K r r' -> sourcedBut K r -> sourcedBut K r'.
Proof.
  intros (Hl & _ & Ho) [He Hk]. split.
  - intros e Hin Hne. apply He; [now apply Ho | exact Hne].
  - unfold linksSourced. now rewrite Hl.
Qed.

Lemma building_hasEntity (k : RecordRef) (r r' : Result) :
  building k r r' -> hasEntity k r' = true.
Proof.
  intros (_ & Hr & _). apply hasEntity_In. rewrite Hr.
  apply in_or_app. destruct (hasEntity k r) eqn:Hk.
  - left. now apply hasEntity_In.
  - right. now left.
Qed.

Lemma sourcedBut_new (K : RecordRef) : sourcedBut K Result_new.
Proof. split; intros x []. Qed.

(** The steps of a row: an entity helper, an entity that is at hand, and
    the link helper, with the entities that the row has met so far. *)
Lemma helper_sourced (m : M RecordRef) (K k : RecordRef) (s : ISourceReference)
    (ks : list RecordRef) (r : Result) :
  runs m r (fun a r' => a = k /\ built k s r r') ->
  sourcedBut K r -> allPresent ks r ->
  runs m r (fun a r' => sourcedBut K r' /\ allPresent (a :: ks) r').
Proof.
  intros Hm H0 Hks. eapply runs_weaken; [exact Hm|]. cbv beta.
  intros a r' [-> B]. split; [now apply (built_sourcedBut _ _ _ _ _ B)|].
  constructor; [apply (built_hasEntity _ _ _ _ B)|].
  unfold allPresent in Hks. rewrite Forall_forall in *.
  intros x Hx. now apply (built_mono _ _ _ _ B), Hks.
Qed.

Lemma known_sourced (K a : RecordRef) (ks : list RecordRef) (r : Result) :
  sourcedBut K r -> allPresent ks r -> In a ks ->
  runs (ret a) r (fun a r' => sourcedBut K r' /\ allPresent (a :: ks) r').
Proof.
  intros H0 Hks Ha. apply runs_ret. split; [exact H0|].
  constructor; [|exact Hks].
  unfold allPresent in Hks. rewrite Forall_forall in Hks. now apply Hks.
Qed.

Lemma link_sourced (t : ItemType) (id : string) (from to K : RecordRef)
    (ks : list RecordRef) (r : Result) :
  sourcedBut K r -> allPresent ks r -> In from ks -> In to ks ->
  runs (NYPD.addLink t id from to) r
    (fun _ r' => sourcedBut K r' /\ allPresent ks r').
Proof.
  intros H0 Hks Hf Ht. unfold allPresent in *. rewrite Forall_forall in Hks.
  eapply runs_weaken; [apply addLink_runs; now apply Hks|]. cbv beta.
  intros u r' B. split; [now apply (linkBuilt_sourcedBut _ _ _ _ _ B)|].
  apply Forall_forall. intros x Hx.
  rewrite (linked_hasEntity _ _ _ (proj1 B)). now apply Hks.
Qed.

Lemma allPresent_last (K : RecordRef) (ks : list RecordRef) (r : Result) :
  allPresent ks r -> In K ks -> allPresent [K] r.
Proof.
  unfold allPresent. rewrite !Forall_forall. intros H HK x [<-|[]]. now apply H.
Qed.

Lemma expand_row_sourced (seed : ISeedEntityRecord) (K : RecordRef)
    (d : NYPD.IComplaintDto) (r : Result) :
  sourcedBut K r /\ allPresent [K] r ->
  runs (NYPD.expand_row seed K d) r
    (fun _ r' => sourcedBut K r' /\ allPresent [K] r').
Proof.
  intros [H0 K0]. unfold NYPD.expand_row.
  eapply runs_bind.
  { destruct (Seed_isType seed NYPD.Complaint).
    - apply known_sourced; [exact H0 | exact K0 | now left].
    - apply (helper_sourced _ _ _ _ _ _ (addComplaint_runs d r) H0 K0). }
  cbv beta. intros c r1 [H1 K1].
  eapply runs_bind.
  { destruct (Seed_isType seed NYPD.Location).
    - apply known_sourced; [exact H1 | exact K1 | right; now left].
    - apply (helper_sourced _ _ _ _ _ _ (addLocation_runs d r1) H1 K1). }
  cbv beta. intros l r2 [H2 K2].
  eapply runs_bind; [apply (helper_sourced _ _ _ _ _ _ (addSuspect_runs d r2) H2 K2)|].
  cbv beta. intros su r3 [H3 K3].
  eapply runs_bind; [apply (helper_sourced _ _ _ _ _ _ (addVictim_runs d r3) H3 K3)|].
  cbv beta. intros v r4 [H4 K4].
  eapply runs_bind; [apply (link_sourced _ _ _ _ _ _ _ H4 K4); simpl; auto|].
  cbv beta. intros ? r5 [H5 K5].
  eapply runs_bind; [apply (link_sourced _ _ _ _ _ _ _ H5 K5); simpl; auto|].
  cbv beta. intros ? r6 [H6 K6].
  eapply runs_weaken; [apply (link_sourced _ _ _ _ _ _ _ H6 K6); simpl; auto|].
  cbv beta. intros ? r7 [H7 K7]. split; [exact H7|].
  apply (allPresent_last _ _ _ K7). simpl. auto 10.
Qed.

Lemma expandWithConditions_row_sourced (isPerson : bool) (K : RecordRef)
    (d : NYPD.IComplaintDto) (r : Result) :
  sourcedBut K r /\ allPresent [K] r ->
  runs (NYPD.expandWithConditions_row isPerson K d) r
    (fun _ r' => sourcedBut K r' /\ allPresent [K] r').
Proof.
  intros [H0 K0]. unfold NYPD.expandWithConditions_row.
  apply runs_bind with (P := fun _ r1 => sourcedBut K r1 /\ allPresent [K] r1).
  { destruct isPerson; [|now apply runs_ret].
    eapply runs_bind; [apply (helper_sourced _ _ _ _ _ _ (addSuspect_runs d r) H0 K0)|].
    cbv beta. intros su r1 [H1 K1].
    eapply runs_bind; [apply (helper_sourced _ _ _ _ _ _ (addVictim_runs d r1) H1 K1)|].
    cbv beta. intros v r2 [H2 K2].
    eapply runs_bind; [apply (link_sourced _ _ _ _ _ _ _ H2 K2); simpl; auto|].
    cbv beta. intros ? r3 [H3 K3].
    eapply runs_weaken; [apply (link_sourced _ _ _ _ _ _ _ H3 K3); simpl; auto|].
    cbv beta. intros ? r4 [H4 K4]. split; [exact H4|].
    apply (allPresent_last _ _ _ K4). simpl. auto. }
  cbv beta. intros ? r1 [H1 K1].
  eapply runs_bind; [apply (helper_sourced _ _ _ _ _ _ (addLocation_runs d r1) H1 K1)|].
  cbv beta. intros l r2 [H2 K2].
  eapply runs_weaken; [apply (link_sourced _ _ _ _ _ _ _ H2 K2); simpl; auto|].
  cbv beta. intros ? r3 [H3 K3]. split; [exact H3|].
  apply (allPresent_last _ _ _ K3). simpl. auto.
Qed.

Lemma around_seed_sourced (seed : ISeedEntityRecord) (data : list NYPD.IComplaintDto)
    (row : RecordRef -> NYPD.IComplaintDto -> M unit) :
  (forall d r,
     sourcedBut (SeedRef (seedId seed)) r /\ allPresent [SeedRef (seedId seed)] r ->
     runs (row (SeedRef (seedId seed)) d) r
       (fun _ r' => sourcedBut (SeedRef (seedId seed)) r'
                    /\ allPresent [SeedRef (seedId seed)] r')) ->
  exists r,
    run (seedEntity <- Result_addEntityFromSeed seed ;; forEach data (row seedEntity))
    = Returned r
    /\ sourcedBut (SeedRef (seedId seed)) r.
Proof.
  intros Hrow. apply run_runs. unfold Result_addEntityFromSeed.
  eapply runs_bind; [apply addEntityRef_runs|]. cbv beta. intros a r1 [-> B].
  eapply runs_weaken.
  - apply (runs_forEach data (row (SeedRef (seedId seed)))
             (fun r => sourcedBut (SeedRef (seedId seed)) r
                       /\ allPresent [SeedRef (seedId seed)] r)).
    + intros d r _ HI. now apply Hrow.
    + split.
      * apply (building_sourcedBut _ _ _ B), sourcedBut_new.
      * constructor; [apply (building_hasEntity _ _ _ B) | constructor].
  - cbv beta. intros u r [H _]. exact H.
Qed.

Lemma people_loop_sourced (Person : ItemType) (people : list Example.IPerson)
    (getFullYear : string -> JSNumber) (thisYear : Z)
    (predicate : Example.IPerson -> bool)
    (idFactory : option (string -> ResultRecordIdType)) :
  exists r,
    run (forEach (Example.lookupPeople people predicate)
           (fun person =>
              Example.addPersonToResult Person getFullYear thisYear person idFactory ;;;
              ret tt)) = Returned r
    /\ peopleOK r.
Proof.
  apply run_runs. apply runs_forEach with (I := peopleOK); [|apply peopleOK_new].
  intros p r _ H0.
  eapply runs_bind; [apply addPersonToResult_runs|]. cbv beta. intros a r1 [-> B1].
  apply runs_ret. now apply (built_peopleOK _ _ _ _ B1).
Qed.

(** C7, amended: in every service of the NYPD connector, whatever rows
    the request returns and whatever the seed, every entity made from a
    fetched row and every link carries one source reference in the
    returned result; the entity that wraps the seed is not made from a
    row and is the one exception.  In the people services of the example
    connector every entity made from a looked-up person carries one,
    while the Friendswith links of the friend expansion carry none.  On
    every result, the entity helpers leave the entity they return, and
    the NYPD [addLink] the link it registers, with the connector's source
    reference. *)
Theorem fetched_records_carry_source :
  (forall data, exists r,
      run (NYPD.getAll_build data) = Returned r
      /\ entitiesSourced r /\ linksSourced r)
  /\ (forall href fetch data,
      NYPD.requestData fetch (NYPD.getUrl href [("$limit", "100")]) = Returned data ->
      exists r,
        NYPD.getAll href fetch = Returned r
        /\ entitiesSourced r /\ linksSourced r)
  /\ (forall href fetch borough lawCategory data,
      NYPD.requestData fetch
        (NYPD.getUrl href (findComplaint_params borough lawCategory)) = Returned data ->
      exists r,
        NYPD.findComplaint href fetch borough lawCategory = Returned r
        /\ entitiesSourced r /\ linksSourced r)
  /\ (forall href fetch seed others data,
      NYPD.requestData fetch
        (NYPD.getUrl href (findSimilarComplaint_params seed)) = Returned data ->
      exists r,
        NYPD.findSimilarComplaint href fetch (mkSeeds (seed :: others)) = Returned r
        /\ entitiesSourced r /\ linksSourced r)
  /\ (forall href fetch seed others data,
      NYPD.requestData fetch
        (NYPD.getUrl href (("$limit", "50") :: NYPD.expand_query seed)) = Returned data ->
      exists r,
        NYPD.expand href fetch (mkSeeds (seed :: others)) = Returned r
        /\ (forall e, In e (entities r) -> e_ref e <> SeedRef (seedId seed) ->
              exists s, e_source e = Some s)
        /\ linksSourced r)
  /\ (forall href fetch isPerson seed others data,
      NYPD.requestData fetch
        (NYPD.getUrl href (expandWithConditions_params seed)) = Returned data ->
      exists r,
        NYPD.expandWithConditions href fetch isPerson (mkSeeds (seed :: others))
        = Returned r
        /\ (forall e, In e (entities r) -> e_ref e <> SeedRef (seedId seed) ->
              exists s, e_source e = Some s)
        /\ linksSourced r)
  /\ (forall Person people getFullYear thisYear term idFactory, exists r,
      Example.findPeople Person people getFullYear thisYear term idFactory
      = Returned r
      /\ entitiesSourced r)
  /\ (forall Person people localeCompare getFullYear thisYear seed others
        useYearOfBirth,
      exists r,
        Example.exampleSeededSearch1 Person people localeCompare getFullYear
          thisYear (mkSeeds (seed :: others)) useYearOfBirth = Returned r
        /\ entitiesSourced r)
  /\ (forall Person Friendswith people getFullYear thisYear seeds extract idFactory,
      exists r,
        Example.getFriendsLinkedToSeeds Person Friendswith people getFullYear
          thisYear seeds extract idFactory = Returned r
        /\ entitiesSourced r
        /\ forall l, In l (links r) -> l_source l = None)
  /\ (forall Person getFullYear thisYear p idFactory r, exists r' e,
      Example.addPersonToResult Person getFullYear thisYear p idFactory r
      = Returned (personRef Person idFactory p, r')
      /\ findEntity (personRef Person idFactory p) r' = Some e
      /\ e_source e = Some Example.exampleSourceRef)
  /\ (forall d r,
      (exists r' e, NYPD.addLocation d r = Returned (locationRef d, r')
         /\ findEntity (locationRef d) r' = Some e
         /\ e_source e = Some NYPD.exampleSourceRef)
      /\ (exists r' e, NYPD.addComplaint d r = Returned (complaintRef d, r')
         /\ findEntity (complaintRef d) r' = Some e
         /\ e_source e = Some NYPD.exampleSourceRef)
      /\ (exists r' e, NYPD.addSuspect d r = Returned (suspectRef d, r')
         /\ findEntity (suspectRef d) r' = Some e
         /\ e_source e = Some NYPD.exampleSourceRef)
      /\ (exists r' e, NYPD.addVictim d r = Returned (victimRef d, r')
         /\ findEntity (victimRef d) r' = Some e
         /\ e_source e = Some NYPD.exampleSourceRef))
  /\ (forall t id from to r,
      hasEntity from r = true -> hasEntity to r = true ->
      exists r' l, NYPD.addLink t id from to r = Returned (tt, r')
        /\ findLink (OwnRef t (StringId id)) r' = Some l
        /\ l_source l = Some NYPD.exampleSourceRef).
Proof.
  assert (Hhelper : forall (m : M RecordRef) k s r,
            runs m r (fun a r' => a = k /\ built k s r r') ->
            exists r' e, m r = Returned (k, r')
              /\ findEntity k r' = Some e /\ e_source e = Some s).
  { intros m k s r (a & r' & Hm & -> & Hb).
    destruct (built_findEntity _ _ _ _ Hb) as (e & He & Hs).
    now exists r', e. }
  assert (Hcomplaints : forall data, exists r,
            run (forEach data (fun datum => NYPD.addComplaint datum ;;; ret tt))
            = Returned r /\ entitiesSourced r /\ linksSourced r).
  { intros data. destruct (complaints_loop data) as (r & Hr & _ & Hl & He & _).
    exists r. split; [exact Hr|]. split; [exact He|].
    unfold linksSourced. rewrite Hl. intros l []. }
  split; [|split; [|split; [|split; [|split; [|split; [|split; [|split;
    [|split; [|split; [|split]]]]]]]]]].
  - intros data. destruct (getAll_build_runs data) as (r & Hr & _ & _ & He & Hl).
    now exists r.
  - intros href fetch data Hreq. unfold NYPD.getAll. rewrite Hreq.
    destruct (getAll_build_runs data) as (r & Hr & _ & _ & He & Hl).
    now exists r.
  - intros href fetch borough lawCategory data Hreq. unfold NYPD.findComplaint.
    unfold findComplaint_params in Hreq. rewrite Hreq. apply Hcomplaints.
  - intros href fetch seed others data Hreq. unfold NYPD.findSimilarComplaint.
    simpl seedEntities. cbv iota. unfold findSimilarComplaint_params in Hreq.
    rewrite Hreq. apply Hcomplaints.
  - intros href fetch seed others data Hreq. unfold NYPD.expand.
    simpl seedEntities. cbv iota. rewrite Hreq.
    replace (if Seed_isType seed NYPD.Complaint
             then Result_addEntityFromSeed seed
             else Result_addEntityFromSeed seed)
      with (Result_addEntityFromSeed seed)
      by (now destruct (Seed_isType seed NYPD.Complaint)).
    apply (around_seed_sourced seed data (NYPD.expand_row seed)).
    intros d r. apply expand_row_sourced.
  - intros href fetch isPerson seed others data Hreq.
    unfold NYPD.expandWithConditions. simpl seedEntities. cbv iota.
    unfold expandWithConditions_params in Hreq. rewrite Hreq.
    apply (around_seed_sourced seed data (NYPD.expandWithConditions_row isPerson)).
    intros d r. apply expandWithConditions_row_sourced.
  - intros. destruct (findPeople_runs Person people getFullYear thisYear term idFactory)
      as (r & Hr & _ & _ & He & _).
    now exists r.
  - intros. unfold Example.exampleSeededSearch1. simpl seedEntities. cbv iota.
    destruct (people_loop_sourced Person people getFullYear thisYear
                (Example.seededSearch1_predicate Person localeCompare seed
                   useYearOfBirth) None) as (r & Hr & _ & _ & He & _).
    now exists r.
  - intros.
    destruct (getFriendsLinkedToSeeds_runs Person Friendswith people getFullYear
                thisYear seeds extract idFactory) as (r & Hr & _ & _ & He & Hl).
    now exists r.
  - intros. apply Hhelper, addPersonToResult_runs.
  - intros d r. split; [|split; [|split]]; apply Hhelper.
    + apply addLocation_runs.
    + apply addComplaint_runs.
    + apply addSuspect_runs.
    + apply addVictim_runs.
  - intros t id from to r Hf Ht.
    destruct (addLink_runs t id from to r Hf Ht) as ([] & r' & Hrun & Hl & Hs).
    pose proof (linked_hasLink _ _ _ Hl) as Hk. unfold hasLink in Hk.
    exists r'. unfold findLink.
    destruct (find _ (links r')) as [l|] eqn:Hfind.
    + exists l. split; [exact Hrun|]. split; [reflexivity|].
      apply find_some in Hfind. destruct Hfind as [Hin Hr].
      apply sameRef_true in Hr. now apply Hs.
    + apply existsb_exists in Hk. destruct Hk as (l & Hin & Hr).
      now rewrite (find_none _ _ Hfind l Hin) in Hr.
Qed.

(** * The link of a pair of friends *)

Lemma filter_single {A B : Type} (f : A -> B) (g : A -> bool) (xs : list A) (l : A) :
  NoDup (map f xs) -> In l xs -> g l = true ->
  (forall x, In x xs -> g x = true -> f x = f l) ->
  filter g xs = [l].
Proof.
  induction xs as [|x xs IH]; intros Hnd Hin Hg Hall; [contradiction|].
  simpl in Hnd. inversion Hnd as [|? ? Hnot Hnd']; subst. simpl.
  destruct Hin as [->|Hin].
  - rewrite Hg. f_equal.
    destruct (filter g xs) as [|y ys] eqn:Hf; [reflexivity|].
    assert (Hy : In y (filter g xs)) by (rewrite Hf; now left).
    apply filter_In in Hy. destruct Hy as [Hy1 Hy2].
    elim Hnot. rewrite <- (Hall y (or_intror Hy1) Hy2). now apply in_map.
  - destruct (g x) eqn:Hgx.
    + elim Hnot. rewrite (Hall x (or_introl eq_refl) Hgx). now apply in_map.
    + apply IH; auto. intros y Hy. apply Hall. now right.
Qed.

(** The identifier "p1-p2" has one hyphen: it is the key of the ids "p1"
    and "p2" and of no other pair. *)
Lemma hyphen_p1_p2 (x y : string) :
  x ++ "-" ++ y = "p1-p2" -> x = "p1" /\ y = "p2".
Proof.
  intros H.
  destruct x as [|c1 x]; simpl in H; [discriminate|].
  injection H as -> H.
  destruct x as [|c2 x]; simpl in H; [discriminate|].
  injection H as -> H.
  destruct x as [|c3 x]; simpl in H; [now injection H as <-|].
  injection H as -> H.
  destruct x as [|c4 x]; simpl in H; [discriminate|].
  injection H as -> H.
  destruct x as [|c5 x]; simpl in H; [discriminate|].
  injection H as -> H.
  destruct x; simpl in H; discriminate.
Qed.

Lemma friendLinkKey_p1_p2 (a b : string) :
  friendLinkKey a b = "p1-p2" ->
  (a = "p1" /\ b = "p2") \/ (a = "p2" /\ b = "p1").
Proof.
  unfold friendLinkKey, join. simpl.
  destruct (b <? a)%string; simpl; intros H; apply hyphen_p1_p2 in H;
    destruct H as [-> ->]; auto.
Qed.

Lemma friend_pair_once
    (Person Friendswith : ItemType) (people : list Example.IPerson)
    (getFullYear : string -> JSNumber) (thisYear : Z)
    (seeds : ISeeds) (extract : ISeedEntityRecord -> list string)
    (idFactory : option (string -> ResultRecordIdType))
    (p q : Example.IPerson) :
  (forall a b, Example.withDefault idFactory a = Example.withDefault idFactory b ->
               a = b) ->
  befriended people extract seeds p q ->
  Example.id p = "p1" -> Example.id q = "p2" ->
  exists r l,
    Example.getFriendsLinkedToSeeds Person Friendswith people getFullYear
      thisYear seeds extract idFactory = Returned r
    /\ linksBetween (personRef Person idFactory p) (personRef Person idFactory q) r
       = [l]
    /\ l_ref l = OwnRef Friendswith (Example.withDefault idFactory "p1-p2")
    /\ countLinks (OwnRef Friendswith (Example.withDefault idFactory "p1-p2")) r
       = 1%nat.
Proof.
  intros Hinj Hpq Hidp Hidq.
  destruct (getFriendsLinkedToSeeds_graph Person Friendswith people getFullYear
              thisYear seeds extract idFactory) as (r & Hr & _ & Hl & Ht).
  destruct (getFriendsLinkedToSeeds_runs Person Friendswith people getFullYear
              thisYear seeds extract idFactory) as (r' & Hr' & _ & Hnd & _).
  rewrite Hr in Hr'. injection Hr' as <-.
  set (K := OwnRef Friendswith (Example.withDefault idFactory "p1-p2")).
  set (P := personRef Person idFactory p).
  set (Q := personRef Person idFactory q).
  assert (Hends : forall p' q',
            (Example.id p' = "p1" /\ Example.id q' = "p2")
            \/ (Example.id p' = "p2" /\ Example.id q' = "p1") ->
            friendLinkRef Friendswith idFactory p' q' = K
            /\ ((personRef Person idFactory p' = P /\ personRef Person idFactory q' = Q)
                \/ (personRef Person idFactory p' = Q
                    /\ personRef Person idFactory q' = P))).
  { intros p' q' [[Hp' Hq']|[Hp' Hq']];
      unfold friendLinkRef, personRef, K, P, Q, personRef;
      rewrite Hp', Hq', Hidp, Hidq; split; auto. }
  assert (HK : hasLink K r = true).
  { apply Hl. exists p, q. split; [exact Hpq|]. symmetry. now apply Hends; left. }
  apply hasLink_In in HK. unfold linkRefs in HK. apply in_map_iff in HK.
  destruct HK as (l & Hlk & Hin).
  assert (Hof : forall x, In x (links r) ->
            exists p' q', l_ref x = friendLinkRef Friendswith idFactory p' q'
              /\ l_from x = personRef Person idFactory p'
              /\ l_to x = personRef Person idFactory q').
  { intros x Hx.
    destruct (Ht (l_ref x, l_from x, l_to x)) as (p' & q' & _ & Heq).
    - unfold linkEnds. apply in_map_iff. now exists x.
    - exists p', q'. now inversion Heq. }
  exists r, l. split; [exact Hr|]. split; [|split; [exact Hlk|]].
  - unfold linksBetween. apply (filter_single l_ref); [exact Hnd | exact Hin | |].
    + destruct (Hof l Hin) as (p' & q' & Href & Hfrom & Hto).
      rewrite Hlk in Href. unfold K, friendLinkRef in Href.
      injection Href as Href. apply Hinj in Href. symmetry in Href.
      apply friendLinkKey_p1_p2 in Href.
      destruct (Hends p' q' Href) as [_ [[HP HQ]|[HQ HP]]];
        unfold joins; rewrite Hfrom, Hto, HP, HQ, !sameRef_refl; simpl;
        [reflexivity | apply orb_true_r].
    + intros x Hx Hj. rewrite Hlk.
      destruct (Hof x Hx) as (p' & q' & Href & Hfrom & Hto).
      rewrite Href. apply Hends.
      unfold joins in Hj. rewrite Hfrom, Hto in Hj.
      apply orb_true_iff in Hj.
      destruct Hj as [Hj|Hj]; apply andb_true_iff in Hj; destruct Hj as [H1 H2];
        apply sameRef_true in H1, H2; unfold P, Q, personRef in H1, H2;
        injection H1 as H1; injection H2 as H2;
        apply Hinj in H1, H2; rewrite Hidp in *; rewrite Hidq in *; auto.
  - apply countLinks_one; [exact Hnd|]. apply hasLink_In. unfold linkRefs.
    apply in_map_iff. now exists l.
Qed.

(** C1, as claimed, fails when the declared friend is not a person of the
    data set: two seeds resolve to "p1", whose declared friend is "p2",
    and the result holds no link, since the lookup of the friends finds
    nobody. *)
Lemma friend_absent_no_link :
  In "p2" (Example.friends ann)
  /\ exists r,
       Example.exampleSeededSearch2 PersonType FriendswithType [ann] yearOfDate
         2022 twoSeeds = Returned r
       /\ links r = [].
Proof.
  split; [now left|].
  eexists. split; [vm_compute; reflexivity | reflexivity].
Qed.

(** C1, amended: when one seed of the list or several resolve to the
    person "p1" of the data set, who names "p2" as a friend, and "p2" is
    a person of the data set too, the friend expansion returns a result
    in which exactly one link joins the entities of the two persons, in
    either direction: the Friendswith link under the identifier made from
    "p1-p2", which is registered once.  This holds with the plain
    identifiers and with the custom source identifiers of the connector,
    also when other seeds resolve to "p2". *)
Theorem friend_pair_linked_once
    (Person Friendswith : ItemType) (people : list Example.IPerson)
    (getFullYear : string -> JSNumber) (thisYear : Z)
    (seeds : ISeeds) (extractIdsFromSeed : ISeedEntityRecord -> list string)
    (idFactory : option (string -> ResultRecordIdType))
    (s : ISeedEntityRecord) (p q : Example.IPerson) :
  idFactory = None \/ idFactory = Some Example.createCustomSourceIdentifier ->
  In s (seedEntities seeds) ->
  In "p1" (extractIdsFromSeed s) ->
  In p people -> Example.id p = "p1" -> In "p2" (Example.friends p) ->
  In q people -> Example.id q = "p2" ->
  exists r l,
    Example.getFriendsLinkedToSeeds Person Friendswith people getFullYear
      thisYear seeds extractIdsFromSeed idFactory = Returned r
    /\ linksBetween (personRef Person idFactory p) (personRef Person idFactory q) r
       = [l]
    /\ l_ref l = OwnRef Friendswith (Example.withDefault idFactory "p1-p2")
    /\ countLinks (OwnRef Friendswith (Example.withDefault idFactory "p1-p2")) r
       = 1%nat.
Proof.
  intros Hfactory Hs Hkey Hp Hidp Hfr Hq Hidq.
  apply friend_pair_once; [| |exact Hidp | exact Hidq].
  - intros a b Hab. destruct Hfactory as [-> | ->]; simpl in Hab.
    + now injection Hab.
    + unfold Example.createCustomSourceIdentifier in Hab. now injection Hab.
  - exists s. rewrite Hidp, Hidq. auto.
Qed.

Lemma friend_pair_linked_once_witness :
  exists r l,
    Example.exampleSeededSearch2 PersonType FriendswithType twoPeople yearOfDate
      2022 twoSeeds = Returned r
    /\ linksBetween (OwnRef PersonType (StringId "p1"))
         (OwnRef PersonType (StringId "p2")) r = [l]
    /\ l_ref l = OwnRef FriendswithType (StringId "p1-p2")
    /\ countLinks (OwnRef FriendswithType (StringId "p1-p2")) r = 1%nat.
Proof.
  apply (friend_pair_linked_once PersonType FriendswithType twoPeople yearOfDate
           2022 twoSeeds (keysOf PersonType) None
           (seedP1 "seed-a") ann bob);
    try reflexivity; simpl; auto.
Defined.
